(** * video_combine_srt: a shallow embedding of [main.py]

    The development follows the pipeline of [VideoProcessor]: caption
    resolution (the greedy packer, the SRT reader, the text fallback),
    caption rendering with its fallback chain, clip acquisition and
    the task orchestrator.

    Conventions.
    - A Python [str] is a Rocq [string]: one [ascii] per character, so
      the text operations ([len], [strip], [split], [lower]) are those
      of Python on code points below 256.  String literals of the
      source that are only passed around (messages) are kept verbatim.
    - A time in seconds is a rational of [Q].  Where the program
      computes with it, in the two functions that print a time, the
      rational stands for the [float] nearest to it and the
      arithmetic is that of binary64, rounding included ([Float64]);
      a whole number of seconds below [2^53] prints the same as an
      [int] and as a [float].
    - What the program asks of the outside (downloads, the transcoding
      engine, the file system, the speech engine, pysrt, re) is answered
      by an oracle that sees everything that happened before. *)

From Stdlib Require Import ZArith QArith Qround Qabs Qpower Lqa Ascii String List Lia Bool.
From Stdlib Require Import DecimalString DecimalN DecimalPos.
From stdpp Require Import base option list strings gmap.

Local Open Scope string_scope.
Local Open Scope list_scope.
Local Open Scope nat_scope.

(** ** Python strings *)

Module PyStr.

(** [str.isspace] on one character (code points below 256). *)
Definition isspace (c : ascii) : bool :=
  let n := nat_of_ascii c in
  ((9 <=? n) && (n <=? 13)) || ((28 <=? n) && (n <=? 32))
  || (n =? 133) || (n =? 160).

(** [str.lower] on one character. *)
Definition lower_char (c : ascii) : ascii :=
  let n := nat_of_ascii c in
  if ((65 <=? n) && (n <=? 90))
     || ((192 <=? n) && (n <=? 222) && negb (n =? 215))
  then ascii_of_nat (n + 32) else c.

Fixpoint lower (s : string) : string :=
  match s with
  | EmptyString => EmptyString
  | String c s' => String (lower_char c) (lower s')
  end.

Fixpoint lstrip (s : string) : string :=
  match s with
  | EmptyString => EmptyString
  | String c s' => if isspace c then lstrip s' else s
  end.

Fixpoint rstrip (s : string) : string :=
  match s with
  | EmptyString => EmptyString
  | String c s' =>
      match rstrip s' with
      | EmptyString => if isspace c then EmptyString else String c EmptyString
      | r => String c r
      end
  end.

(** [s.strip()] *)
Definition strip (s : string) : string := rstrip (lstrip s).

(** [s.split()]: the maximal runs of non-blank characters. *)
Fixpoint split_go (cur : string) (s : string) : list string :=
  match s with
  | EmptyString => if String.eqb cur "" then [] else [cur]
  | String c s' =>
      if isspace c
      then (if String.eqb cur "" then split_go "" s' else cur :: split_go "" s')
      else split_go (cur +:+ String c "") s'
  end.

Definition split (s : string) : list string := split_go "" s.

(** [sep.join(l)] *)
Fixpoint join (sep : string) (l : list string) : string :=
  match l with
  | [] => ""
  | [x] => x
  | x :: l' => x +:+ sep +:+ join sep l'
  end.

(** [s.replace(a, b)] for one-character [a] and [b]. *)
Fixpoint replace_char (a b : ascii) (s : string) : string :=
  match s with
  | EmptyString => EmptyString
  | String c s' => String (if Ascii.eqb c a then b else c) (replace_char a b s')
  end.

(** [s.startswith(p)] *)
Definition startswith (p s : string) : bool := String.prefix p s.

(** [p in s] for strings: [p] occurs in [s]. *)
Fixpoint contains (p s : string) : bool :=
  String.prefix p s ||
  match s with
  | EmptyString => false
  | String _ s' => contains p s'
  end.

(** [s[:n]] *)
Definition take (n : nat) (s : string) : string := String.substring 0 n s.

(** Truth value of a string. *)
Definition truthy (s : string) : bool := negb (String.eqb s "").

Definition nl : ascii := ascii_of_nat 10.
Definition sp : ascii := ascii_of_nat 32.

End PyStr.

(** ** Cues and word timings *)

(** [{'word': ..., 'start': ..., 'end': ...}] *)
Record word_timing := WordTiming {
  w_word : string;
  w_start : Q;
  w_end : Q
}.

(** [{'text': ..., 'start': ..., 'end': ...}] *)
Record cue := Cue {
  c_text : string;
  c_start : Q;
  c_end : Q
}.


(** ** Tier 1: the greedy packer, [convert_to_line_level] *)

(** The variables of the loop.  [line_start] and [line_end] are [None]
    until a word has been seen. *)
Record packer := Packer {
  line_level_subtitles : list cue;
  current_line : string;
  line_start : option Q;
  line_end : option Q
}.

(** The cue appended when a line is saved.  Both times are set by then
    ([packer_times_set] below), so the default is never used. *)
Definition flush (p : packer) : list cue :=
  if PyStr.truthy (PyStr.strip (current_line p))
  then line_level_subtitles p ++
       [Cue (PyStr.strip (current_line p))
            (default 0%Q (line_start p)) (default 0%Q (line_end p))]
  else line_level_subtitles p.

(** One iteration of [for word_info in word_level_info]. *)
Definition packer_step (max_chars : nat) (p : packer) (word_info : word_timing) : packer :=
  let word := PyStr.strip (w_word word_info) in
  let line_start0 :=
    match line_start p with
    | None => Some (w_start word_info)
    | Some s => Some s
    end in
  if String.length (current_line p +:+ word) <=? max_chars
  then Packer (line_level_subtitles p)
              (current_line p +:+ word +:+ " ")
              line_start0
              (Some (w_end word_info))
  else Packer (flush (Packer (line_level_subtitles p) (current_line p)
                             line_start0 (line_end p)))
              (word +:+ " ")
              (Some (w_start word_info))
              (Some (w_end word_info)).

Definition packer_init : packer := Packer [] "" None None.

Definition convert_to_line_level_with (max_chars : nat)
    (word_level_info : list word_timing) : list cue :=
  flush (fold_left (packer_step max_chars) word_level_info packer_init).

(** [max_chars=47] is the default of the source. *)
Definition convert_to_line_level : list word_timing -> list cue :=
  convert_to_line_level_with 47.

(** ** Python numbers on [Q] *)

Module PyNum.

Local Open Scope Q_scope.

(** The exact quotient [floor(x / y)] and the exact remainder: what
    [x // y] and [x % y] are on [int], and what they are compared with
    on [float]. *)
Definition floordiv (x y : Q) : Q := inject_Z (Qfloor (x / y)).

Definition mod_ (x y : Q) : Q := x - y * floordiv x y.

(** [int(x)]: towards zero. *)
Definition int (x : Q) : Z :=
  if Qle_bool 0 x then Qfloor x else Qceiling x.

(** The decimal digits of a natural number. *)
Definition digits (n : N) : string :=
  NilZero.string_of_uint (N.to_uint n).

Fixpoint zeros (n : nat) : string :=
  match n with
  | O => ""
  | S n' => String "0" (zeros n')
  end.

(** [f"{z:0<width>d}"]: the sign first, then zeros up to the width. *)
Definition format_d (width : nat) (z : Z) : string :=
  let ds := digits (Z.abs_N z) in
  let sign := if (z <? 0)%Z then "-" else "" in
  sign +:+ zeros (width - String.length sign - String.length ds) +:+ ds.

(** [str(n)] for an index. *)
Definition str_nat (n : nat) : string := digits (N.of_nat n).

End PyNum.

(** ** Python floats *)

(** A [float] is an IEEE 754 binary64 number: a sign, 53 significant
    bits and a power of two not below [2^-1074].  A finite one is kept
    as the rational it equals; every operation computes the exact
    result and rounds it to the nearest float, ties to the even
    mantissa.  Signed zeros, infinities and NaN are left out: no
    operation below reaches them from finite arguments. *)
Module Float64.

Local Open Scope Q_scope.

(** [floor(log2(|x|))] for [x <> 0]. *)
Definition ilog2 (x : Q) : Z :=
  let n := Z.abs (Qnum x) in
  let d := Zpos (Qden x) in
  let p := (Z.log2 d + 1)%Z in
  (Z.log2 (n * 2 ^ p / d) - p)%Z.

(** The integer nearest to [y], the even one of two at the same
    distance. *)
Definition nearest_even (y : Q) : Z :=
  let f := Qfloor y in
  match Qcompare (y - inject_Z f) (1 # 2) with
  | Lt => f
  | Gt => (f + 1)%Z
  | Eq => if Z.even f then f else (f + 1)%Z
  end.

(** The exponent of the last of the 53 bits of [x]: subnormal numbers
    share the smallest one. *)
Definition exponent (x : Q) : Z := Z.max (ilog2 x - 52) (-1074).

(** The float nearest to [x]. *)
Definition round (x : Q) : Q :=
  if Qeq_bool x 0 then 0
  else let e := exponent x in inject_Z (nearest_even (x / 2 ^ e)) * 2 ^ e.

(** [float(z)] *)
Definition of_int (z : Z) : Q := round (inject_Z z).

(** [x + y], [x - y], [x * y] and [x / y] *)
Definition add (x y : Q) : Q := round (x + y).
Definition sub (x y : Q) : Q := round (x - y).
Definition mul (x y : Q) : Q := round (x * y).
Definition div (x y : Q) : Q := round (x / y).

(** [fmod] of C: the remainder with the sign of [x]; it is exact. *)
Definition fmod (x y : Q) : Q := x - y * inject_Z (PyNum.int (x / y)).

(** [floor] of C. *)
Definition floor (x : Q) : Q := inject_Z (Qfloor x).

(** [x < 0] *)
Definition negative (x : Q) : bool := negb (Qle_bool 0 x).

(** [vx % wx], as [float_rem] of CPython computes it: the remainder of
    [fmod], moved to the sign of the divisor. *)
Definition mod_ (vx wx : Q) : Q :=
  let m := fmod vx wx in
  if Qeq_bool m 0 then 0
  else if xorb (negative wx) (negative m) then add m wx else m.

(** [vx // wx], as [float_floor_div] of CPython computes it: the
    quotient [(vx - mod) / wx], in floating point, snapped to the
    nearest whole number. *)
Definition floordiv (vx wx : Q) : Q :=
  let m := fmod vx wx in
  let d := div (sub vx m) wx in
  let d := if negb (Qeq_bool m 0) && xorb (negative wx) (negative m)
           then sub d 1 else d in
  if Qeq_bool d 0 then 0
  else
    let f := floor d in
    if negb (Qle_bool (sub d f) (1 # 2)) then add f 1 else f.

(** The rationals that are floats: a mantissa below [2^53] times a
    power of two not below [2^-1074]. *)
Definition is_float (x : Q) : Prop :=
  exists m g : Z, (-1074 <= g)%Z /\ (Z.abs m < 2 ^ 53)%Z /\ x == inject_Z m * 2 ^ g.

End Float64.

(** ** Time stamps *)

(** The four integers computed by [format_srt_time]. *)
Record SubRipTime := SubRipTimeOf {
  hours : Z;
  minutes : Z;
  seconds : Z;
  milliseconds : Z
}.

(** [hours = int(seconds // 3600)], [minutes = int((seconds % 3600) // 60)],
    [secs = int(seconds % 60)] and [millisecs = int((seconds % 1) * 1000)],
    on the float of [secs]. *)
Definition srt_time_fields (secs : Q) : SubRipTime :=
  let seconds := Float64.round secs in
  SubRipTimeOf
    (PyNum.int (Float64.floordiv seconds 3600))
    (PyNum.int (Float64.floordiv (Float64.mod_ seconds 3600) 60))
    (PyNum.int (Float64.mod_ seconds 60))
    (PyNum.int (Float64.mul (Float64.mod_ seconds 1) 1000)).

(** [f"{hours:02d}:{minutes:02d}:{secs:02d},{millisecs:03d}"] *)
Definition render_srt_time (t : SubRipTime) : string :=
  PyNum.format_d 2 (hours t) +:+ ":" +:+ PyNum.format_d 2 (minutes t) +:+ ":"
  +:+ PyNum.format_d 2 (seconds t) +:+ "," +:+ PyNum.format_d 3 (milliseconds t).

Definition format_srt_time (secs : Q) : string :=
  render_srt_time (srt_time_fields secs).

(** The exact value of the seconds of a time stamp,
    [h * 3600 + m * 60 + s + ms / 1000]: what [parse_srt_to_line_level]
    computes, up to the rounding of its division and of its last
    addition. *)
Definition srt_seconds (t : SubRipTime) : Q :=
  inject_Z (hours t * 3600 + minutes t * 60 + seconds t)
  + inject_Z (milliseconds t) / 1000.

(** The same sum as Python evaluates it, [h * 3600 + m * 60 + s] on
    [int] and [+ ms / 1000.0] on [float]: the float that
    [parse_srt_to_line_level] holds. *)
Definition srt_seconds_float (t : SubRipTime) : Q :=
  Float64.add (Float64.of_int (hours t * 3600 + minutes t * 60 + seconds t))
              (Float64.div (Float64.of_int (milliseconds t)) 1000).

(** [seconds_to_ass_time], on the float of [secs]. *)
Definition seconds_to_ass_time (secs : Q) : string :=
  let seconds := Float64.round secs in
  let hours := PyNum.int (Float64.floordiv seconds 3600) in
  let minutes := PyNum.int (Float64.floordiv (Float64.mod_ seconds 3600) 60) in
  let secs' := PyNum.int (Float64.mod_ seconds 60) in
  let centiseconds := PyNum.int (Float64.mul (Float64.mod_ seconds 1) 100) in
  PyNum.format_d 1 hours +:+ ":" +:+ PyNum.format_d 2 minutes +:+ ":"
  +:+ PyNum.format_d 2 secs' +:+ "." +:+ PyNum.format_d 2 centiseconds.

(** ** Tier 2: the entries of a caption script *)

(** One item of [pysrt.open(...)]. *)
Record SubRipItem := SubRipItemOf {
  sub_start : SubRipTime;
  sub_end : SubRipTime;
  sub_text : string
}.

(** The body of the loop of [parse_srt_to_line_level]. *)
Definition cue_of_sub (sub : SubRipItem) : cue :=
  let start_seconds := srt_seconds (sub_start sub) in
  let end_seconds := srt_seconds (sub_end sub) in
  Cue (PyStr.replace_char PyStr.nl PyStr.sp (sub_text sub)) start_seconds end_seconds.

(** ** Tier 3: [generate_subtitles_from_text] *)

(** [range(start, stop, step)] for a positive step. *)
Definition py_range (start stop step : nat) : list nat :=
  map (fun k => start + k * step) (seq 0 ((stop - start + step - 1) / step)).

(** [l[i:j]] *)
Definition slice {A} (i j : nat) (l : list A) : list A :=
  take (j - i) (drop i l).

Definition generate_subtitles_from_text (text : string) : list cue :=
  let words := PyStr.split text in
  let subtitle_duration := 3 in
  let words_per_subtitle := 6 in
  map (fun i =>
         let start_time := (i / words_per_subtitle) * subtitle_duration in
         let end_time := start_time + subtitle_duration in
         let subtitle_text := PyStr.join " " (slice i (i + words_per_subtitle) words) in
         Cue subtitle_text (inject_Z (Z.of_nat start_time)) (inject_Z (Z.of_nat end_time)))
      (py_range 0 (length words) words_per_subtitle).

(** ** Exceptions *)

(** A raised exception: its class and [str(e)]. *)
Record exception := Raised {
  exc_class : string;
  exc_str : string
}.

Inductive outcome (A : Type) : Type :=
| Return (a : A)
| Raise (e : exception).
Arguments Return {A} a.
Arguments Raise {A} e.

#[global] Instance outcome_ret : MRet outcome := fun A a => Return a.
#[global] Instance outcome_bind : MBind outcome := fun A B f m =>
  match m with
  | Return a => f a
  | Raise e => Raise e
  end.

#[global] Instance outcome_fmap : FMap outcome := fun A B f m =>
  match m with
  | Return a => Return (f a)
  | Raise e => Raise e
  end.

(** [try: m except Exception: h] for a computation without effects. *)
Definition catch {A} (m : outcome A) (h : exception -> outcome A) : outcome A :=
  match m with
  | Return a => Return a
  | Raise e => h e
  end.

(** ** Clip descriptors *)

(** A value of the request's JSON.  A dictionary lists its keys in
    insertion order, each key once. *)
#[warnings="-register-all"]
Inductive json :=
| JNull
| JBool (b : bool)
| JInt (z : Z)
| JFloat (q : Q)
| JStr (s : string)
| JList (l : list json)
| JDict (d : list (string * json)).

Module Py.

(** Truth value: [if v]. *)
Definition truthy (v : json) : bool :=
  match v with
  | JNull => false
  | JBool b => b
  | JInt z => negb (z =? 0)%Z
  | JFloat q => negb (Qeq_bool q 0)
  | JStr s => PyStr.truthy s
  | JList l => match l with [] => false | _ => true end
  | JDict d => match d with [] => false | _ => true end
  end.

(** [type(v).__name__] *)
Definition type_name (v : json) : string :=
  match v with
  | JNull => "NoneType"
  | JBool _ => "bool"
  | JInt _ => "int"
  | JFloat _ => "float"
  | JStr _ => "str"
  | JList _ => "list"
  | JDict _ => "dict"
  end.

Fixpoint assoc (k : string) (d : list (string * json)) : option json :=
  match d with
  | [] => None
  | (k', v) :: d' => if String.eqb k' k then Some v else assoc k d'
  end.

Definition is_str (k : string) (v : json) : bool :=
  match v with
  | JStr s => String.eqb s k
  | _ => false
  end.

(** [k in v] for a string [k]: a key of a dictionary, an element of a
    list, a part of a string; a [TypeError] on anything else. *)
Definition contains (k : string) (v : json) : outcome bool :=
  match v with
  | JDict d => Return (bool_decide (is_Some (assoc k d)))
  | JList l => Return (existsb (is_str k) l)
  | JStr s => Return (PyStr.contains k s)
  | _ => Raise (Raised "TypeError"
                  ("argument of type '" +:+ type_name v +:+ "' is not iterable"))
  end.

(** [v[k]] for a string [k]. *)
Definition getitem (v : json) (k : string) : outcome json :=
  match v with
  | JDict d =>
      match assoc k d with
      | Some x => Return x
      | None => Raise (Raised "KeyError" ("'" +:+ k +:+ "'"))
      end
  | JStr _ => Raise (Raised "TypeError" "string indices must be integers")
  | JList _ => Raise (Raised "TypeError" "list indices must be integers or slices, not str")
  | _ => Raise (Raised "TypeError"
                  ("'" +:+ type_name v +:+ "' object is not subscriptable"))
  end.

End Py.

(** The [try] block of [extract_video_url]: [Some url] when it returns,
    [None] when it falls through. *)
Definition extract_from_works (output : json) : outcome (option json) :=
  works ← Py.getitem output "works";
  match works with
  | JList (work :: _) =>
      match work with
      | JDict _ =>
          has_video ← Py.contains "video" work;
          if has_video : bool then
            video_data ← Py.getitem work "video";
            clean ← Py.contains "resource_without_watermark" video_data;
            if clean : bool then
              Some <$> Py.getitem video_data "resource_without_watermark"
            else
              marked ← Py.contains "resource" video_data;
              if marked : bool then Some <$> Py.getitem video_data "resource"
              else Return None
          else Return None
      | _ => Return None
      end
  | _ => Return None
  end.

(** The last loop of [extract_video_url]: the first value that is a
    string starting with [http] and mentioning [.mp4]. *)
Fixpoint first_mp4_value (items : list (string * json)) : json :=
  match items with
  | [] => JNull
  | (_, value) :: items' =>
      match value with
      | JStr s =>
          if PyStr.startswith "http" s && PyStr.contains ".mp4" s
          then value else first_mp4_value items'
      | _ => first_mp4_value items'
      end
  end.

(** [extract_video_url]; [JNull] is Python's [None]. *)
Definition extract_video_url (video_info : json) : outcome json :=
  match video_info with
  | JDict d =>
      match Py.assoc "url" d with
      | Some url => Return url
      | None =>
          match Py.assoc "output" d with
          | Some output =>
              has_url ← Py.contains "url" output;
              if has_url : bool then Py.getitem output "url"
              else
                has_works ← Py.contains "works" output;
                found ← (if has_works : bool
                         then catch (extract_from_works output) (fun _ => Return None)
                         else Return None);
                match found with
                | Some url => Return url
                | None => Return (first_mp4_value d)
                end
          | None => Return (first_mp4_value d)
          end
      end
  | _ => Return JNull
  end.

(** [prepare_xapi_headers] *)
Definition prepare_xapi_headers (video_info : json) : list (string * json) :=
  let xapi_headers :=
    [("X-Experience-API-Version", JStr "1.0.3");
     ("X-Video-Source", JStr "piapi");
     ("X-Video-Processing", JStr "automated")] in
  match video_info with
  | JDict d =>
      let h1 := match Py.assoc "task_id" d with
                | Some v => xapi_headers ++ [("X-Video-Task-ID", v)]
                | None => xapi_headers
                end in
      match Py.assoc "model" d with
      | Some v => h1 ++ [("X-Video-Model", v)]
      | None => h1
      end
  | _ => xapi_headers
  end.

(** ** The outside world *)

(** One stream handed to [ffmpeg.output]. *)
Inductive stream :=
| Video (input : string)
    (** [ffmpeg.input(input).video] *)
| Audio (input : string)
    (** [ffmpeg.input(input).audio] *)
| Subtitles (input : string) (file : string) (force_style : option string)
    (** [ffmpeg.filter(ffmpeg.input(input).video, 'subtitles', file, ...)] *)
| Concat (inputs : list string) (v a : nat).
    (** [ffmpeg.concat] of the inputs with [n=len(inputs)], [v] and [a] *)

(** [ffmpeg.output] of the streams to [out_path] with the keyword
    arguments, then [.run(...)]. *)
Record ffmpeg_job := FfmpegJob {
  streams : list stream;
  out_path : string;
  kwargs : list (string * string)
}.

(** What the program asks of the outside, in the order it asks. *)
Inductive event :=
| EDownload (video_url : json) (output_path : string) (xapi_headers : list (string * json))
| EProbe (video_path : string)
| ERun (job : ffmpeg_job)
| EWrite (path : string) (content : string)
| EExists (path : string)
| ERemove (path : string)
| ETranscribe (audio_path : string)
| EPysrtOpen (srt_path : option string).

(** The answers.  Each one may depend on all earlier events. *)
Record world := World {
  (** [WHISPER_AVAILABLE] *)
  whisper_available : bool;
  (** [VideoDownloader.download_video]: it catches every error itself. *)
  download_video : list event -> json -> string -> list (string * json) -> bool;
  (** [ffmpeg.probe(path).get('streams', [])]: for each stream its
      ['codec_type'], when it has one. *)
  ffmpeg_probe : list event -> string -> outcome (list (option string));
  (** [.run(...)]: [None] when the engine succeeds. *)
  ffmpeg_run : list event -> ffmpeg_job -> option exception;
  (** [open(path, 'w').write(content)] *)
  write_file : list event -> string -> string -> option exception;
  (** [os.path.exists] *)
  path_exists : list event -> string -> bool;
  (** [os.remove] *)
  os_remove : list event -> string -> option exception;
  (** [WhisperModel("base").transcribe(path, word_timestamps=True)], the
      words of all segments in order. *)
  transcribe : list event -> string -> outcome (list word_timing);
  (** [pysrt.open] *)
  pysrt_open : list event -> option string -> outcome (list SubRipItem);
  (** [re.sub(pattern, repl, s)] and the same with [re.IGNORECASE]. *)
  re_sub : string -> string -> string -> string;
  re_sub_ignorecase : string -> string -> string -> string;
  (** [re.escape] *)
  re_escape : string -> string;
  (** [str(v)] of a number with a fraction, a list or a dictionary. *)
  py_repr : json -> string;
  (** [e.stderr.decode('utf8') if e.stderr else "No stderr"] for an
      exception [e] caught as [ffmpeg.Error]: the error that the
      decoding raises when the captured output of the engine is not
      UTF-8.  [None] when it decodes or is empty, and for an
      exception that is no [ffmpeg.Error]. *)
  stderr_decode : list event -> exception -> option exception
}.

(** A value stored in the task's entry of [TASKS]. *)
Inductive tval :=
| TStr (s : string)
| TInt (z : Z)
| TBool (b : bool)
| TJson (v : json).

(** The state of one [VideoProcessor]: what it has asked so far, its
    entry [TASKS[self.task_id]] and [self.progress]. *)
Record state := State {
  trace : list event;
  task : gmap string tval;
  progress : Z
}.

(** The state once the events [new] have been added. *)
Definition after (st : state) (new : list event) : state :=
  State (trace st ++ new) (task st) (progress st).

(** A computation: it ends by returning or by raising, in a new state. *)
Definition M (A : Type) : Type := state -> outcome A * state.

#[global] Instance M_ret : MRet M := fun A a st => (Return a, st).
#[global] Instance M_bind : MBind M := fun A B f m st =>
  match m st with
  | (Return a, st') => f a st'
  | (Raise e, st') => (Raise e, st')
  end.

(** [raise e] *)
Definition raise {A} (e : exception) : M A := fun st => (Raise e, st).

(** An expression that may raise. *)
Definition lift {A} (o : outcome A) : M A := fun st => (o, st).

(** [try: m except Exception as e: h e] *)
Definition try_except {A} (m : M A) (h : exception -> M A) : M A := fun st =>
  match m st with
  | (Return a, st') => (Return a, st')
  | (Raise e, st') => h e st'
  end.

(** Ask the outside: record the event, answer from the earlier ones. *)
Definition ask {A} (ev : event) (answer : list event -> A) : M A := fun st =>
  (Return (answer (trace st)), after st [ev]).

(** An answer that is an exception or nothing. *)
Definition check (r : option exception) : M unit :=
  match r with
  | None => mret tt
  | Some e => raise e
  end.

(** [TASKS[self.task_id][key] = v] *)
Definition set_task (key : string) (v : tval) : M unit := fun st =>
  (Return tt, State (trace st) (<[key := v]> (task st)) (progress st)).

(** [self.progress = p; TASKS[self.task_id]["progress"] = self.progress] *)
Definition set_progress (p : Z) : M unit := fun st =>
  (Return tt, State (trace st) (<["progress" := TInt p]> (task st)) p).

(** [for x in l: body x] *)
Fixpoint for_each {A} (l : list A) (body : A -> M unit) : M unit :=
  match l with
  | [] => mret tt
  | x :: l' => _ ← body x; for_each l' body
  end.

(** A loop that carries local variables of type [S]. *)
Fixpoint for_fold {A S} (l : list A) (body : S -> A -> M S) (s : S) : M S :=
  match l with
  | [] => mret s
  | x :: l' => s' ← body s x; for_fold l' body s'
  end.

(** ** Word highlights *)

(** A Python number that remembers whether it is an [int] or a [float]. *)
Inductive pynum :=
| PyInt (z : Z)
| PyFloat (q : Q).

Definition format_code_error : exception :=
  Raised "ValueError" "Unknown format code 'd' for object of type 'float'".

Module PyArith.

Definition to_Q (x : pynum) : Q :=
  match x with
  | PyInt z => inject_Z z
  | PyFloat q => q
  end.

(** [a / b]: always a [float]. *)
Definition truediv (a b : pynum) : pynum := PyFloat (to_Q a / to_Q b)%Q.

(** [a - b] *)
Definition sub (a b : pynum) : pynum :=
  match a, b with
  | PyInt x, PyInt y => PyInt (x - y)
  | _, _ => PyFloat (to_Q a - to_Q b)%Q
  end.

(** [a * b] *)
Definition mul (a b : pynum) : pynum :=
  match a, b with
  | PyInt x, PyInt y => PyInt (x * y)
  | _, _ => PyFloat (to_Q a * to_Q b)%Q
  end.

(** [f"{x:+d}"]: the format code [d] is for integers only. *)
Definition format_plus_d (x : pynum) : outcome string :=
  match x with
  | PyInt z =>
      Return ((if (z <? 0)%Z then "-" else "+") +:+ PyNum.digits (Z.abs_N z))
  | PyFloat _ => Raise format_code_error
  end.

End PyArith.

(** [create_word_highlight_effect] *)
Definition create_word_highlight_effect (word : string) (word_index total_words : nat)
    : outcome string :=
  let x_offset :=
    PyArith.mul
      (PyArith.sub (PyInt (Z.of_nat word_index))
                   (PyArith.truediv (PyInt (Z.of_nat total_words)) (PyInt 2)))
      (PyInt 40) in
  offset ← PyArith.format_plus_d x_offset;
  Return ("{\pos(960" +:+ offset +:+ ",540)\c&H0000FFFF&\t(\c&H00FFFFFF&)}" +:+ word).

(** [word.lower() in [w.lower() for w in words_in_line]] *)
Definition matches_token (word : string) (words_in_line : list string) : bool :=
  existsb (String.eqb (PyStr.lower word)) (map PyStr.lower words_in_line).

(** [next((i for i, w in enumerate(words_in_line) if w.lower() == word.lower()), 0)] *)
Fixpoint first_match_from (i : nat) (word : string) (words_in_line : list string) : option nat :=
  match words_in_line with
  | [] => None
  | w :: rest =>
      if String.eqb (PyStr.lower w) (PyStr.lower word) then Some i
      else first_match_from (S i) word rest
  end.

Definition first_match (word : string) (words_in_line : list string) : nat :=
  default 0 (first_match_from 0 word words_in_line).

(** [line['start'] <= word_info['start'] <= line['end']] *)
Definition in_window (line : cue) (word_info : word_timing) : bool :=
  Qle_bool (c_start line) (w_start word_info)
  && Qle_bool (w_start word_info) (c_end line).

(** The highlight line built for one word. *)
Definition highlight_entry (line : cue) (word_info : word_timing) : outcome string :=
  let words_in_line := PyStr.split (c_text line) in
  let word := PyStr.strip (w_word word_info) in
  let start_time := seconds_to_ass_time (w_start word_info) in
  let end_time := seconds_to_ass_time (w_end word_info) in
  let word_index := first_match word words_in_line in
  highlight_text ← create_word_highlight_effect word word_index (length words_in_line);
  Return ("Dialogue: 1," +:+ start_time +:+ "," +:+ end_time
          +:+ ",Highlight,,0,0,0,," +:+ highlight_text +:+ String PyStr.nl "").

(** The loop of [add_word_highlights]; it carries the function's own
    variable [ass_content]. *)
Fixpoint add_word_highlights_loop (ass_content : string) (line : cue)
    (word_level_info : list word_timing) : outcome string :=
  match word_level_info with
  | [] => Return ass_content
  | word_info :: rest =>
      let words_in_line := PyStr.split (c_text line) in
      let word := PyStr.strip (w_word word_info) in
      if in_window line word_info && matches_token word words_in_line
      then entry ← highlight_entry line word_info;
           add_word_highlights_loop (ass_content +:+ entry) line rest
      else add_word_highlights_loop ass_content line rest
  end.

(** [add_word_highlights]: [ass_content += ...] rebinds the parameter,
    a Python string is never changed in place, and the function has no
    [return]: the caller gets nothing back. *)
Definition add_word_highlights (ass_content : string) (line : cue)
    (word_level_info : list word_timing) : outcome unit :=
  _ ← add_word_highlights_loop ass_content line word_level_info;
  Return tt.

(** ** The subtitle definitions *)

Definition ass_header : string :=
"[Script Info]
Title: Scrolling Subtitles
ScriptType: v4.00+

[V4+ Styles]
Format: Name, Fontname, Fontsize, PrimaryColour, SecondaryColour, OutlineColour, BackColour, Bold, Italic, Underline, StrikeOut, ScaleX, ScaleY, Spacing, Angle, BorderStyle, Outline, Shadow, Alignment, MarginL, MarginR, MarginV, Encoding
Style: Default,Arial,32,&H00FFFFFF,&H000000FF,&H00000000,&H80000000,1,0,0,0,100,100,0,0,1,2,3,2,30,30,50,1
Style: Highlight,Arial,32,&H0000FFFF,&H000000FF,&H00000000,&H80000000,1,0,0,0,100,100,0,0,1,2,3,2,30,30,50,1

[Events]
Format: Layer, Start, End, Style, Name, MarginL, MarginR, MarginV, Effect, Text
".

(** The full-line entry of a cue. *)
Definition dialogue_entry (line : cue) : string :=
  let start_time := seconds_to_ass_time (c_start line) in
  let end_time := seconds_to_ass_time (c_end line) in
  "Dialogue: 0," +:+ start_time +:+ "," +:+ end_time +:+ ",Default,,0,0,0,,"
  +:+ c_text line +:+ String PyStr.nl "".

(** Truth value of a list that may be [None]. *)
Definition truthy_list {A} (o : option (list A)) : bool :=
  match o with
  | Some (_ :: _) => true
  | _ => false
  end.

Definition some_list {A} (o : option (list A)) : list A := default [] o.

(** The loop of [create_ass_subtitles] over the cues. *)
Fixpoint ass_events (ass_content : string) (word_level_info : option (list word_timing))
    (lines : list cue) : outcome string :=
  match lines with
  | [] => Return ass_content
  | line :: rest =>
      let ass_content := ass_content +:+ dialogue_entry line in
      _ ← (if truthy_list word_level_info
           then add_word_highlights ass_content line (some_list word_level_info)
           else Return tt);
      ass_events ass_content word_level_info rest
  end.

(** The text that [create_ass_subtitles] is about to write. *)
Definition ass_document (word_level_info : option (list word_timing))
    (line_level_subtitles : option (list cue)) : outcome string :=
  if truthy_list line_level_subtitles
  then ass_events ass_header word_level_info (some_list line_level_subtitles)
  else Return ass_header.

(** The loop of [create_simple_srt]: [enumerate(..., 1)]. *)
Fixpoint srt_entries (i : nat) (lines : list cue) : string :=
  match lines with
  | [] => ""
  | line :: rest =>
      PyNum.str_nat i +:+ String PyStr.nl ""
      +:+ format_srt_time (c_start line) +:+ " --> " +:+ format_srt_time (c_end line)
      +:+ String PyStr.nl ""
      +:+ c_text line +:+ String PyStr.nl (String PyStr.nl "")
      +:+ srt_entries (S i) rest
  end.

Definition srt_document (line_level_subtitles : list cue) : string :=
  srt_entries 1 line_level_subtitles.

(** ** The pipeline of one [VideoProcessor] *)

Definition TEMP_DIR : string := "temp_files".
Definition OUTPUT_DIR : string := "output_videos".

(** [os.path.join(dir, name)] *)
Definition path_join (dir name : string) : string := dir +:+ "/" +:+ name.

Section Pipeline.

Context (w : world).
(** [self.task_id], [self.video_data] and [self.subtitles_content]: the
    text under [srt] in the request, [None] without it. *)
Context (task_id : string) (video_data : list json) (subtitles_content : option string).

(** [.run(overwrite_output=True, ...)] of a job. *)
Definition run (job : ffmpeg_job) : M unit :=
  r ← ask (ERun job) (fun h => ffmpeg_run w h job);
  check r.

(** [with open(path, 'w', encoding='utf-8') as f: f.write(content)] *)
Definition write (path content : string) : M unit :=
  r ← ask (EWrite path content) (fun h => write_file w h path content);
  check r.

(** *** Audio *)

(** [any(stream['codec_type'] == 'audio' for stream in streams)] *)
Fixpoint any_audio (probe_streams : list (option string)) : outcome bool :=
  match probe_streams with
  | [] => Return false
  | None :: _ => Raise (Raised "KeyError" "'codec_type'")
  | Some codec_type :: rest =>
      if String.eqb codec_type "audio" then Return true else any_audio rest
  end.

Definition check_audio_exists (video_path : string) : M bool :=
  try_except
    (probe ← ask (EProbe video_path) (fun h => ffmpeg_probe w h video_path);
     probe_streams ← lift probe;
     lift (any_audio probe_streams))
    (fun _ => mret false).

(** *** Caption resolution *)

Definition extract_word_timestamps (video_path : string) : M (option (list word_timing)) :=
  try_except
    (if negb (whisper_available w) then mret None
     else
       let audio_path := path_join TEMP_DIR ("audio_" +:+ task_id +:+ ".wav") in
       _ ← run (FfmpegJob [Audio video_path] audio_path []);
       words ← ask (ETranscribe audio_path) (fun h => transcribe w h audio_path);
       words ← lift words;
       let word_level_info :=
         map (fun word => WordTiming (PyStr.strip (w_word word)) (w_start word) (w_end word))
             words in
       there ← ask (EExists audio_path) (fun h => path_exists w h audio_path);
       _ ← (if there : bool
            then r ← ask (ERemove audio_path) (fun h => os_remove w h audio_path); check r
            else mret tt);
       mret (Some word_level_info))
    (fun _ => mret None).

Definition save_subtitles_from_webhook (content : string) : M (option string) :=
  try_except
    (let srt_path := path_join TEMP_DIR ("webhook_subtitles_" +:+ task_id +:+ ".srt") in
     _ ← write srt_path content;
     mret (Some srt_path))
    (fun _ => mret None).

Definition parse_srt_to_line_level (srt_path : option string) : M (option (list cue)) :=
  try_except
    (subs ← ask (EPysrtOpen srt_path) (fun h => pysrt_open w h srt_path);
     subs ← lift subs;
     mret (Some (map cue_of_sub subs)))
    (fun _ => mret None).

(** [str(v)]; for a string it is the string itself. *)
Definition str_of (v : json) : string :=
  match v with
  | JStr s => s
  | JNull => "None"
  | JBool true => "True"
  | JBool false => "False"
  | JInt z => (if (z <? 0)%Z then "-" else "") +:+ PyNum.digits (Z.abs_N z)
  | _ => py_repr w v
  end.

Definition tech_terms : list string :=
  ["POV"; "GoPro"; "MacBook"; "LinkedIn"; "TikTok"; "iPhone camera"].

Definition clean_text_for_speech (text_input : json) : string :=
  if negb (Py.truthy text_input) then ""
  else
    let processed_text := str_of text_input in
    let processed_text := re_sub w "https?://\S+" "" processed_text in
    let processed_text :=
      fold_left (fun processed_text term =>
                   re_sub_ignorecase w ("\b" +:+ re_escape w term +:+ "\b") "" processed_text)
                tech_terms processed_text in
    let processed_text := re_sub_ignorecase w "realistic and casual.*" "" processed_text in
    let processed_text :=
      re_sub_ignorecase w "first person view.*?shot of" "Видео показывает" processed_text in
    let processed_text := PyStr.strip processed_text in
    let processed_text := re_sub w "\s+" " " processed_text in
    PyStr.take 500 processed_text.

(** [video_info.get(key, '')] *)
Definition get_or_empty (d : list (string * json)) (key : string) : json :=
  default (JStr "") (Py.assoc key d).

(** The value of [current_raw_text] for one descriptor. *)
Definition current_raw_text (video_info : json) : json :=
  match video_info with
  | JDict d =>
      let description := get_or_empty d "description" in
      let title := get_or_empty d "title" in
      if Py.truthy description && Py.truthy title
      then JStr (str_of title +:+ ". " +:+ str_of description)
      else if Py.truthy description then description
      else if Py.truthy title then title
      else JStr ""
  | JStr s => JStr s
  | _ => JStr ""
  end.

(** What one descriptor appends to [full_text_parts]. *)
Definition text_parts_of (video_info : json) : list string :=
  let raw := current_raw_text video_info in
  if Py.truthy raw then
    let cleaned_text := clean_text_for_speech raw in
    if PyStr.truthy cleaned_text then [cleaned_text] else []
  else [].

Definition full_text_parts (descriptors : list json) : list string :=
  concat (map text_parts_of descriptors).

Definition extract_text_from_videos : string :=
  PyStr.join (String PyStr.nl (String PyStr.nl "")) (full_text_parts video_data).

(** *** Caption rendering *)

Definition create_ass_subtitles (word_level_info : option (list word_timing))
    (line_level_subtitles : option (list cue)) : M (option string) :=
  try_except
    (let ass_path := path_join TEMP_DIR ("subtitles_" +:+ task_id +:+ ".ass") in
     ass_content ← lift (ass_document word_level_info line_level_subtitles);
     _ ← write ass_path ass_content;
     mret (Some ass_path))
    (fun _ => mret None).

Definition create_simple_srt (line_level_subtitles : list cue) : M (option string) :=
  try_except
    (let srt_path := path_join TEMP_DIR ("simple_subtitles_" +:+ task_id +:+ ".srt") in
     _ ← write srt_path (srt_document line_level_subtitles);
     mret (Some srt_path))
    (fun _ => mret None).

(** The streams and keyword arguments of a copy without subtitles. *)
Definition copy_job (video_path output_path : string) (has_audio : bool) : ffmpeg_job :=
  FfmpegJob
    ([Video video_path] ++ (if has_audio then [Audio video_path] else []))
    output_path
    ([("vcodec", "copy")] ++ (if has_audio then [("acodec", "copy")] else [])).

Definition copy_video_without_subtitles (video_path output_path : string)
    (has_audio : bool) : M unit :=
  run (copy_job video_path output_path has_audio).

(** The burn-in of the animated definition. *)
Definition ass_job (video_path ass_path output_path : string) (has_audio : bool)
    : ffmpeg_job :=
  FfmpegJob
    ([Subtitles video_path ass_path None] ++ (if has_audio then [Audio video_path] else []))
    output_path
    ([("vcodec", "libx264"); ("preset", "medium"); ("crf", "23"); ("pix_fmt", "yuv420p")]
     ++ (if has_audio then [("acodec", "aac"); ("audio_bitrate", "128k")] else [])).

Definition force_style : string :=
  "FontName=Arial,FontSize=28,PrimaryColour=&H00FFFFFF,BackColour=&H80000000,BorderStyle=1,Outline=2".

(** The burn-in of the plain file. *)
Definition srt_job (video_path srt_path output_path : string) (has_audio : bool)
    : ffmpeg_job :=
  FfmpegJob
    ([Subtitles video_path srt_path (Some force_style)]
     ++ (if has_audio then [Audio video_path] else []))
    output_path
    ([("vcodec", "libx264"); ("preset", "fast"); ("crf", "23")]
     ++ (if has_audio then [("acodec", "aac")] else [])).

Definition fallback_output_path : string :=
  path_join OUTPUT_DIR ("final_fallback_" +:+ task_id +:+ ".mp4").

Definition final_output_path : string :=
  path_join OUTPUT_DIR ("final_scrolling_subtitles_" +:+ task_id +:+ ".mp4").

Definition critical (e : exception) : exception :=
  Raised "Exception" ("Критическая ошибка: невозможно создать видео: " +:+ exc_str e).

Definition create_fallback_video (video_path : string)
    (line_level_subtitles : option (list cue)) (has_audio : bool) : M string :=
  try_except
    (_ ← (if truthy_list line_level_subtitles then
            srt_path ← create_simple_srt (some_list line_level_subtitles);
            match srt_path with
            | Some srt_path =>
                run (srt_job video_path srt_path fallback_output_path has_audio)
            | None =>
                copy_video_without_subtitles video_path fallback_output_path has_audio
            end
          else
            copy_video_without_subtitles video_path fallback_output_path has_audio);
     mret fallback_output_path)
    (fun e => raise (critical e)).

(** The first statement of the handler [except ffmpeg.Error as e]: the
    decoding of [e.stderr].  When it raises, the handler is left with
    that error, which no other handler of the renderer catches.  The
    handler [except Exception] decodes nothing. *)
Definition decode_stderr (e : exception) : M unit :=
  fun st =>
    (match stderr_decode w (trace st) e with
     | Some undecodable => Raise undecodable
     | None => Return tt
     end, st).

Definition create_scrolling_subtitles_video (video_path : string)
    (word_level_info : option (list word_timing))
    (line_level_subtitles : option (list cue)) (has_audio : bool) : M string :=
  try_except
    (ass_path ← create_ass_subtitles word_level_info line_level_subtitles;
     _ ← match ass_path with
         | Some ass_path =>
             there ← ask (EExists ass_path) (fun h => path_exists w h ass_path);
             if there : bool
             then run (ass_job video_path ass_path final_output_path has_audio)
             else run (copy_job video_path final_output_path has_audio)
         | None => run (copy_job video_path final_output_path has_audio)
         end;
     mret final_output_path)
    (fun e =>
       _ ← decode_stderr e;
       create_fallback_video video_path line_level_subtitles has_audio).

(** *** Clip acquisition and assembly *)

Definition combined_path : string :=
  path_join TEMP_DIR ("combined_" +:+ task_id +:+ ".mp4").

(** The local variables of the loop over several files. *)
Record combine_vars := CombineVars {
  inputs : list string;
  any_input_has_audio : bool
}.

Definition combine_downloaded_videos (video_files : list string) : M (option string) :=
  match video_files with
  | [] => mret None
  | [video_file] =>
      has_audio ← check_audio_exists video_file;
      _ ← run (FfmpegJob
                 ([Video video_file] ++ (if has_audio : bool then [Audio video_file] else []))
                 combined_path
                 ([("vcodec", "libx264"); ("preset", "fast")]
                  ++ (if has_audio then [("acodec", "aac")] else [])));
      mret (Some combined_path)
  | _ =>
      vars ← for_fold video_files
               (fun vars video_file =>
                  there ← ask (EExists video_file) (fun h => path_exists w h video_file);
                  if there : bool then
                    audio ← (if any_input_has_audio vars then mret true
                             else check_audio_exists video_file);
                    mret (CombineVars (inputs vars ++ [video_file]) audio)
                  else mret vars)
               (CombineVars [] false);
      match inputs vars with
      | [] => mret None
      | _ =>
          let a := if any_input_has_audio vars then 1 else 0 in
          _ ← run (FfmpegJob
                     [Concat (inputs vars) 1 a]
                     combined_path
                     ([("vcodec", "libx264"); ("preset", "fast")]
                      ++ (if any_input_has_audio vars then [("acodec", "aac")] else [])));
          mret (Some combined_path)
      end
  end.

(** The body of the loop of [download_and_combine_videos] for the
    descriptor at index [i]. *)
Definition download_one (downloaded_files : list string) (entry : nat * json)
    : M (list string) :=
  let '(i, video_info) := entry in
  video_url ← lift (extract_video_url video_info);
  if negb (Py.truthy video_url) then mret downloaded_files
  else
    let filename := "video_part_" +:+ PyNum.str_nat i +:+ "_" +:+ task_id +:+ ".mp4" in
    let local_path := path_join TEMP_DIR filename in
    let xapi_headers := prepare_xapi_headers video_info in
    ok ← ask (EDownload video_url local_path xapi_headers)
             (fun h => download_video w h video_url local_path xapi_headers);
    if ok : bool then mret (downloaded_files ++ [local_path])
    else mret downloaded_files.

(** [enumerate(l)] *)
Definition enumerate {A} (l : list A) : list (nat * A) :=
  zip (seq 0 (length l)) l.

Definition no_video : exception :=
  Raised "Exception" "Не удалось загрузить ни одного видео".

Definition download_and_combine_videos : M (option string) :=
  downloaded_files ← for_fold (enumerate video_data) download_one [];
  match downloaded_files with
  | [] => raise no_video
  | _ => combine_downloaded_videos downloaded_files
  end.

(** *** The orchestrator *)

(** Tier 1. *)
Definition speech_tier (combined_video_path : string) (has_audio : bool)
    : M (option (list word_timing) * option (list cue)) :=
  if has_audio && whisper_available w then
    word_level_info ← extract_word_timestamps combined_video_path;
    if truthy_list word_level_info
    then mret (word_level_info,
               Some (convert_to_line_level (some_list word_level_info)))
    else mret (word_level_info, None)
  else mret (None, None).

(** Tier 2. *)
Definition script_tier (word_level_info : option (list word_timing))
    (line_level_subtitles : option (list cue)) : M (option (list cue)) :=
  match subtitles_content with
  | Some content =>
      if negb (truthy_list word_level_info) && PyStr.truthy content then
        subtitles_path ← save_subtitles_from_webhook content;
        parse_srt_to_line_level subtitles_path
      else mret line_level_subtitles
  | None => mret line_level_subtitles
  end.

(** Tier 3. *)
Definition text_tier (line_level_subtitles : option (list cue)) : option (list cue) :=
  if negb (truthy_list line_level_subtitles) then
    let full_text := extract_text_from_videos in
    if PyStr.truthy full_text then Some (generate_subtitles_from_text full_text)
    else line_level_subtitles
  else line_level_subtitles.

Definition process_videos : M unit :=
  try_except
    (_ ← set_task "status" (TStr "processing");
     _ ← set_progress 0;
     combined_video_path ← download_and_combine_videos;
     match combined_video_path with
     | None =>
         _ ← set_task "status" (TStr "error");
         set_task "error" (TStr "Failed to download and combine videos.")
     | Some combined_video_path =>
         _ ← set_progress 20;
         has_audio ← check_audio_exists combined_video_path;
         '(word_level_info, line_level_subtitles) ← speech_tier combined_video_path has_audio;
         line_level_subtitles ← script_tier word_level_info line_level_subtitles;
         let line_level_subtitles := text_tier line_level_subtitles in
         _ ← set_progress 70;
         final_video_path ← create_scrolling_subtitles_video
                              combined_video_path word_level_info
                              line_level_subtitles has_audio;
         if negb (PyStr.truthy final_video_path) then
           _ ← set_task "status" (TStr "error");
           set_task "error" (TStr "Failed to create final video with scrolling subtitles.")
         else
           _ ← set_progress 100;
           _ ← set_task "status" (TStr "completed");
           set_task "output_file" (TStr final_video_path)
     end)
    (fun e =>
       _ ← set_task "status" (TStr "error");
       set_task "error" (TStr (exc_str e))).

End Pipeline.

(** The entry of [TASKS] that the intake creates before the processor
    starts. *)
Definition initial_task (video_list : list json) (has_custom_subtitles : bool)
    (created_at : string) : gmap string tval :=
  <["status" := TStr "initiated"]>
  (<["progress" := TInt 0]>
  (<["created_at" := TStr created_at]>
  (<["video_data" := TJson (JList video_list)]>
  (<["video_count" := TInt (Z.of_nat (length video_list))]>
  (<["has_custom_subtitles" := TBool has_custom_subtitles]> ∅))))).

(** [VideoProcessor.__init__]: [self.progress = 0], nothing asked yet. *)
Definition initial_state (task0 : gmap string tval) : state := State [] task0 0.

(** ** Reference definitions and sample worlds *)

(** The consecutive groups of [n] elements of a list, the last one
    possibly shorter: the grouping that the text fallback is compared
    with. *)
Fixpoint groups_go {A} (fuel n : nat) (l : list A) : list (list A) :=
  match fuel with
  | O => []
  | S fuel' =>
      match l with
      | [] => []
      | _ => take n l :: groups_go fuel' n (drop n l)
      end
  end.

Definition groups_of {A} (n : nat) (l : list A) : list (list A) :=
  groups_go (length l) n l.

(** Reading a time stamp [H:M:S,m] back into its four decimal fields:
    the inverse that the round trip of [format_srt_time] is stated
    with. *)
Module Reader.

Definition is_digit (c : ascii) : bool :=
  let n := nat_of_ascii c in (48 <=? n) && (n <=? 57).

Fixpoint digits_only (s : string) : bool :=
  match s with
  | EmptyString => true
  | String c s' => is_digit c && digits_only s'
  end.

(** A non-empty run of decimal digits. *)
Definition read_digits (s : string) : option Z :=
  match NilZero.uint_of_string s with
  | Some d => Some (Z.of_N (N.of_uint d))
  | None => None
  end.

(** The text before the first [sep] and the text after it. *)
Fixpoint split_once (sep : ascii) (s : string) : option (string * string) :=
  match s with
  | EmptyString => None
  | String c s' =>
      if Ascii.eqb c sep then Some (EmptyString, s')
      else match split_once sep s' with
           | Some (a, b) => Some (String c a, b)
           | None => None
           end
  end.

Definition read_srt_time (s : string) : option SubRipTime :=
  match split_once ":" s with
  | Some (h, rest) =>
      match split_once ":" rest with
      | Some (m, rest) =>
          match split_once "," rest with
          | Some (sec, ms) =>
              match read_digits h, read_digits m, read_digits sec, read_digits ms with
              | Some h, Some m, Some sec, Some ms => Some (SubRipTimeOf h m sec ms)
              | _, _, _, _ => None
              end
          | None => None
          end
      | None => None
      end
  | None => None
  end.

(** The lines of a text. *)
Fixpoint lines_go (cur : string) (s : string) : list string :=
  match s with
  | EmptyString => [cur]
  | String c s' =>
      if Ascii.eqb c PyStr.nl then cur :: lines_go "" s'
      else lines_go (cur +:+ String c "") s'
  end.

Definition lines (s : string) : list string := lines_go "" s.

(** The runs of non-empty lines. *)
Fixpoint blocks_go (cur : list string) (ls : list string) : list (list string) :=
  match ls with
  | [] => match cur with [] => [] | _ => [cur] end
  | l :: ls' =>
      if String.eqb l ""
      then match cur with [] => blocks_go [] ls' | _ => cur :: blocks_go [] ls' end
      else blocks_go (cur ++ [l]) ls'
  end.

(** The line [start --> end]. *)
Definition read_times (l : string) : option (SubRipTime * SubRipTime) :=
  match split_once " " l with
  | Some (a, rest) =>
      if String.prefix "--> " rest then
        match read_srt_time a, read_srt_time (String.substring 4 (String.length rest - 4) rest) with
        | Some a, Some b => Some (a, b)
        | _, _ => None
        end
      else None
  | None => None
  end.

(** One entry: its number, its two time stamps, its lines of text. *)
Definition read_entry (block : list string) : option SubRipItem :=
  match block with
  | _ :: times :: text_lines =>
      match read_times times with
      | Some (a, b) => Some (SubRipItemOf a b (PyStr.join (String PyStr.nl "") text_lines))
      | None => None
      end
  | _ => None
  end.

(** The entries of a caption script. *)
Definition read_script (s : string) : option (list SubRipItem) :=
  mapM read_entry (blocks_go [] (lines s)).

End Reader.

(** The caption script of Scenario A. *)
Definition scenario_a_script : string :=
"1
00:00:00,000 --> 00:00:03,000
Hello world

2
00:00:03,000 --> 00:00:06,000
Second line".

(** Its two entries. *)
Definition scenario_a_entries : list SubRipItem :=
  [SubRipItemOf (SubRipTimeOf 0 0 0 0) (SubRipTimeOf 0 0 3 0) "Hello world";
   SubRipItemOf (SubRipTimeOf 0 0 3 0) (SubRipTimeOf 0 0 6 0) "Second line"].

Module Worlds.

Definition engine_error : exception :=
  Raised "Error" "ffmpeg error (see stderr output for detailed error information)".

(** A world that answers the same at all times: every download gives
    [downloads], every probe [probe], every run of the engine [runs];
    files are written and found, [pysrt.open] reads [entries], nothing
    is heard, the text functions leave their input as it is, and the
    error output of the engine decodes. *)
Definition make (downloads : bool) (probe : outcome (list (option string)))
    (runs : option exception) (entries : list SubRipItem) : world :=
  {| whisper_available := false;
     download_video := fun _ _ _ _ => downloads;
     ffmpeg_probe := fun _ _ => probe;
     ffmpeg_run := fun _ _ => runs;
     write_file := fun _ _ _ => None;
     path_exists := fun _ _ => true;
     os_remove := fun _ _ => None;
     transcribe := fun _ _ => Return [];
     pysrt_open := fun _ _ => Return entries;
     re_sub := fun _ _ s => s;
     re_sub_ignorecase := fun _ _ s => s;
     re_escape := fun s => s;
     py_repr := fun _ => "";
     stderr_decode := fun _ _ => None |}.

(** Everything succeeds; a probed file has one video stream. *)
Definition calm (entries : list SubRipItem) : world :=
  make true (Return [Some "video"]) None entries.

(** Every run of the transcoding engine fails. *)
Definition engine_down : world :=
  make true (Return [Some "video"]) (Some engine_error) [].

(** No download succeeds. *)
Definition offline : world :=
  make false (Return [Some "video"]) None [].


(** The last text written to [path]. *)
Fixpoint written (path : string) (h : list event) : option string :=
  match h with
  | [] => None
  | ev :: h' =>
      match written path h' with
      | Some content => Some content
      | None =>
          match ev with
          | EWrite p content => if String.eqb p path then Some content else None
          | _ => None
          end
      end
  end.

(** As [calm] without entries, but every run of the engine towards the
    primary output fails. *)
Definition primary_down : world :=
  {| whisper_available := false;
     download_video := fun _ _ _ _ => true;
     ffmpeg_probe := fun _ _ => Return [Some "video"];
     ffmpeg_run := fun _ job =>
       if String.prefix "output_videos/final_scrolling_subtitles_" (out_path job)
       then Some engine_error else None;
     write_file := fun _ _ _ => None;
     path_exists := fun _ _ => true;
     os_remove := fun _ _ => None;
     transcribe := fun _ _ => Return [];
     pysrt_open := fun _ _ => Return [];
     re_sub := fun _ _ s => s;
     re_sub_ignorecase := fun _ _ s => s;
     re_escape := fun s => s;
     py_repr := fun _ => "";
     stderr_decode := fun _ _ => None |}.

Definition unreadable : exception := Raised "Error" "cannot read the caption script".

(** As [calm], but [pysrt.open] reads the entries of the file that
    was written before. *)
Definition filing : world :=
  {| whisper_available := false;
     download_video := fun _ _ _ _ => true;
     ffmpeg_probe := fun _ _ => Return [Some "video"];
     ffmpeg_run := fun _ _ => None;
     write_file := fun _ _ _ => None;
     path_exists := fun _ _ => true;
     os_remove := fun _ _ => None;
     transcribe := fun _ _ => Return [];
     pysrt_open := fun h srt_path =>
       match srt_path with
       | Some p =>
           match written p h with
           | Some content =>
               match Reader.read_script content with
               | Some entries => Return entries
               | None => Raise unreadable
               end
           | None => Raise unreadable
           end
       | None => Raise unreadable
       end;
     re_sub := fun _ _ s => s;
     re_sub_ignorecase := fun _ _ s => s;
     re_escape := fun s => s;
     py_repr := fun _ => "";
     stderr_decode := fun _ _ => None |}.

(** Everything succeeds, every probed file has sound, and the speech
    engine hears [words]. *)
Definition speaking (words : list word_timing) : world :=
  {| whisper_available := true;
     download_video := fun _ _ _ _ => true;
     ffmpeg_probe := fun _ _ => Return [Some "video"; Some "audio"];
     ffmpeg_run := fun _ _ => None;
     write_file := fun _ _ _ => None;
     path_exists := fun _ _ => true;
     os_remove := fun _ _ => None;
     transcribe := fun _ _ => Return words;
     pysrt_open := fun _ _ => Return [];
     re_sub := fun _ _ s => s;
     re_sub_ignorecase := fun _ _ s => s;
     re_escape := fun s => s;
     py_repr := fun _ => "";
     stderr_decode := fun _ _ => None |}.

End Worlds.

(** ** Properties of events *)

Definition is_download (ev : event) : Prop :=
  match ev with
  | EDownload _ _ _ => True
  | _ => False
  end.

(** A stream that holds sound. *)
Definition audio_stream (s : stream) : bool :=
  match s with
  | Audio _ => true
  | Concat _ _ a => 0 <? a
  | _ => false
  end.


(** A job that burns subtitles in. *)
Definition burns_subtitles (job : ffmpeg_job) : bool :=
  existsb (fun s => match s with Subtitles _ _ _ => true | _ => false end) (streams job).



(** ** Invariants used in the proofs *)

(** A saved line respects the budget of [m] characters, or is one
    word of [seen] alone. *)
Definition text_ok (m : nat) (seen : list word_timing) (t : string) : Prop :=
  String.length t <= m \/
  exists word_info, word_info ∈ seen /\ t = PyStr.strip (w_word word_info).

(** The line under construction: empty, or some text followed by the
    separating space. *)
Definition line_ok (m : nat) (seen : list word_timing) (s : string) : Prop :=
  s = "" \/ exists x, s = x +:+ " " /\ text_ok m seen x.

Definition packer_ok (m : nat) (seen : list word_timing) (p : packer) : Prop :=
  Forall (fun c => text_ok m seen (c_text c)) (line_level_subtitles p)
  /\ line_ok m seen (current_line p).

(** Every word of [seen] longer than [m] has been saved as a cue of its
    own, or is the line under construction. *)
Definition long_words_kept (m : nat) (seen : list word_timing) (p : packer) : Prop :=
  forall word_info,
    word_info ∈ seen ->
    m < String.length (PyStr.strip (w_word word_info)) ->
    (exists c, c ∈ line_level_subtitles p /\ c_text c = PyStr.strip (w_word word_info))
    \/ current_line p = PyStr.strip (w_word word_info) +:+ " ".


(** ** Properties used in the further proofs *)

(** The text of a word as the packer sees it. *)
Definition token (word_info : word_timing) : string := PyStr.strip (w_word word_info).

(** A non-empty text without a blank at either end. *)
Definition trimmed (s : string) : Prop :=
  PyStr.lstrip s = s /\ PyStr.rstrip s = s /\ s <> "".

(** The cue [c] shows the words [g]: their tokens joined by single
    spaces, from the start of the first to the end of the last. *)
Definition cue_of_group (g : list word_timing) (c : cue) : Prop :=
  exists first final,
    head g = Some first /\ last g = Some final
    /\ c_text c = PyStr.join " " (map token g)
    /\ c_start c = w_start first /\ c_end c = w_end final.

(** The line under construction holds the words [g]. *)
Definition group_line (g : list word_timing) (cur : string) (ls le : option Q) : Prop :=
  (g = [] /\ cur = "")
  \/ exists first final,
       head g = Some first /\ last g = Some final
       /\ cur = PyStr.join " " (map token g) +:+ " "
       /\ ls = Some (w_start first) /\ le = Some (w_end final).

(** The packer after the words [seen]: the saved cues show the groups
    [gs], the line under construction holds the group [g]. *)
Definition packing (seen : list word_timing) (p : packer) : Prop :=
  exists gs g,
    seen = concat gs ++ g
    /\ Forall2 cue_of_group gs (line_level_subtitles p)
    /\ group_line g (current_line p) (line_start p) (line_end p)
    /\ (g = [] -> line_start p = None).

(** A text without any blank character. *)
Fixpoint blank_free (s : string) : bool :=
  match s with
  | EmptyString => true
  | String c s' => negb (PyStr.isspace c) && blank_free s'
  end.

(** A word as [split] gives it: not empty and without blanks. *)
Definition plain_word (s : string) : Prop := s <> "" /\ blank_free s = true.

(** Reading a time [H:MM:SS.cc] of a subtitle definition back into
    hours, minutes, seconds and hundredths. *)
Definition read_ass_time (s : string) : option (Z * Z * Z * Z) :=
  match Reader.split_once ":" s with
  | Some (h, rest) =>
      match Reader.split_once ":" rest with
      | Some (m, rest) =>
          match Reader.split_once "." rest with
          | Some (sec, cs) =>
              match Reader.read_digits h, Reader.read_digits m,
                    Reader.read_digits sec, Reader.read_digits cs with
              | Some h, Some m, Some sec, Some cs => Some (h, m, sec, cs)
              | _, _, _, _ => None
              end
          | None => None
          end
      | None => None
      end
  | None => None
  end.

(** ** A small program logic *)

(** The computation [m] takes every state [st] to a state related to it
    by [R]; what it returns satisfies [Q], what it raises satisfies [E]. *)
Definition has_post (R : state -> state -> Prop) {A} (Q : A -> Prop)
    (E : exception -> Prop) (m : M A) : Prop :=
  forall st,
    R st (m st).2
    /\ match (m st).1 with
       | Return a => Q a
       | Raise e => E e
       end.

(** The registry and the progress are untouched, and the events added
    all satisfy [P]. *)
Definition touches (P : event -> Prop) (st st' : state) : Prop :=
  task st' = task st /\ progress st' = progress st
  /\ exists new, trace st' = trace st ++ new /\ Forall P new.

(** A file of the task: in one of the two directories, with the
    task's identifier in its name. *)
Definition task_file (task_id : string) (path : string) : Prop :=
  exists stem ext,
    path = path_join TEMP_DIR (stem +:+ task_id +:+ ext)
    \/ path = path_join OUTPUT_DIR (stem +:+ task_id +:+ ext).

(** The files that a stream reads. *)
Definition stream_paths (s : stream) : list string :=
  match s with
  | Video input | Audio input => [input]
  | Subtitles input file _ => [input; file]
  | Concat inputs _ _ => inputs
  end.

(** An event that only concerns files of the task. *)
Definition in_task_files (task_id : string) (ev : event) : Prop :=
  match ev with
  | EDownload _ path _ | EProbe path | EWrite path _ | EExists path
  | ERemove path | ETranscribe path => task_file task_id path
  | ERun job =>
      task_file task_id (out_path job)
      /\ Forall (task_file task_id) (concat (map stream_paths (streams job)))
  | EPysrtOpen None => True
  | EPysrtOpen (Some path) => task_file task_id path
  end.

Definition has_kwarg (key : string) (job : ffmpeg_job) : bool :=
  existsb (fun kv => String.eqb (fst kv) key) (kwargs job).

(** A job is coherent when it only extracts the sound track, or sets a
    video codec and sets an audio codec exactly when it is given sound. *)
Definition coherent (ev : event) : Prop :=
  match ev with
  | ERun job =>
      (exists input, streams job = [Audio input] /\ kwargs job = [])
      \/ (has_kwarg "vcodec" job = true
          /\ existsb audio_stream (streams job) = has_kwarg "acodec" job)
  | _ => True
  end.

Definition tidy (task_id : string) (ev : event) : Prop :=
  in_task_files task_id ev /\ coherent ev.

(** An exception that [create_fallback_video] raises. *)
Definition is_critical (e : exception) : Prop := exists cause, e = critical cause.

(** An exception that the renderer raises: the critical error of the
    fallback, or the error of decoding the output of a failed run. *)
Definition render_error (w : world) (e : exception) : Prop :=
  is_critical e \/ exists h cause, stderr_decode w h cause = Some e.

(** The task has ended: completed with its output, or in error at the
    checkpoint [0] or [70]. *)
Definition terminal (task_id : string) (st : state) : Prop :=
  (task st !! "status" = Some (TStr "completed")
   /\ task st !! "progress" = Some (TInt 100) /\ progress st = 100%Z
   /\ (task st !! "output_file" = Some (TStr (final_output_path task_id))
       \/ task st !! "output_file" = Some (TStr (fallback_output_path task_id))))
  \/ (task st !! "status" = Some (TStr "error")
      /\ (exists msg, task st !! "error" = Some (TStr msg))
      /\ ((task st !! "progress" = Some (TInt 0) /\ progress st = 0%Z)
          \/ (task st !! "progress" = Some (TInt 70) /\ progress st = 70%Z))).

(** No file, or a file of the task. *)
Definition maybe_task_file (task_id : string) (o : option string) : Prop :=
  match o with
  | None => True
  | Some path => task_file task_id path
  end.

(** The events added all satisfy [P] (the registry may change). *)
Definition logs (P : event -> Prop) (st st' : state) : Prop :=
  exists new, trace st' = trace st ++ new /\ Forall P new.

(** From a state that satisfies [Pre], the computation [m] returns in a
    state that satisfies [Post], or raises in one that satisfies [EPost]. *)
Definition triple {A} (Pre : state -> Prop) (m : M A)
    (Post : A -> state -> Prop) (EPost : exception -> state -> Prop) : Prop :=
  forall st,
    Pre st ->
    match m st with
    | (Return a, st') => Post a st'
    | (Raise e, st') => EPost e st'
    end.

(** The registry entry is [t] and [self.progress] is [p]. *)
Definition at_checkpoint (t : gmap string tval) (p : Z) (st : state) : Prop :=
  task st = t /\ progress st = p.

(** The entry [t'] differs from [t] at most under the keys that
    [process_videos] writes. *)
Definition same_elsewhere (t t' : gmap string tval) : Prop :=
  forall key,
    key <> "status" -> key <> "progress" -> key <> "error" -> key <> "output_file" ->
    t' !! key = t !! key.


(** An [output] on which the search for [url] raises: a value that is
    not a container, a string that mentions [url], a list with the
    element [url].  A dictionary never is. *)
Definition unsearchable (output : json) : bool :=
  match output with
  | JDict _ => false
  | JStr s => PyStr.contains "url" s
  | JList l => existsb (Py.is_str "url") l
  | _ => true
  end.

(** ** The routes *)

(** [TASKS]: the entries by task identifier. *)
Abbreviation registry := (gmap string (gmap string tval)).

(** What a route answers: [jsonify(body), code], or
    [send_file(path, as_attachment=True, download_name=...)]. *)
Inductive response :=
| Json (body : gmap string tval) (code : Z)
| SendFile (path : tval) (download_name : string).

(** [len(v)] *)
Definition py_len (v : json) : outcome nat :=
  match v with
  | JStr s => Return (String.length s)
  | JList l => Return (length l)
  | JDict d => Return (length d)
  | _ => Raise (Raised "TypeError"
                  ("object of type '" +:+ Py.type_name v +:+ "' has no len()"))
  end.

(** [VideoProcessor(task_id, video_list, subtitles_content)], started on
    a thread; [JNull] is Python's [None]. *)
Record processor := Processor {
  p_task_id : string;
  p_video_data : list json;
  p_subtitles_content : json
}.

(** The outcome of a request to the intake: the answer, [TASKS]
    afterwards and the processor started, if any. *)
Record intake := Intake {
  answer : response;
  tasks : registry;
  thread : option processor
}.

Definition rejection (msg : string) (code : Z) : response :=
  Json (<["error" := TStr msg]> (<["status" := TStr "error"]> ∅)) code.

(** The list under [videos], or else under [data]. *)
Definition video_list_of (d : list (string * json)) : option (list json) :=
  match Py.assoc "videos" d with
  | Some (JList l) => Some l
  | _ =>
      match Py.assoc "data" d with
      | Some (JList l) => Some l
      | _ => None
      end
  end.

(** [handle_webhook]; [data] is what [request.get_json()] gives or
    raises, [uuid4] and [now] are [str(uuid.uuid4())] and
    [datetime.now().isoformat()]. *)
Definition handle_webhook (TASKS : registry) (data : outcome json) (uuid4 now : string)
    : intake :=
  let attempt : outcome intake :=
    data ← data;
    match data with
    | JDict d =>
        match video_list_of d with
        | Some video_list =>
            let subtitles_content := default JNull (Py.assoc "srt" d) in
            _ ← match Py.assoc "srt" d with
                | Some srt => if Py.truthy srt then py_len srt else Return 0
                | None => Return 0
                end;
            match video_list with
            | [] => Return (Intake (rejection "Массив видео пуст" 400) TASKS None)
            | _ =>
                let task_id := uuid4 in
                let has_custom_subtitles := Py.truthy subtitles_content in
                Return (Intake
                  (Json (<["task_id" := TStr task_id]>
                         (<["status" := TStr "processing"]>
                         (<["message" := TStr ("Начата обработка "
                                               +:+ PyNum.str_nat (length video_list)
                                               +:+ " видео с прокручивающимися субтитрами")]>
                         (<["video_count" := TInt (Z.of_nat (length video_list))]>
                         (<["has_custom_subtitles" := TBool has_custom_subtitles]> ∅)))))
                        200)
                  (<[task_id := initial_task video_list has_custom_subtitles now]> TASKS)
                  (Some (Processor task_id video_list subtitles_content)))
            end
        | None =>
            Return (Intake
              (rejection "Неверный формат webhook: отсутствует массив 'videos' или 'data'" 400)
              TASKS None)
        end
    | _ =>
        Return (Intake
          (rejection "Неверный формат webhook: ожидается JSON объект" 400) TASKS None)
    end in
  match attempt with
  | Return r => r
  | Raise e =>
      Intake (rejection ("Ошибка обработки webhook: " +:+ exc_str e) 500) TASKS None
  end.

(** [task_info[key]] *)
Definition entry_item (task_info : gmap string tval) (key : string) : outcome tval :=
  match task_info !! key with
  | Some v => Return v
  | None => Raise (Raised "KeyError" ("'" +:+ key +:+ "'"))
  end.

(** [v == s] for a string [s]. *)
Definition is_text (s : string) (v : tval) : bool :=
  match v with
  | TStr s' => String.eqb s' s
  | _ => false
  end.

Definition not_found : response :=
  Json (<["error" := TStr "Задача не найдена"]> ∅) 404.

(** [get_task_status]; what it raises, the framework answers for it. *)
Definition get_task_status (TASKS : registry) (task_id : string) : outcome response :=
  match TASKS !! task_id with
  | None => Return not_found
  | Some task_info =>
      status ← entry_item task_info "status";
      progress ← entry_item task_info "progress";
      created_at ← entry_item task_info "created_at";
      let response :=
        <["task_id" := TStr task_id]>
        (<["status" := status]>
        (<["progress" := progress]>
        (<["created_at" := created_at]>
        (<["video_count" := default (TInt 0) (task_info !! "video_count")]>
        (<["has_custom_subtitles" :=
             default (TBool false) (task_info !! "has_custom_subtitles")]> ∅))))) in
      let response :=
        if is_text "completed" status then
          <["output_file" := default (TStr "") (task_info !! "output_file")]>
          (<["download_url" := TStr ("/download/" +:+ task_id)]> response)
        else response in
      let response :=
        if is_text "error" status then
          <["error" := default (TStr "Неизвестная ошибка") (task_info !! "error")]> response
        else response in
      let response :=
        match task_info !! "warnings" with
        | Some warnings => <["warnings" := warnings]> response
        | None => response
        end in
      Return (Json response 200)
  end.

(** The route [download_video]; [os_path_exists] is [os.path.exists]
    at the time of the request. *)
Definition download_video_route (os_path_exists : tval -> bool) (TASKS : registry)
    (task_id : string) : outcome response :=
  match TASKS !! task_id with
  | None => Return not_found
  | Some task_info =>
      status ← entry_item task_info "status";
      if negb (is_text "completed" status) then
        Return (Json (<["error" := TStr "Видео еще не готово"]> ∅) 400)
      else
        let output_file := default (TStr "") (task_info !! "output_file") in
        if negb (os_path_exists output_file) then
          Return (Json (<["error" := TStr "Файл не найден"]> ∅) 404)
        else
          Return (SendFile output_file
                    ("final_scrolling_subtitles_" +:+ task_id +:+ ".mp4"))
  end.

(** The answer of the status route tells a finished task: completed,
    with where to fetch the result, or failed, with the reason. *)
Definition reports_end (task_id : string) (body : gmap string tval) : Prop :=
  (body !! "status" = Some (TStr "completed")
   /\ body !! "progress" = Some (TInt 100)
   /\ body !! "download_url" = Some (TStr ("/download/" +:+ task_id))
   /\ (body !! "output_file" = Some (TStr (final_output_path task_id))
       \/ body !! "output_file" = Some (TStr (fallback_output_path task_id)))
   /\ body !! "error" = None)
  \/ (body !! "status" = Some (TStr "error")
      /\ (body !! "progress" = Some (TInt 0) \/ body !! "progress" = Some (TInt 70))
      /\ (exists msg, body !! "error" = Some (TStr msg))
      /\ body !! "download_url" = None
      /\ body !! "output_file" = None).

(** The [srt] of the request passes the intake: it is absent, falsy, or
    a value with a length. *)
Definition srt_measurable (d : list (string * json)) : bool :=
  match Py.assoc "srt" d with
  | None => true
  | Some srt =>
      negb (Py.truthy srt)
      || match srt with
         | JStr _ | JList _ | JDict _ => true
         | _ => false
         end
  end.

(** A value that the last loop of [extract_video_url] takes for an
    address. *)
Definition mp4_link (value : json) : bool :=
  match value with
  | JStr s => PyStr.startswith "http" s && PyStr.contains ".mp4" s
  | _ => false
  end.

(** * Theorems *)

(** ** Python strings *)

Lemma append_nil (t : string) : "" +:+ t = t.
Proof. reflexivity. Qed.

Lemma append_cons (c : ascii) (s t : string) : String c s +:+ t = String c (s +:+ t).
Proof. reflexivity. Qed.

Lemma string_app_assoc (a b c : string) : (a +:+ b) +:+ c = a +:+ b +:+ c.
Proof.
  induction a as [|x a IH]; [reflexivity |].
  rewrite !append_cons. now rewrite IH.
Qed.

Lemma string_app_length (a b : string) :
  String.length (a +:+ b) = String.length a + String.length b.
Proof.
  induction a as [|x a IH]; [reflexivity |].
  rewrite append_cons. simpl. now rewrite IH.
Qed.

Lemma lstrip_length (s : string) : String.length (PyStr.lstrip s) <= String.length s.
Proof.
  induction s as [|c s IH]; simpl; [lia |].
  destruct (PyStr.isspace c); simpl; lia.
Qed.

Lemma rstrip_length (s : string) : String.length (PyStr.rstrip s) <= String.length s.
Proof.
  induction s as [|c s IH]; simpl; [lia |].
  destruct (PyStr.rstrip s); [destruct (PyStr.isspace c) |]; simpl in *; lia.
Qed.

Lemma strip_length (s : string) : String.length (PyStr.strip s) <= String.length s.
Proof.
  unfold PyStr.strip. pose proof (rstrip_length (PyStr.lstrip s)).
  pose proof (lstrip_length s). lia.
Qed.

Lemma lstrip_app_space (x : string) :
  PyStr.lstrip (x +:+ " ") =
  match PyStr.lstrip x with
  | EmptyString => EmptyString
  | y => y +:+ " "
  end.
Proof.
  induction x as [|c x IH]; [reflexivity |].
  rewrite append_cons. simpl.
  destruct (PyStr.isspace c); [exact IH | reflexivity].
Qed.

Lemma rstrip_app_space (x : string) : PyStr.rstrip (x +:+ " ") = PyStr.rstrip x.
Proof.
  induction x as [|c x IH]; [reflexivity |].
  rewrite append_cons. simpl. now rewrite IH.
Qed.

Lemma strip_app_space (x : string) : PyStr.strip (x +:+ " ") = PyStr.strip x.
Proof.
  unfold PyStr.strip. rewrite lstrip_app_space.
  destruct (PyStr.lstrip x) as [|c y]; [reflexivity |].
  apply (rstrip_app_space (String c y)).
Qed.

(** A string that does not start with a blank. *)
Lemma lstrip_fixed (s : string) :
  match s with
  | EmptyString => True
  | String c _ => PyStr.isspace c = false
  end -> PyStr.lstrip s = s.
Proof. destruct s as [|c s]; simpl; [reflexivity | now intros ->]. Qed.

Lemma lstrip_head (s : string) :
  match PyStr.lstrip s with
  | EmptyString => True
  | String c _ => PyStr.isspace c = false
  end.
Proof.
  induction s as [|c s IH]; simpl; [exact I |].
  destruct (PyStr.isspace c) eqn:E; [exact IH | exact E].
Qed.

Lemma rstrip_head (s : string) :
  match s with
  | EmptyString => True
  | String c _ => PyStr.isspace c = false
  end ->
  match PyStr.rstrip s with
  | EmptyString => True
  | String c _ => PyStr.isspace c = false
  end.
Proof.
  destruct s as [|c s]; simpl; [trivial |]. intros E.
  destruct (PyStr.rstrip s); [rewrite E |]; exact E.
Qed.

Lemma rstrip_idem (s : string) : PyStr.rstrip (PyStr.rstrip s) = PyStr.rstrip s.
Proof.
  induction s as [|c s IH]; simpl; [reflexivity |].
  destruct (PyStr.rstrip s) as [|d r] eqn:E.
  - destruct (PyStr.isspace c) eqn:Ec; simpl; [reflexivity | now rewrite Ec].
  - change (PyStr.rstrip (String c (String d r))) with
      (match PyStr.rstrip (String d r) with
       | EmptyString => if PyStr.isspace c then EmptyString else String c EmptyString
       | r' => String c r'
       end).
    now rewrite IH.
Qed.

Lemma strip_idem (s : string) : PyStr.strip (PyStr.strip s) = PyStr.strip s.
Proof.
  unfold PyStr.strip.
  rewrite (lstrip_fixed (PyStr.rstrip (PyStr.lstrip s))).
  - apply rstrip_idem.
  - apply rstrip_head, lstrip_head.
Qed.

(** ** The greedy packer *)

Section PackerBudget.

Variable m : nat.
Variable seen : list word_timing.

Lemma flush_ok (p : packer) :
  packer_ok m seen p ->
  Forall (fun c => text_ok m seen (c_text c)) (flush p).
Proof.
  intros [Hl Hc]. unfold flush.
  destruct (PyStr.truthy (PyStr.strip (current_line p))); [| exact Hl].
  apply Forall_app. split; [exact Hl |].
  constructor; [| constructor]. simpl.
  destruct Hc as [-> | (x & -> & [Hx | (wi & Hwi & ->)])].
  - left. simpl. lia.
  - left. rewrite strip_app_space. pose proof (strip_length x). lia.
  - right. exists wi. split; [exact Hwi |].
    now rewrite strip_app_space, strip_idem.
Qed.

Lemma packer_step_ok (p : packer) (word_info : word_timing) :
  word_info ∈ seen -> packer_ok m seen p ->
  packer_ok m seen (packer_step m p word_info).
Proof.
  intros Hin Hp. unfold packer_step.
  destruct (String.length (current_line p +:+ PyStr.strip (w_word word_info)) <=? m)
    eqn:E.
  - apply Nat.leb_le in E. split; simpl; [exact (proj1 Hp) |].
    right. exists (current_line p +:+ PyStr.strip (w_word word_info)).
    split; [symmetry; apply string_app_assoc | now left].
  - split; simpl.
    + apply flush_ok. split; simpl; [exact (proj1 Hp) | exact (proj2 Hp)].
    + right. exists (PyStr.strip (w_word word_info)). split; [reflexivity |].
      right. now exists word_info.
Qed.

Lemma packer_fold_ok (ws : list word_timing) (p : packer) :
  (forall word_info, word_info ∈ ws -> word_info ∈ seen) ->
  packer_ok m seen p ->
  packer_ok m seen (fold_left (packer_step m) ws p).
Proof.
  revert p. induction ws as [|wi ws IH]; intros p Hsub Hp; simpl; [exact Hp |].
  apply IH.
  - intros x Hx. apply Hsub. now right.
  - apply packer_step_ok; [apply Hsub; now left | exact Hp].
Qed.

End PackerBudget.

(** A line under construction has its two times: the defaults in
    [flush] are never used. *)
Lemma packer_times_set (m : nat) (ws : list word_timing) (p : packer) :
  current_line p = "" \/ (is_Some (line_start p) /\ is_Some (line_end p)) ->
  let p' := fold_left (packer_step m) ws p in
  current_line p' = "" \/ (is_Some (line_start p') /\ is_Some (line_end p')).
Proof.
  revert p. induction ws as [|wi ws IH]; intros p Hp; [exact Hp |].
  apply IH. right. unfold packer_step.
  destruct (String.length (current_line p +:+ PyStr.strip (w_word wi)) <=? m);
    cbn [line_start line_end]; split; try (eexists; reflexivity).
  destruct (line_start p); eexists; reflexivity.
Qed.

Section PackerLongWords.

Variable m : nat.

Lemma truthy_long (s : string) : m < String.length s -> PyStr.truthy s = true.
Proof. destruct s; simpl; [lia | reflexivity]. Qed.

Lemma flush_keeps (p : packer) (c : cue) :
  c ∈ line_level_subtitles p -> c ∈ flush p.
Proof.
  intros H. unfold flush. destruct (PyStr.truthy _); [| exact H].
  apply elem_of_app. now left.
Qed.

Lemma flush_long (p : packer) (word : string) :
  m < String.length (PyStr.strip word) ->
  current_line p = PyStr.strip word +:+ " " ->
  exists c, c ∈ flush p /\ c_text c = PyStr.strip word.
Proof.
  intros Hlong Hcur. unfold flush.
  rewrite Hcur, strip_app_space, strip_idem, (truthy_long _ Hlong).
  eexists. split; [apply elem_of_app; right; apply list_elem_of_here | reflexivity].
Qed.

Lemma packer_step_long (seen : list word_timing) (p : packer) (word_info : word_timing) :
  long_words_kept m seen p ->
  long_words_kept m (seen ++ [word_info]) (packer_step m p word_info).
Proof.
  intros Hp wi Hin Hlong. unfold packer_step.
  destruct (String.length (current_line p +:+ PyStr.strip (w_word word_info)) <=? m)
    eqn:E.
  - apply Nat.leb_le in E. rewrite string_app_length in E. cbn [line_level_subtitles].
    apply elem_of_app in Hin as [Hin | Hin].
    + destruct (Hp wi Hin Hlong) as [Hc | Hc]; [now left |].
      rewrite Hc, string_app_length in E. lia.
    + apply list_elem_of_singleton in Hin as ->. lia.
  - cbn [line_level_subtitles current_line].
    apply elem_of_app in Hin as [Hin | Hin].
    + left. destruct (Hp wi Hin Hlong) as [(c & Hc & Ht) | Hc].
      * exists c. split; [now apply flush_keeps | exact Ht].
      * now apply flush_long.
    + apply list_elem_of_singleton in Hin as ->. now right.
Qed.

Lemma packer_fold_long (ws seen : list word_timing) (p : packer) :
  long_words_kept m seen p ->
  long_words_kept m (seen ++ ws) (fold_left (packer_step m) ws p).
Proof.
  revert seen p. induction ws as [|wi ws IH]; intros seen p Hp; simpl.
  - now rewrite app_nil_r.
  - replace (seen ++ wi :: ws) with ((seen ++ [wi]) ++ ws) by now rewrite <- app_assoc.
    apply IH. now apply packer_step_long.
Qed.

Lemma convert_to_line_level_with_long (word_level_info : list word_timing)
    (word_info : word_timing) :
  word_info ∈ word_level_info ->
  m < String.length (PyStr.strip (w_word word_info)) ->
  exists c, c ∈ convert_to_line_level_with m word_level_info
            /\ c_text c = PyStr.strip (w_word word_info).
Proof.
  intros Hin Hlong.
  assert (H0 : long_words_kept m [] packer_init) by (intros wi Hwi; inversion Hwi).
  pose proof (packer_fold_long word_level_info [] packer_init H0) as H.
  destruct (H word_info Hin Hlong) as [(c & Hc & Ht) | Hc].
  - exists c. split; [now apply flush_keeps | exact Ht].
  - now apply flush_long.
Qed.

End PackerLongWords.

Lemma convert_to_line_level_with_budget (m : nat) (word_level_info : list word_timing) :
  Forall (fun c => text_ok m word_level_info (c_text c))
         (convert_to_line_level_with m word_level_info).
Proof.
  apply flush_ok, packer_fold_ok; [trivial |].
  split; simpl; [constructor | now left].
Qed.

(** C5. Every cue of the greedy packer has a text of at most 47
    characters, unless the cue is a single word of the input (stripped)
    on its own; and a word longer than 47 characters is always emitted,
    as a cue of its own. *)
Theorem convert_to_line_level_budget (word_level_info : list word_timing) :
  (forall c : cue,
     c ∈ convert_to_line_level word_level_info ->
     String.length (c_text c) <= 47 \/
     exists word_info,
       word_info ∈ word_level_info /\ c_text c = PyStr.strip (w_word word_info))
  /\ (forall word_info : word_timing,
        word_info ∈ word_level_info ->
        47 < String.length (PyStr.strip (w_word word_info)) ->
        exists c, c ∈ convert_to_line_level word_level_info
                  /\ c_text c = PyStr.strip (w_word word_info)).
Proof.
  split.
  - intros c Hc.
    pose proof (convert_to_line_level_with_budget 47 word_level_info) as H.
    rewrite Forall_forall in H. exact (H c Hc).
  - intros word_info. apply convert_to_line_level_with_long.
Qed.

Lemma convert_to_line_level_budget_witness :
  let long := "pneumonoultramicroscopicsilicovolcanoconiosis-like" in
  let word_level_info :=
    [WordTiming " Hello" 0 1; WordTiming "world" 1 2; WordTiming long 2 3] in
  (String.length "Hello world" <= 47 \/
   exists word_info,
     word_info ∈ word_level_info /\ "Hello world" = PyStr.strip (w_word word_info))
  /\ (exists c, c ∈ convert_to_line_level word_level_info /\ c_text c = long).
Proof.
  split.
  - apply (proj1 (convert_to_line_level_budget
                    [WordTiming " Hello" 0 1; WordTiming "world" 1 2;
                     WordTiming "pneumonoultramicroscopicsilicovolcanoconiosis-like" 2 3])
                 (Cue "Hello world" 0 2)).
    vm_compute. constructor.
  - apply (proj2 (convert_to_line_level_budget
                    [WordTiming " Hello" 0 1; WordTiming "world" 1 2;
                     WordTiming "pneumonoultramicroscopicsilicovolcanoconiosis-like" 2 3])
                 (WordTiming "pneumonoultramicroscopicsilicovolcanoconiosis-like" 2 3)).
    + vm_compute. do 2 constructor. constructor.
    + vm_compute. lia.
Defined.

(** A long word is kept whole. *)
Example convert_to_line_level_long_word :
  convert_to_line_level
    [WordTiming "a" 0 1;
     WordTiming "pneumonoultramicroscopicsilicovolcanoconiosis-like" 1 2;
     WordTiming "b" 2 3]
  = [Cue "a" 0 1;
     Cue "pneumonoultramicroscopicsilicovolcanoconiosis-like" 1 2;
     Cue "b" 2 3].
Proof. reflexivity. Qed.

(** ** The text fallback *)

Lemma groups_go_lookup {A} (fuel : nat) (l : list A) :
  length l <= fuel ->
  groups_go fuel 6 l =
  map (fun k => take 6 (drop (k * 6) l)) (seq 0 ((length l + 5) / 6)).
Proof.
  revert l. induction fuel as [|fuel IH]; intros l Hl.
  - destruct l; [reflexivity | simpl in Hl; lia].
  - destruct l as [|x l]; [reflexivity |].
    assert (Hc : (length (x :: l) + 5) / 6 = S ((length (drop 6 (x :: l)) + 5) / 6)).
    { rewrite length_drop. simpl length.
      destruct (le_lt_dec 6 (S (length l))) as [Hge | Hlt].
      - replace (S (length l) + 5) with (1 * 6 + (S (length l) - 6 + 5)) by lia.
        now rewrite Nat.div_add_l by lia.
      - replace (S (length l) - 6) with 0 by lia.
        rewrite (Nat.div_small (0 + 5)) by lia.
        assert (H6 : 6 * 1 <= S (length l) + 5 < 6 * 2) by lia.
        symmetry. apply (Nat.div_unique (S (length l) + 5) 6 1 (length l)); lia. }
    rewrite Hc. change (groups_go (S fuel) 6 (x :: l))
      with (take 6 (x :: l) :: groups_go fuel 6 (drop 6 (x :: l))).
    rewrite IH by (rewrite length_drop; simpl in *; lia).
    rewrite <- cons_seq, <- fmap_S_seq. simpl map at 2.
    f_equal. rewrite <- list_fmap_compose.
    apply list_fmap_ext. intros _ k _. simpl.
    now rewrite drop_drop.
Qed.

Lemma generate_subtitles_from_text_lookup (text : string) (i : nat) :
  generate_subtitles_from_text text !! i =
  (fun group => Cue (PyStr.join " " group)
                    (inject_Z (Z.of_nat i * 3)) (inject_Z (Z.of_nat i * 3 + 3)))
    <$> groups_of 6 (PyStr.split text) !! i.
Proof.
  unfold generate_subtitles_from_text, groups_of, py_range.
  rewrite groups_go_lookup by lia.
  rewrite Nat.sub_0_r.
  replace (length (PyStr.split text) + 6 - 1) with (length (PyStr.split text) + 5) by lia.
  rewrite !list_lookup_fmap.
  destruct (seq 0 ((length (PyStr.split text) + 5) / 6) !! i) as [k|] eqn:E;
    [| reflexivity].
  apply lookup_seq in E as [-> _].
  cbv beta iota zeta delta [fmap option_fmap option_map slice].
  change (0 + i) with i. rewrite Nat.add_0_l, Nat.div_mul by lia.
  replace (i * 6 + 6 - i * 6) with 6 by lia.
  do 2 f_equal; f_equal; lia.
Qed.

(** C7. The text fallback cuts the words of the corpus into consecutive
    groups of 6; the cue of group [i] (from 0) is the group joined by
    single spaces, from [i * 3] to [i * 3 + 3] seconds; the seven words
    [a] to [g] give the two cues of Scenario B. *)
Theorem generate_subtitles_from_text_groups :
  (forall (text : string) (i : nat),
     generate_subtitles_from_text text !! i =
     (fun group => Cue (PyStr.join " " group)
                       (inject_Z (Z.of_nat i * 3)) (inject_Z (Z.of_nat i * 3 + 3)))
       <$> groups_of 6 (PyStr.split text) !! i)
  /\ PyStr.split "a b c d e f g" = ["a"; "b"; "c"; "d"; "e"; "f"; "g"]
  /\ generate_subtitles_from_text "a b c d e f g"
     = [Cue "a b c d e f" 0 3; Cue "g" 3 6].
Proof.
  split; [exact generate_subtitles_from_text_lookup |].
  split; reflexivity.
Qed.

(** ** Reading a time stamp back *)

Lemma N_to_uint_nonnil (n : N) : N.to_uint n <> Decimal.Nil.
Proof.
  destruct n; [discriminate |]. apply DecimalPos.Unsigned.to_uint_nonnil.
Qed.

Lemma digits_as_uint (n : N) :
  PyNum.digits n = NilEmpty.string_of_uint (N.to_uint n).
Proof.
  unfold PyNum.digits, NilZero.string_of_uint.
  pose proof (N_to_uint_nonnil n). now destruct (N.to_uint n).
Qed.

Lemma digits_only_uint (d : Decimal.uint) :
  Reader.digits_only (NilEmpty.string_of_uint d) = true.
Proof. induction d; simpl; auto. Qed.

Lemma digits_only_zeros (k : nat) : Reader.digits_only (PyNum.zeros k) = true.
Proof. induction k; simpl; auto. Qed.

Lemma digits_only_app (a b : string) :
  Reader.digits_only (a +:+ b) = Reader.digits_only a && Reader.digits_only b.
Proof.
  induction a as [|c a IH]; [reflexivity |].
  rewrite append_cons. simpl. rewrite IH. now rewrite andb_assoc.
Qed.

Lemma uint_of_zeros (k : nat) (s : string) (d : Decimal.uint) :
  NilEmpty.uint_of_string s = Some d ->
  exists d', NilEmpty.uint_of_string (PyNum.zeros k +:+ s) = Some d'
             /\ N.of_uint d' = N.of_uint d.
Proof.
  intros H. induction k as [|k (d' & E & Hd')].
  - now exists d.
  - exists (Decimal.D0 d'). split; [| exact Hd'].
    change (PyNum.zeros (S k) +:+ s) with (String "0" (PyNum.zeros k +:+ s)).
    simpl. now rewrite E.
Qed.

Lemma format_d_nonneg (width : nat) (z : Z) :
  (0 <= z)%Z ->
  exists k, PyNum.format_d width z
            = PyNum.zeros k +:+ NilEmpty.string_of_uint (N.to_uint (Z.abs_N z)).
Proof.
  intros Hz. unfold PyNum.format_d.
  assert (E : (z <? 0)%Z = false) by (apply Z.ltb_ge; lia).
  rewrite E, digits_as_uint. eexists. reflexivity.
Qed.

Lemma format_d_digits_only (width : nat) (z : Z) :
  (0 <= z)%Z -> Reader.digits_only (PyNum.format_d width z) = true.
Proof.
  intros Hz. destruct (format_d_nonneg width z Hz) as (k & ->).
  now rewrite digits_only_app, digits_only_zeros, digits_only_uint.
Qed.

Lemma read_digits_format_d (width : nat) (z : Z) :
  (0 <= z)%Z -> Reader.read_digits (PyNum.format_d width z) = Some z.
Proof.
  intros Hz. destruct (format_d_nonneg width z Hz) as (k & ->).
  destruct (uint_of_zeros k _ _ (NilEmpty.usu (N.to_uint (Z.abs_N z))))
    as (d' & E & Hd').
  unfold Reader.read_digits, NilZero.uint_of_string.
  destruct (PyNum.zeros k +:+ NilEmpty.string_of_uint (N.to_uint (Z.abs_N z)))
    as [|c s] eqn:Es.
  - exfalso. destruct k; [| discriminate Es].
    change (PyNum.zeros 0 +:+ ?x) with x in Es.
    pose proof (N_to_uint_nonnil (Z.abs_N z)).
    now destruct (N.to_uint (Z.abs_N z)).
  - rewrite E, Hd', DecimalN.Unsigned.of_to. f_equal. lia.
Qed.

Lemma split_once_digits (sep : ascii) (a b : string) :
  Reader.is_digit sep = false -> Reader.digits_only a = true ->
  Reader.split_once sep (a +:+ String sep b) = Some (a, b).
Proof.
  intros Hsep. induction a as [|c a IH]; intros Ha.
  - change ("" +:+ String sep b) with (String sep b). simpl.
    now rewrite Ascii.eqb_refl.
  - rewrite append_cons. simpl in Ha |- *.
    apply andb_true_iff in Ha as [Hc Ha].
    destruct (Ascii.eqb c sep) eqn:E.
    + apply Ascii.eqb_eq in E. congruence.
    + now rewrite (IH Ha).
Qed.

Lemma append_one (c : ascii) (x : string) : String c "" +:+ x = String c x.
Proof. reflexivity. Qed.

Lemma read_srt_time_render (t : SubRipTime) :
  (0 <= hours t)%Z -> (0 <= minutes t)%Z -> (0 <= seconds t)%Z ->
  (0 <= milliseconds t)%Z ->
  Reader.read_srt_time (render_srt_time t) = Some t.
Proof.
  intros Hh Hm Hs Hms. unfold render_srt_time, Reader.read_srt_time.
  rewrite !append_one.
  rewrite !split_once_digits by (reflexivity || now apply format_d_digits_only).
  rewrite !read_digits_format_d by assumption.
  now destruct t.
Qed.

(** ** Floats *)

Section FloatFacts.

Local Open Scope Q_scope.

Lemma pow2_pos (e : Z) : 0 < 2 ^ e.
Proof. now apply Qpower_0_lt. Qed.

Lemma pow2_add (a b : Z) : 2 ^ (a + b) == 2 ^ a * 2 ^ b.
Proof. now apply Qpower_plus. Qed.

Lemma pow2_lt (a b : Z) : (a < b)%Z -> 2 ^ a < 2 ^ b.
Proof. intros H. now apply Qpower_lt_compat_l. Qed.

Lemma pow2_le (a b : Z) : (a <= b)%Z -> 2 ^ a <= 2 ^ b.
Proof. intros H. now apply Qpower_le_compat_l. Qed.

Lemma pow2_lt_inv (a b : Z) : 2 ^ a < 2 ^ b -> (a < b)%Z.
Proof. intros H. now apply (Qpower_lt_compat_l_inv 2). Qed.

Lemma pow2_inject (e : Z) : (0 <= e)%Z -> 2 ^ e == inject_Z (2 ^ e).
Proof. intros H. symmetry. now apply (Zpower_Qpower 2). Qed.

Lemma ilog2_spec (x : Q) :
  ~ x == 0 ->
  2 ^ Float64.ilog2 x <= Qabs x /\ Qabs x < 2 ^ (Float64.ilog2 x + 1).
Proof.
  intros Hx. destruct x as [n d]. unfold Float64.ilog2. cbn [Qnum Qden].
  assert (Hn : (0 < Z.abs n)%Z).
  { destruct n; [| lia | lia]. exfalso. apply Hx. reflexivity. }
  set (a := Z.abs n) in *. set (D := Z.pos d).
  set (p := (Z.log2 D + 1)%Z). set (y := (a * 2 ^ p / D)%Z). set (c := Z.log2 y).
  assert (HD : (0 < D)%Z) by (unfold D; lia).
  assert (Hp : (0 <= Z.log2 D)%Z) by apply Z.log2_nonneg.
  assert (HDp : (D < 2 ^ p)%Z).
  { unfold p. replace (Z.log2 D + 1)%Z with (Z.succ (Z.log2 D)) by lia.
    now apply Z.log2_spec. }
  assert (H2p : (0 < 2 ^ p)%Z) by (apply Z.pow_pos_nonneg; lia).
  assert (Hy : (1 <= y)%Z).
  { unfold y. apply Z.div_le_lower_bound; [exact HD | nia]. }
  assert (Hc : (2 ^ c <= y < 2 ^ (c + 1))%Z).
  { unfold c. replace (Z.log2 y + 1)%Z with (Z.succ (Z.log2 y)) by lia.
    apply Z.log2_spec. lia. }
  assert (Hc0 : (0 <= c)%Z) by apply Z.log2_nonneg.
  assert (Hdiv : (D * y <= a * 2 ^ p < D * (y + 1))%Z).
  { unfold y. split.
    - apply Z.mul_div_le. exact HD.
    - pose proof (Z.mul_succ_div_gt (a * 2 ^ p) D HD). lia. }
  assert (Hlo : (D * 2 ^ c <= a * 2 ^ p)%Z) by nia.
  assert (Hhi : (a * 2 ^ p < D * 2 ^ (c + 1))%Z) by nia.
  assert (Habs : Qabs (n # d) == inject_Z a / inject_Z D).
  { unfold Qabs. fold a. unfold D. apply Qmake_Qdiv. }
  assert (HiD : 0 < inject_Z D) by (rewrite <- (Zlt_Qlt 0); exact HD).
  assert (Hi2p : 0 < inject_Z (2 ^ p)) by (rewrite <- (Zlt_Qlt 0); exact H2p).
  assert (E1 : 2 ^ (c - p) == inject_Z (2 ^ c) / inject_Z (2 ^ p)).
  { rewrite Qpower_minus by easy. rewrite !pow2_inject by lia. reflexivity. }
  assert (E2 : 2 ^ (c - p + 1) == inject_Z (2 ^ (c + 1)) / inject_Z (2 ^ p)).
  { replace (c - p + 1)%Z with (c + 1 - p)%Z by lia.
    rewrite Qpower_minus by easy. rewrite !pow2_inject by lia. reflexivity. }
  assert (HX : inject_Z a / inject_Z D * inject_Z D == inject_Z a).
  { field. intros H0. rewrite H0 in HiD. now apply Qlt_irrefl in HiD. }
  rewrite Habs, E1, E2. set (X := inject_Z a / inject_Z D) in *.
  rewrite Zle_Qle, !inject_Z_mult in Hlo. rewrite Zlt_Qlt, !inject_Z_mult in Hhi.
  split.
  - apply Qle_shift_div_r; [exact Hi2p |].
    apply (proj1 (Qmult_le_l _ _ (inject_Z D) HiD)).
    assert (E : inject_Z D * (X * inject_Z (2 ^ p))
                == X * inject_Z D * inject_Z (2 ^ p)) by ring.
    now rewrite E, HX.
  - apply Qlt_shift_div_l; [exact Hi2p |].
    apply (proj1 (Qmult_lt_l _ _ (inject_Z D) HiD)).
    assert (E : inject_Z D * (X * inject_Z (2 ^ p))
                == X * inject_Z D * inject_Z (2 ^ p)) by ring.
    now rewrite E, HX.
Qed.


Lemma nearest_even_error (y : Q) :
  Qabs (inject_Z (Float64.nearest_even y) - y) <= 1 # 2.
Proof.
  pose proof (Qfloor_le y) as Hlo. pose proof (Qlt_floor y) as Hhi.
  rewrite inject_Z_plus in Hhi. change (inject_Z 1) with 1 in Hhi.
  apply Qabs_Qle_condition. unfold Float64.nearest_even.
  destruct (Qcompare (y - inject_Z (Qfloor y)) (1 # 2)) eqn:E.
  - apply Qeq_alt in E. destruct (Z.even (Qfloor y)).
    + split; lra.
    + rewrite inject_Z_plus. change (inject_Z 1) with 1. split; lra.
  - apply Qlt_alt in E. split; lra.
  - apply Qgt_alt in E. rewrite inject_Z_plus. change (inject_Z 1) with 1. split; lra.
Qed.

Lemma nearest_even_exact (y : Q) (k : Z) :
  y == inject_Z k -> Float64.nearest_even y = k.
Proof.
  intros H. unfold Float64.nearest_even.
  assert (Hf : Qfloor y = k) by (rewrite H; apply Qfloor_Z).
  rewrite Hf.
  assert (E : Qcompare (y - inject_Z k) (1 # 2) = Lt).
  { change (y - inject_Z k < 1 # 2). lra. }
  now rewrite E.
Qed.

Lemma nearest_even_nonneg (y : Q) : 0 <= y -> (0 <= Float64.nearest_even y)%Z.
Proof.
  intros H. assert (Hf : (0 <= Qfloor y)%Z).
  { change 0%Z with (Qfloor 0). now apply Qfloor_resp_le. }
  unfold Float64.nearest_even.
  destruct (Qcompare _ _); [destruct (Z.even _) | |]; lia.
Qed.

Lemma round_zero (x : Q) : x == 0 -> Float64.round x = 0.
Proof.
  intros H. unfold Float64.round.
  now rewrite (proj2 (Qeq_bool_iff x 0) H).
Qed.

Lemma round_unfold (x : Q) :
  ~ x == 0 ->
  Float64.round x
  = inject_Z (Float64.nearest_even (x / 2 ^ Float64.exponent x))
    * 2 ^ Float64.exponent x.
Proof.
  intros H. unfold Float64.round.
  destruct (Qeq_bool x 0) eqn:E; [| reflexivity].
  apply Qeq_bool_iff in E. contradiction.
Qed.

Lemma pow2_neq (e : Z) : ~ 2 ^ e == 0.
Proof. pose proof (pow2_pos e). intros H0. rewrite H0 in H. now apply Qlt_irrefl in H. Qed.

(** The rounding error is at most half a unit in the last place. *)
Lemma round_error (x : Q) :
  ~ x == 0 ->
  Qabs (Float64.round x - x) <= 2 ^ Float64.exponent x * (1 # 2).
Proof.
  intros Hx. rewrite round_unfold by exact Hx.
  set (e := Float64.exponent x).
  pose proof (pow2_pos e) as He. pose proof (pow2_neq e) as Hne.
  pose proof (nearest_even_error (x / 2 ^ e)) as H.
  set (k := inject_Z (Float64.nearest_even (x / 2 ^ e))) in *.
  apply Qabs_Qle_condition in H. destruct H as [H1 H2].
  assert (E : k * 2 ^ e - x == (k - x / 2 ^ e) * 2 ^ e) by (field; exact Hne).
  rewrite E. apply Qabs_Qle_condition. split.
  - assert (E1 : - (2 ^ e * (1 # 2)) == - (1 # 2) * 2 ^ e) by ring.
    rewrite E1. apply Qmult_le_compat_r; [exact H1 | now apply Qlt_le_weak].
  - assert (E1 : 2 ^ e * (1 # 2) == (1 # 2) * 2 ^ e) by ring.
    rewrite E1. apply Qmult_le_compat_r; [exact H2 | now apply Qlt_le_weak].
Qed.

Lemma exponent_bound (x : Q) (k : Z) :
  ~ x == 0 -> Qabs x < 2 ^ k ->
  (Float64.exponent x <= Z.max (k - 53) (-1074))%Z.
Proof.
  intros Hx Hk. destruct (ilog2_spec x Hx) as [Hlo _].
  assert (H : (Float64.ilog2 x < k)%Z).
  { apply pow2_lt_inv. eapply Qle_lt_trans; [exact Hlo | exact Hk]. }
  unfold Float64.exponent. lia.
Qed.

(** A multiple of [2^g] with less than 53 bits is a float. *)
Lemma round_exact (x : Q) (m g : Z) :
  x == inject_Z m * 2 ^ g -> (-1074 <= g)%Z -> (Z.abs m < 2 ^ 53)%Z ->
  Float64.round x == x.
Proof.
  intros Hx Hg Hm.
  destruct (Qeq_dec x 0) as [H0 | H0]; [rewrite (round_zero x H0); now symmetry |].
  rewrite round_unfold by exact H0.
  set (e := Float64.exponent x).
  assert (He : (e <= g)%Z).
  { assert (Hb : Qabs x < 2 ^ (53 + g)).
    { rewrite Hx, Qabs_Qmult. rewrite (Qabs_pos (2 ^ g)) by (apply Qlt_le_weak, pow2_pos).
      rewrite pow2_add. apply Qmult_lt_compat_r; [apply pow2_pos |].
      rewrite pow2_inject by lia.
      assert (E : Qabs (inject_Z m) == inject_Z (Z.abs m)).
      { unfold Qabs, inject_Z. reflexivity. }
      rewrite E. now rewrite <- Zlt_Qlt. }
    pose proof (exponent_bound x (53 + g) H0 Hb). fold e in H. lia. }
  assert (Hy : x / 2 ^ e == inject_Z (m * 2 ^ (g - e))).
  { rewrite Hx, inject_Z_mult, <- pow2_inject by lia.
    rewrite Qpower_minus by easy. field. apply pow2_neq. }
  rewrite (nearest_even_exact _ _ Hy).
  rewrite inject_Z_mult, <- pow2_inject by lia.
  rewrite Hx, Qpower_minus by easy. field. apply pow2_neq.
Qed.

Lemma round_nonneg (x : Q) : 0 <= x -> 0 <= Float64.round x.
Proof.
  intros Hx.
  destruct (Qeq_dec x 0) as [H0 | H0]; [rewrite (round_zero x H0); apply Qle_refl |].
  rewrite round_unfold by exact H0.
  apply Qmult_le_0_compat; [| apply Qlt_le_weak, pow2_pos].
  change 0 with (inject_Z 0). rewrite <- Zle_Qle.
  apply nearest_even_nonneg.
  apply Qle_shift_div_l; [apply pow2_pos | lra].
Qed.

(** The rounding error of a value below [2^k]. *)
Lemma round_error_below (x : Q) (k : Z) :
  Qabs x < 2 ^ k ->
  Qabs (Float64.round x - x) <= 2 ^ Z.max (k - 53) (-1074) * (1 # 2).
Proof.
  intros Hk.
  destruct (Qeq_dec x 0) as [H0 | H0].
  - rewrite (round_zero x H0), H0.
    pose proof (pow2_pos (Z.max (k - 53) (-1074))).
    change (Qabs (0 - 0)) with 0. lra.
  - eapply Qle_trans; [now apply round_error |].
    apply Qmult_le_compat_r; [| discriminate].
    apply pow2_le. now apply exponent_bound.
Qed.


Lemma Qfloor_unique (x : Q) (z : Z) :
inject_Z z <= x -> x < inject_Z (z + 1) -> Qfloor x = z.
Proof.
intros Hle Hlt.
pose proof (Qfloor_le x) as H1. pose proof (Qlt_floor x) as H2.
assert (Ha : inject_Z (Qfloor x) < inject_Z (z + 1)) by lra.
assert (Hb : inject_Z z < inject_Z (Qfloor x + 1)) by lra.
rewrite <- Zlt_Qlt in Ha, Hb. lia.
Qed.

Lemma Qfloor_div_pos (x : Q) (k : positive) :
Qfloor (x / inject_Z (Zpos k)) = (Qfloor x / Zpos k)%Z.
Proof.
destruct x as [a b]. unfold Qdiv, Qinv, Qmult, Qfloor. simpl.
rewrite Z.mul_1_r, Pos2Z.inj_mul, Z.div_div; lia.
Qed.

Lemma Qfloor_sub_Z (x : Q) (z : Z) : Qfloor (x - inject_Z z) = (Qfloor x - z)%Z.
Proof.
pose proof (Qfloor_le x) as H1. pose proof (Qlt_floor x) as H2.
apply Qfloor_unique.
- unfold Z.sub. rewrite inject_Z_plus, inject_Z_opp. lra.
- replace (Qfloor x - z + 1)%Z with ((Qfloor x + 1) + - z)%Z by lia.
  rewrite inject_Z_plus, inject_Z_opp. lra.
Qed.

Lemma int_inject_Z (z : Z) : PyNum.int (inject_Z z) = z.
Proof.
unfold PyNum.int. destruct (Qle_bool 0 (inject_Z z)).
- apply Qfloor_Z.
- apply Qceiling_Z.
Qed.

Lemma int_nonneg (x : Q) : 0 <= x -> PyNum.int x = Qfloor x.
Proof.
intros H. unfold PyNum.int. apply Qle_bool_iff in H. now rewrite H.
Qed.

Lemma mod_floor (x : Q) (k : positive) :
0 <= PyNum.mod_ x (inject_Z (Zpos k)) /\
Qfloor (PyNum.mod_ x (inject_Z (Zpos k))) = (Qfloor x mod Zpos k)%Z.
Proof.
unfold PyNum.mod_, PyNum.floordiv. rewrite Qfloor_div_pos.
assert (E : inject_Z (Z.pos k) * inject_Z (Qfloor x / Z.pos k)
            == inject_Z (Z.pos k * (Qfloor x / Z.pos k))).
{ now rewrite inject_Z_mult. }
rewrite E. split.
- pose proof (Qfloor_le x) as H1.
  assert (H : (Z.pos k * (Qfloor x / Z.pos k) <= Qfloor x)%Z).
  { apply Z.mul_div_le. lia. }
  rewrite Zle_Qle in H. lra.
- rewrite Qfloor_sub_Z. rewrite Z.mod_eq by lia. reflexivity.
Qed.

Lemma mod_one (t : Q) : PyNum.mod_ t 1 == t - inject_Z (Qfloor t).
Proof.
unfold PyNum.mod_, PyNum.floordiv.
pose proof (Qfloor_div_pos t 1) as E. change (inject_Z 1) with 1 in E.
rewrite E, Z.div_1_r. ring.
Qed.

Lemma int_comp (x y : Q) : x == y -> PyNum.int x = PyNum.int y.
Proof.
  intros H. unfold PyNum.int.
  assert (E : Qle_bool 0 x = Qle_bool 0 y).
  { destruct (Qle_bool 0 x) eqn:Ex, (Qle_bool 0 y) eqn:Ey; try reflexivity.
    - apply Qle_bool_iff in Ex. rewrite H in Ex. apply Qle_bool_iff in Ex. congruence.
    - apply Qle_bool_iff in Ey. rewrite <- H in Ey. apply Qle_bool_iff in Ey. congruence. }
  rewrite E. destruct (Qle_bool 0 y); [now rewrite H |].
  unfold Qceiling. now rewrite H.
Qed.

Lemma mod_bound (x : Q) (k : positive) :
  PyNum.mod_ x (inject_Z (Zpos k)) < inject_Z (Zpos k).
Proof.
  destruct (mod_floor x k) as [_ H].
  pose proof (Qlt_floor (PyNum.mod_ x (inject_Z (Z.pos k)))) as Hlt.
  rewrite H in Hlt.
  pose proof (Z.mod_pos_bound (Qfloor x) (Z.pos k) ltac:(lia)) as Hb.
  assert (Hc : inject_Z (Qfloor x mod Z.pos k + 1) <= inject_Z (Z.pos k)).
  { rewrite <- Zle_Qle. lia. }
  lra.
Qed.

Lemma negative_nonneg (x : Q) : 0 <= x -> Float64.negative x = false.
Proof.
  intros H. unfold Float64.negative. apply Qle_bool_iff in H. now rewrite H.
Qed.

(** On a dividend that is not negative, [%] is exact. *)
Lemma float_mod_nonneg (x : Q) (k : positive) :
  0 <= x ->
  Float64.mod_ x (inject_Z (Zpos k)) == PyNum.mod_ x (inject_Z (Zpos k)).
Proof.
  intros Hx.
  assert (Hq : 0 <= x / inject_Z (Z.pos k)).
  { apply Qle_shift_div_l; [reflexivity | lra]. }
  assert (E : Float64.fmod x (inject_Z (Z.pos k)) = PyNum.mod_ x (inject_Z (Z.pos k))).
  { unfold Float64.fmod, PyNum.mod_, PyNum.floordiv. now rewrite int_nonneg. }
  unfold Float64.mod_. rewrite E.
  destruct (Qeq_bool (PyNum.mod_ x (inject_Z (Z.pos k))) 0) eqn:E0.
  - apply Qeq_bool_iff in E0. now symmetry.
  - rewrite (negative_nonneg (inject_Z (Z.pos k))) by discriminate.
    rewrite negative_nonneg by apply mod_floor. reflexivity.
Qed.

Lemma inject_Z_float (z : Z) : (Z.abs z < 2 ^ 53)%Z -> forall x, x == inject_Z z ->
  Float64.round x == inject_Z z.
Proof.
  intros Hz x Hx. rewrite <- Hx. apply (round_exact x z 0); [| lia | exact Hz].
  rewrite Hx. change (2 ^ 0) with 1. ring.
Qed.

(** On a dividend that is not negative and below [2^53], [//] is exact. *)
Lemma float_floordiv_nonneg (x : Q) (k : positive) :
  0 <= x -> x < 2 ^ 53 ->
  Float64.floordiv x (inject_Z (Zpos k)) == inject_Z (Qfloor x / Zpos k).
Proof.
  intros Hx Hb.
  set (c := inject_Z (Z.pos k)). set (K := (Qfloor x / Z.pos k)%Z).
  assert (Hc : 0 < c) by reflexivity.
  assert (Hq : 0 <= x / c) by (apply Qle_shift_div_l; [exact Hc | lra]).
  assert (Hfx : (0 <= Qfloor x < 2 ^ 53)%Z).
  { split.
    - change 0%Z with (Qfloor 0). now apply Qfloor_resp_le.
    - pose proof (Qfloor_le x) as H.
      assert (H' : inject_Z (Qfloor x) < inject_Z (2 ^ 53)).
      { rewrite <- pow2_inject by lia. lra. }
      now rewrite <- Zlt_Qlt in H'. }
  assert (HK : (0 <= K /\ Z.pos k * K <= Qfloor x)%Z).
  { unfold K. split; [apply Z.div_pos; lia | apply Z.mul_div_le; lia]. }
  assert (HK53 : (Z.abs K < 2 ^ 53)%Z) by nia.
  assert (HkK53 : (Z.abs (Z.pos k * K) < 2 ^ 53)%Z) by lia.
  assert (E : Float64.fmod x c = PyNum.mod_ x c).
  { unfold Float64.fmod, PyNum.mod_, PyNum.floordiv. now rewrite int_nonneg. }
  assert (Em : PyNum.mod_ x c == x - c * inject_Z K).
  { unfold PyNum.mod_, PyNum.floordiv, c. now rewrite Qfloor_div_pos. }
  unfold Float64.floordiv. rewrite E.
  rewrite (negative_nonneg c) by (now apply Qlt_le_weak).
  rewrite (negative_nonneg (PyNum.mod_ x c)) by apply mod_floor.
  rewrite andb_false_r. cbv zeta.
  assert (Esub : Float64.sub x (PyNum.mod_ x c) == inject_Z (Z.pos k * K)).
  { unfold Float64.sub. apply inject_Z_float; [exact HkK53 |].
    rewrite Em, inject_Z_mult. unfold c. ring. }
  assert (Ediv : Float64.div (Float64.sub x (PyNum.mod_ x c)) c == inject_Z K).
  { unfold Float64.div. apply inject_Z_float; [exact HK53 |].
    rewrite Esub, inject_Z_mult. unfold c. field. discriminate. }
  set (d := Float64.div (Float64.sub x (PyNum.mod_ x c)) c) in *.
  destruct (Qeq_bool d 0) eqn:E0.
  - apply Qeq_bool_iff in E0. rewrite <- Ediv. now symmetry.
  - assert (Ef : Float64.floor d = inject_Z K).
    { unfold Float64.floor. now rewrite Ediv, Qfloor_Z. }
    rewrite Ef.
    assert (Ez : Float64.sub d (inject_Z K) = 0).
    { unfold Float64.sub. apply round_zero. rewrite Ediv. ring. }
    rewrite Ez. reflexivity.
Qed.


Lemma nearest_even_floor (y : Q) : (Qfloor y <= Float64.nearest_even y)%Z.
Proof.
  unfold Float64.nearest_even.
  destruct (Qcompare _ _); [destruct (Z.even _) | |]; lia.
Qed.

(** Rounding does not go below a whole number that the value reaches. *)
Lemma round_ge_int (y : Q) (n : Z) :
  (0 <= n)%Z -> y < 2 ^ 53 -> inject_Z n <= y -> inject_Z n <= Float64.round y.
Proof.
  intros Hn Hb Hy.
  assert (Hy0 : 0 <= y).
  { apply Qle_trans with (inject_Z n); [| exact Hy].
    change 0 with (inject_Z 0). now rewrite <- Zle_Qle. }
  destruct (Qeq_dec y 0) as [H0 | H0].
  { rewrite (round_zero y H0). now rewrite <- H0. }
  rewrite round_unfold by exact H0.
  set (e := Float64.exponent y).
  pose proof (pow2_pos e) as He. pose proof (pow2_neq e) as Hne.
  assert (He0 : (e <= 0)%Z).
  { assert (Hb' : Qabs y < 2 ^ 53) by (now rewrite Qabs_pos).
    pose proof (exponent_bound y 53 H0 Hb'). fold e in H. lia. }
  assert (EN : inject_Z n / 2 ^ e == inject_Z (n * 2 ^ (- e))).
  { rewrite inject_Z_mult, <- pow2_inject by lia.
    rewrite Qpower_opp. field. exact Hne. }
  assert (Hle : inject_Z (n * 2 ^ (- e)) <= y / 2 ^ e).
  { rewrite <- EN. unfold Qdiv. apply Qmult_le_compat_r; [exact Hy |].
    apply Qlt_le_weak, Qinv_lt_0_compat, He. }
  assert (Hf : (n * 2 ^ (- e) <= Float64.nearest_even (y / 2 ^ e))%Z).
  { etransitivity; [| apply nearest_even_floor].
    rewrite <- (Qfloor_Z (n * 2 ^ (- e))). now apply Qfloor_resp_le. }
  rewrite Zle_Qle in Hf.
  assert (E : inject_Z n == inject_Z (n * 2 ^ (- e)) * 2 ^ e).
  { rewrite <- EN. field. exact Hne. }
  rewrite E. apply Qmult_le_compat_r; [exact Hf | now apply Qlt_le_weak].
Qed.

(** The part of a float behind the point is at most a half, or at
    least [2^-53] below one. *)
Lemma float_fraction_gap (t : Q) :
  Float64.is_float t -> 0 <= t ->
  t - inject_Z (Qfloor t) <= 1 # 2
  \/ t - inject_Z (Qfloor t) <= 1 - (1 # 9007199254740992).
Proof.
  intros (m & g & Hg & Hm & Ht) H0.
  pose proof (Qfloor_le t) as Hlo. pose proof (Qlt_floor t) as Hhi.
  rewrite inject_Z_plus in Hhi. change (inject_Z 1) with 1 in Hhi.
  assert (HF : (0 <= Qfloor t)%Z).
  { change 0%Z with (Qfloor 0). now apply Qfloor_resp_le. }
  rewrite Zle_Qle in HF. change (inject_Z 0) with 0 in HF.
  destruct (Qlt_le_dec (1 # 2) (t - inject_Z (Qfloor t))) as [Hhalf | Hhalf];
    [right | now left].
  destruct (Z_lt_le_dec 0 g) as [Hpos | Hneg].
  { exfalso.
    assert (Ht' : t == inject_Z (m * 2 ^ g)).
    { rewrite Ht, inject_Z_mult, <- pow2_inject by lia. reflexivity. }
    assert (E : Qfloor t = (m * 2 ^ g)%Z) by (rewrite Ht'; apply Qfloor_Z).
    rewrite E in Hhalf. lra. }
  set (N := (2 ^ (- g))%Z).
  assert (HN : (0 < N)%Z) by (apply Z.pow_pos_nonneg; lia).
  assert (EN : 2 ^ g == / inject_Z N).
  { unfold N. rewrite <- pow2_inject by lia. rewrite Qpower_opp.
    rewrite Qinv_involutive. reflexivity. }
  assert (HNq : 0 < inject_Z N).
  { change 0 with (inject_Z 0). now rewrite <- Zlt_Qlt. }
  assert (Etm : t * inject_Z N == inject_Z m).
  { rewrite Ht, EN. field. intros E. rewrite E in HNq. now apply Qlt_irrefl in HNq. }
  set (a := t - inject_Z (Qfloor t)) in *.
  set (r := (m - Qfloor t * N)%Z).
  assert (Er : a * inject_Z N == inject_Z r).
  { unfold a, r, Z.sub. rewrite inject_Z_plus, inject_Z_opp, inject_Z_mult, <- Etm. ring. }
  assert (Ha1 : a < 1) by (unfold a; lra).
  assert (Hr : (r < N)%Z).
  { rewrite Zlt_Qlt, <- Er.
    assert (E1 : inject_Z N == 1 * inject_Z N) by ring.
    rewrite E1 at 2. now apply Qmult_lt_compat_r. }
  assert (Hr' : inject_Z r <= inject_Z N - 1).
  { change 1 with (inject_Z 1). unfold Qminus. rewrite <- inject_Z_opp, <- inject_Z_plus.
    rewrite <- Zle_Qle. lia. }
  assert (Hm' : inject_Z m < 2 ^ 53).
  { rewrite pow2_inject by lia. rewrite <- Zlt_Qlt. lia. }
  assert (HN54 : inject_Z N < 2 ^ 54).
  { assert (H1 : (1 # 2) * inject_Z N < t * inject_Z N).
    { apply Qmult_lt_compat_r; [exact HNq | unfold a in Hhalf; lra]. }
    rewrite Etm in H1. change (2 ^ 54) with (2 * 2 ^ 53). lra. }
  assert (Hg54 : (- g < 54)%Z).
  { apply pow2_lt_inv. unfold N in HN54. now rewrite <- pow2_inject in HN54 by lia. }
  assert (HN53 : inject_Z N <= 2 ^ 53).
  { unfold N. rewrite <- pow2_inject by lia. apply pow2_le. lia. }
  change (2 ^ 53) with 9007199254740992 in HN53.
  rewrite <- Er in Hr'.
  destruct (Qlt_le_dec (1 - (1 # 9007199254740992)) a) as [Hbig | Hok]; [| exact Hok].
  exfalso.
  assert (H2 : (1 - (1 # 9007199254740992)) * inject_Z N < a * inject_Z N).
  { now apply Qmult_lt_compat_r. }
  lra.
Qed.


(** The fields before the point are those of the whole seconds. *)
Lemma float_clock (x : Q) :
  0 <= x -> x < 2 ^ 53 ->
  let h := PyNum.int (Float64.floordiv x 3600) in
  let m := PyNum.int (Float64.floordiv (Float64.mod_ x 3600) 60) in
  let s := PyNum.int (Float64.mod_ x 60) in
  (0 <= h)%Z /\ (0 <= m < 60)%Z /\ (0 <= s < 60)%Z
  /\ (h * 3600 + m * 60 + s = Qfloor x)%Z.
Proof.
  intros Hx Hb h m s.
  assert (Hn : (0 <= Qfloor x)%Z).
  { change 0%Z with (Qfloor 0). now apply Qfloor_resp_le. }
  assert (Eh : h = (Qfloor x / 3600)%Z).
  { unfold h. change (Float64.floordiv x 3600) with (Float64.floordiv x (inject_Z 3600)).
    rewrite (int_comp _ _ (float_floordiv_nonneg x 3600 Hx Hb)).
    apply int_inject_Z. }
  pose proof (float_mod_nonneg x 3600 Hx) as E1.
  change (inject_Z 3600) with 3600 in E1.
  destruct (mod_floor x 3600) as [R0 RF]. pose proof (mod_bound x 3600) as RB.
  assert (Em : m = ((Qfloor x mod 3600) / 60)%Z).
  { unfold m.
    assert (H1 : 0 <= Float64.mod_ x 3600) by (now rewrite E1).
    assert (H2 : Float64.mod_ x 3600 < 2 ^ 53).
    { rewrite E1. change (2 ^ 53) with 9007199254740992.
      change (inject_Z 3600) with 3600 in RB. lra. }
    change (Float64.floordiv (Float64.mod_ x 3600) 60)
      with (Float64.floordiv (Float64.mod_ x 3600) (inject_Z 60)).
    rewrite (int_comp _ _ (float_floordiv_nonneg _ 60 H1 H2)), int_inject_Z.
    rewrite E1. change 3600 with (inject_Z 3600). now rewrite RF. }
  assert (Es : s = (Qfloor x mod 60)%Z).
  { unfold s. change (Float64.mod_ x 60) with (Float64.mod_ x (inject_Z 60)).
    rewrite (int_comp _ _ (float_mod_nonneg x 60 Hx)).
    destruct (mod_floor x 60) as [S0 SF]. now rewrite int_nonneg. }
  pose proof (Z.div_mod (Qfloor x) 3600).
  pose proof (Z.div_mod (Qfloor x mod 3600) 60).
  pose proof (Z.mod_pos_bound (Qfloor x) 3600).
  pose proof (Z.mod_pos_bound (Qfloor x mod 3600) 60).
  pose proof (Z.mod_pos_bound (Qfloor x) 60).
  assert ((Qfloor x mod 3600) mod 60 = Qfloor x mod 60)%Z.
  { apply (Z.mod_unique_pos (Qfloor x) 60
             (60 * (Qfloor x / 3600) + Qfloor x mod 3600 / 60)); lia. }
  rewrite Eh, Em, Es.
  split; [apply Z.div_pos; lia |].
  split; [split; [apply Z.div_pos; lia | apply Z.div_lt_upper_bound; lia] |].
  split; lia.
Qed.

(** The field behind the point: the part of a float behind the point,
    taken [c] times in floating point and cut to a whole number, stays
    below [c]; it is the exact count or, when the product rounds up to
    a whole number, one more. *)
Lemma float_fraction_scaled (x : Q) (n : positive) (k : Z) :
  Float64.is_float x -> 0 <= x ->
  2 ^ (k - 1) < inject_Z (Zpos n) -> inject_Z (Zpos n) <= 2 ^ k ->
  (-1021 <= k <= 53)%Z ->
  let a := x - inject_Z (Qfloor x) in
  let p := PyNum.int (Float64.mul (Float64.mod_ x 1) (inject_Z (Zpos n))) in
  (0 <= p < Zpos n)%Z
  /\ - 2 ^ (k - 54) <= a * inject_Z (Zpos n) - inject_Z p
  /\ a * inject_Z (Zpos n) - inject_Z p < 1.
Proof.
  intros Hf Hx Hlo Hhi Hk a p.
  set (c := inject_Z (Zpos n)) in *.
  assert (Hc : 0 < c) by reflexivity.
  pose proof (Qfloor_le x) as Flo. pose proof (Qlt_floor x) as Fhi.
  rewrite inject_Z_plus in Fhi. change (inject_Z 1) with 1 in Fhi.
  assert (Ha : 0 <= a /\ a < 1) by (unfold a; split; lra).
  assert (Efr : Float64.mod_ x 1 == a).
  { rewrite (float_mod_nonneg x 1 Hx). apply mod_one. }
  set (y := Float64.mod_ x 1 * c) in *.
  assert (Ey : y == a * c) by (unfold y; now rewrite Efr).
  assert (Hy0 : 0 <= y).
  { rewrite Ey. apply Qmult_le_0_compat; [tauto | now apply Qlt_le_weak]. }
  assert (Hyc : y < c).
  { rewrite Ey. assert (E1 : c == 1 * c) by ring. rewrite E1 at 2.
    apply Qmult_lt_compat_r; tauto. }
  set (P := Float64.round y).
  assert (HP0 : 0 <= P) by (now apply round_nonneg).
  assert (Herr : Qabs (P - y) <= 2 ^ (k - 54)).
  { assert (Hyk : Qabs y < 2 ^ k) by (rewrite Qabs_pos by exact Hy0; lra).
    pose proof (round_error_below y k Hyk) as H.
    replace (Z.max (k - 53) (-1074)) with (k - 53)%Z in H by lia.
    replace (k - 54)%Z with ((k - 53) + (-1))%Z by lia.
    rewrite pow2_add. exact H. }
  apply Qabs_Qle_condition in Herr. destruct Herr as [Herr1 Herr2].
  assert (EW : 2 ^ (k - 54) == 2 ^ (k - 1) * (1 # 9007199254740992)).
  { replace (k - 54)%Z with ((k - 1) + (-53))%Z by lia. now rewrite pow2_add. }
  pose proof (pow2_pos (k - 1)) as HW.
  set (err := 2 ^ (k - 54)) in *. set (W := 2 ^ (k - 1)) in *.
  assert (HPc : P < c).
  { destruct (float_fraction_gap x Hf Hx) as [G | G]; fold a in G.
    - assert (H : a * c <= (1 # 2) * c).
      { apply Qmult_le_compat_r; [exact G | now apply Qlt_le_weak]. }
      rewrite <- Ey in H. clearbody y P c a err W. lra.
    - assert (H : a * c <= (1 - (1 # 9007199254740992)) * c).
      { apply Qmult_le_compat_r; [exact G | now apply Qlt_le_weak]. }
      rewrite <- Ey in H. clearbody y P c a err W. lra. }
  assert (Ep : p = Qfloor P) by (unfold p, Float64.mul; now apply int_nonneg).
  pose proof (Qfloor_le P) as Plo.
  assert (Hp0 : (0 <= Qfloor P)%Z).
  { change 0%Z with (Qfloor 0). now apply Qfloor_resp_le. }
  assert (Hpn : (Qfloor P < Zpos n)%Z).
  { rewrite Zlt_Qlt. fold c. lra. }
  assert (Hq : (Qfloor y <= Qfloor P)%Z).
  { assert (H0 : (0 <= Qfloor y)%Z).
    { change 0%Z with (Qfloor 0). now apply Qfloor_resp_le. }
    assert (Hb : y < 2 ^ 53).
    { apply Qlt_le_trans with c; [exact Hyc |].
      apply Qle_trans with (2 ^ k); [exact Hhi | apply pow2_le; lia]. }
    pose proof (round_ge_int y (Qfloor y) H0 Hb (Qfloor_le y)) as H.
    fold P in H. rewrite <- (Qfloor_Z (Qfloor y)). now apply Qfloor_resp_le. }
  pose proof (Qlt_floor y) as Yhi.
  assert (Hq' : inject_Z (Qfloor y + 1) <= inject_Z (Qfloor P + 1)).
  { rewrite <- Zle_Qle. lia. }
  rewrite !inject_Z_plus in Hq'. rewrite inject_Z_plus in Yhi.
  change (inject_Z 1) with 1 in Hq', Yhi.
  rewrite Ep. split; [lia |]. rewrite <- Ey.
  clearbody y P c a err W. split; lra.
Qed.

(** What reading a time stamp back loses to rounding, for a time below
    [2^32] seconds: the division and the addition round once each. *)
Lemma read_back_error (S ms : Z) :
  (0 <= S < 2 ^ 32)%Z -> (0 <= ms < 1000)%Z ->
  Qabs (Float64.add (Float64.of_int S) (Float64.div (Float64.of_int ms) 1000)
        - (inject_Z S + inject_Z ms / 1000))
  <= (1 # 2097152) + (1 # 18014398509481984).
Proof.
  intros HS Hms.
  assert (ES : Float64.of_int S == inject_Z S).
  { apply inject_Z_float; [lia | reflexivity]. }
  assert (Ems : Float64.of_int ms == inject_Z ms).
  { apply inject_Z_float; [lia | reflexivity]. }
  assert (HSq : 0 <= inject_Z S /\ inject_Z S <= 4294967295).
  { change 0 with (inject_Z 0). change 4294967295 with (inject_Z 4294967295).
    rewrite <- !Zle_Qle. lia. }
  assert (Hmsq : 0 <= inject_Z ms /\ inject_Z ms <= 999).
  { change 0 with (inject_Z 0). change 999 with (inject_Z 999).
    rewrite <- !Zle_Qle. lia. }
  set (A := Float64.of_int S) in *. set (B := Float64.of_int ms) in *.
  set (x := B / 1000).
  assert (Ex : x == inject_Z ms / 1000) by (unfold x; now rewrite Ems).
  assert (Hx : 0 <= x /\ x < 1).
  { rewrite Ex. unfold Qdiv. change (/ 1000) with (1 # 1000). split; lra. }
  set (q := Float64.round x).
  assert (Hq : Qabs (q - x) <= 1 # 18014398509481984).
  { assert (H1 : Qabs x < 2 ^ 0).
    { rewrite Qabs_pos by tauto. change (2 ^ 0) with 1. tauto. }
    exact (round_error_below x 0 H1). }
  apply Qabs_Qle_condition in Hq.
  set (z := A + q).
  assert (Hz : Qabs z < 2 ^ 33).
  { apply Qabs_Qlt_condition. unfold z. rewrite ES.
    change (2 ^ 33) with 8589934592. split; lra. }
  pose proof (round_error_below z 33 Hz) as Hr.
  change (2 ^ Z.max (33 - 53) (-1074) * (1 # 2)) with (1 # 2097152) in Hr.
  apply Qabs_Qle_condition in Hr.
  unfold Float64.add, Float64.div. fold x q z.
  apply Qabs_Qle_condition.
  assert (Ez : z == inject_Z S + q) by (unfold z; now rewrite ES).
  unfold Qdiv in Ex. change (/ 1000) with (1 # 1000) in Ex.
  unfold Qdiv. change (/ 1000) with (1 # 1000).
  split; lra.
Qed.

End FloatFacts.

(** ** Time stamps *)

Section TimeStamps.

Local Open Scope Q_scope.

Lemma is_float_round (t : Q) :
  Float64.is_float t ->
  Float64.round t == t /\ Float64.is_float (Float64.round t).
Proof.
  intros (m & g & Hg & Hm & Ht).
  assert (E : Float64.round t == t) by (now apply (round_exact t m g)).
  split; [exact E |]. exists m, g. now rewrite E.
Qed.

(** C8. For a float [t] with [0 <= t < 2^32], the time stamp
    [HH:MM:SS,mmm] printed by [format_srt_time] reads back as four
    fields, in range.  The seconds they spell,
    [h * 3600 + m * 60 + s + ms / 1000], are less than a millisecond
    below [t] and at most [2^-53] above it; the float that Python
    computes from them is within a millisecond and [2^-20] seconds of
    [t]. *)
Theorem format_srt_time_round_trip (t : Q) :
  Float64.is_float t -> 0 <= t -> t < 4294967296 ->
  exists ts,
    Reader.read_srt_time (format_srt_time t) = Some ts
    /\ (0 <= hours ts)%Z /\ (0 <= minutes ts < 60)%Z /\ (0 <= seconds ts < 60)%Z
    /\ (0 <= milliseconds ts < 1000)%Z
    /\ - (1 # 9007199254740992) <= t - srt_seconds ts
    /\ t - srt_seconds ts < 1 # 1000
    /\ Qabs (t - srt_seconds_float ts) < (1 # 1000) + (1 # 1048576).
Proof.
  intros Hf Ht Hb.
  destruct (is_float_round t Hf) as [Ex Hfx].
  set (x := Float64.round t) in *.
  assert (Hx : 0 <= x) by (now rewrite Ex).
  assert (Hb53 : x < 2 ^ 53).
  { rewrite Ex. change (2 ^ 53) with 9007199254740992. lra. }
  destruct (float_clock x Hx Hb53) as (Hh & Hm & Hs & Hsum).
  destruct (float_fraction_scaled x 1000 10 Hfx Hx) as (Hms & Klo & Khi);
    [reflexivity | discriminate | lia |].
  change (2 ^ (10 - 54)) with (1 # 17592186044416) in Klo.
  change (inject_Z 1000) with 1000 in Hms, Klo, Khi.
  change (srt_time_fields t)
    with (SubRipTimeOf
            (PyNum.int (Float64.floordiv x 3600))
            (PyNum.int (Float64.floordiv (Float64.mod_ x 3600) 60))
            (PyNum.int (Float64.mod_ x 60))
            (PyNum.int (Float64.mul (Float64.mod_ x 1) 1000))) in *.
  set (h := PyNum.int (Float64.floordiv x 3600)) in *.
  set (m := PyNum.int (Float64.floordiv (Float64.mod_ x 3600) 60)) in *.
  set (s := PyNum.int (Float64.mod_ x 60)) in *.
  set (ms := PyNum.int (Float64.mul (Float64.mod_ x 1) 1000)) in *.
  exists (SubRipTimeOf h m s ms).
  split; [apply (read_srt_time_render (SubRipTimeOf h m s ms));
          cbn [hours minutes seconds milliseconds]; lia |].
  cbn [hours minutes seconds milliseconds].
  do 4 (split; [assumption |]).
  pose proof (Qfloor_le x) as Flo. pose proof (Qlt_floor x) as Fhi.
  rewrite inject_Z_plus in Fhi. change (inject_Z 1) with 1 in Fhi.
  assert (HS : (0 <= Qfloor x < 2 ^ 32)%Z).
  { split.
    - change 0%Z with (Qfloor 0). now apply Qfloor_resp_le.
    - rewrite Zlt_Qlt. change (inject_Z (2 ^ 32)) with 4294967296. lra. }
  pose proof (read_back_error (Qfloor x) ms HS Hms) as Hback.
  apply Qabs_Qle_condition in Hback.
  unfold srt_seconds, srt_seconds_float.
  cbn [hours minutes seconds milliseconds]. rewrite Hsum.
  set (back := Float64.add (Float64.of_int (Qfloor x))
                           (Float64.div (Float64.of_int ms) 1000)) in *.
  unfold Qdiv in *. change (/ 1000) with (1 # 1000) in *.
  clearbody back ms x.
  split; [lra |]. split; [lra |].
  apply Qabs_Qlt_condition. split; lra.
Qed.

End TimeStamps.

Lemma format_srt_time_round_trip_witness :
  exists ts,
    Reader.read_srt_time
      (format_srt_time (4509229126904709 # 1125899906842624)) = Some ts
    /\ (0 <= hours ts)%Z /\ (0 <= minutes ts < 60)%Z /\ (0 <= seconds ts < 60)%Z
    /\ (0 <= milliseconds ts < 1000)%Z
    /\ (- (1 # 9007199254740992)
        <= (4509229126904709 # 1125899906842624) - srt_seconds ts)%Q
    /\ ((4509229126904709 # 1125899906842624) - srt_seconds ts < 1 # 1000)%Q
    /\ (Qabs ((4509229126904709 # 1125899906842624) - srt_seconds_float ts)
        < (1 # 1000) + (1 # 1048576))%Q.
Proof.
  apply (format_srt_time_round_trip (4509229126904709 # 1125899906842624)).
  - exists 4509229126904709%Z, (-50)%Z. repeat split; vm_compute; congruence.
  - vm_compute. congruence.
  - vm_compute. reflexivity.
Defined.

(** C8, as the specification words it, does not hold: the float
    nearest to 4.005 prints as [00:00:04,004], and the float read back
    from that, the one nearest to 4.004, is more than a millisecond
    away. *)
Lemma format_srt_time_round_trip_off :
  ~ (forall t : Q,
       Float64.is_float t -> (0 <= t)%Q ->
       exists ts,
         Reader.read_srt_time (format_srt_time t) = Some ts
         /\ (Qabs (t - srt_seconds_float ts) <= 1 # 1000)%Q).
Proof.
  intros H.
  destruct (H (4509229126904709 # 1125899906842624)) as (ts & Hr & Hb).
  - exists 4509229126904709%Z, (-50)%Z. repeat split; vm_compute; congruence.
  - vm_compute. congruence.
  - vm_compute in Hr. injection Hr as <-.
    apply Qle_bool_iff in Hb. vm_compute in Hb. discriminate.
Qed.

Example format_srt_time_sample :
  format_srt_time (37235 # 10) = "01:02:03,500"
  /\ Reader.read_srt_time "01:02:03,500" = Some (SubRipTimeOf 1 2 3 500).
Proof. split; vm_compute; reflexivity. Qed.

(** The float nearest to 4.005, step by step: the text, the fields
    read back, their exact value 4.004 and the float of it. *)
Example format_srt_time_float_4_005 :
  let t := (4509229126904709 # 1125899906842624)%Q in
  format_srt_time t = "00:00:04,004"
  /\ Reader.read_srt_time "00:00:04,004" = Some (SubRipTimeOf 0 0 4 4)
  /\ (srt_seconds (SubRipTimeOf 0 0 4 4) == 4004 # 1000)%Q
  /\ (srt_seconds_float (SubRipTimeOf 0 0 4 4)
      == 2254051613498933 # 562949953421312)%Q
  /\ (t - srt_seconds_float (SubRipTimeOf 0 0 4 4)
      == 1125899906843 # 1125899906842624)%Q.
Proof. repeat split; vm_compute; reflexivity. Qed.

(** Above [2^32] seconds the float read back can be further away:
    [2^43 + 43/512] prints its part behind the point as [,083], and
    the sum read back is the float [2^43 + 42/512]. *)
Example format_srt_time_large_time :
  let t := (4503599627370539 # 512)%Q in
  format_srt_time t = "2443359172:50:08,083"
  /\ (t - srt_seconds_float (SubRipTimeOf 2443359172 50 8 83) == 1 # 512)%Q.
Proof. split; vm_compute; reflexivity. Qed.

(** ** The caption script *)






(** Scenario A from end to end: one clip without sound and the caption
    script; the second tier is used and the two cues are written as the
    full-line entries of the subtitle definition. *)
Example scenario_a_run :
  let st' := (process_videos Worlds.filing "t1"
                [JDict [("url", JStr "http://clips.example/a.mp4")]]
                (Some scenario_a_script) (initial_state ∅)).2 in
  Reader.read_script scenario_a_script = Some scenario_a_entries
  /\ drop 4 (trace st')
     = [EWrite "temp_files/webhook_subtitles_t1.srt" scenario_a_script;
        EPysrtOpen (Some "temp_files/webhook_subtitles_t1.srt");
        EWrite "temp_files/subtitles_t1.ass"
          (ass_header
           +:+ "Dialogue: 0,0:00:00.00,0:00:03.00,Default,,0,0,0,,Hello world"
           +:+ String PyStr.nl ""
           +:+ "Dialogue: 0,0:00:03.00,0:00:06.00,Default,,0,0,0,,Second line"
           +:+ String PyStr.nl "");
        EExists "temp_files/subtitles_t1.ass";
        ERun (ass_job "temp_files/combined_t1.mp4" "temp_files/subtitles_t1.ass"
                (final_output_path "t1") false)]
  /\ task st' !! "status" = Some (TStr "completed")
  /\ task st' !! "progress" = Some (TInt 100).
Proof. repeat split; reflexivity. Qed.

(** ** Word highlights *)

(** The offset is computed with [/], hence a [float], and cannot be
    printed with the code [d]. *)
Lemma create_word_highlight_effect_raises (word : string) (word_index total_words : nat) :
  create_word_highlight_effect word word_index total_words = Raise format_code_error.
Proof. reflexivity. Qed.

Lemma highlight_entry_raises (line : cue) (word_info : word_timing) :
  highlight_entry line word_info = Raise format_code_error.
Proof. reflexivity. Qed.

(** The words of [word_level_info] that qualify for a highlight in [line]. *)
Lemma add_word_highlights_loop_result (ass_content : string) (line : cue)
    (word_level_info : list word_timing) :
  add_word_highlights_loop ass_content line word_level_info =
  if existsb (fun word_info =>
                in_window line word_info
                && matches_token (PyStr.strip (w_word word_info))
                                 (PyStr.split (c_text line)))
             word_level_info
  then Raise format_code_error
  else Return ass_content.
Proof.
  induction word_level_info as [|word_info rest IH]; [reflexivity |].
  cbn [add_word_highlights_loop existsb].
  destruct (in_window line word_info
            && matches_token (PyStr.strip (w_word word_info)) (PyStr.split (c_text line))).
  - rewrite highlight_entry_raises. reflexivity.
  - exact IH.
Qed.

(** Whatever [create_ass_subtitles] gets to write holds the header and
    the full-line entries only. *)
Lemma ass_events_plain (word_level_info : option (list word_timing))
    (lines : list cue) (ass_content doc : string) :
  ass_events ass_content word_level_info lines = Return doc ->
  doc = fold_left (fun acc line => acc +:+ dialogue_entry line) lines ass_content.
Proof.
  revert ass_content. induction lines as [|line rest IH]; intros ass_content H.
  - now inversion H.
  - cbn [ass_events] in H. cbn [fold_left].
    destruct (if truthy_list word_level_info
              then add_word_highlights (ass_content +:+ dialogue_entry line) line
                     (some_list word_level_info)
              else Return tt) as [[]|e]; [| discriminate H].
    now apply IH.
Qed.

Lemma ass_document_plain (word_level_info : option (list word_timing))
    (line_level_subtitles : option (list cue)) (doc : string) :
  ass_document word_level_info line_level_subtitles = Return doc ->
  doc = fold_left (fun acc line => acc +:+ dialogue_entry line)
                  (some_list line_level_subtitles) ass_header.
Proof.
  unfold ass_document. destruct (truthy_list line_level_subtitles) eqn:E.
  - apply ass_events_plain.
  - intros H. inversion H.
    destruct line_level_subtitles as [[|]|]; [reflexivity | discriminate E | reflexivity].
Qed.

(** When the construction raises, nothing is written and the result
    is [None]. *)
Lemma create_ass_subtitles_raises (w : world) (task_id : string)
    (word_level_info : option (list word_timing))
    (line_level_subtitles : option (list cue)) (e : exception) (st : state) :
  ass_document word_level_info line_level_subtitles = Raise e ->
  create_ass_subtitles w task_id word_level_info line_level_subtitles st
  = (Return None, st).
Proof.
  intros H. unfold create_ass_subtitles, try_except, lift, mbind, M_bind.
  now rewrite H.
Qed.

(** C1, on the two words [Hello] (0 to 1 second) and [world] (1 to 2
    seconds) and the cue that the packer makes of them, [Hello world]
    from 0 to 2 seconds.  Both words start inside the cue and match one
    of its tokens, so each should get a highlight entry.  Building the
    first one raises: the definition is not written at all, and a whole
    run on a clip where these words are heard ends with a copy of the
    video without any subtitle file. *)
Theorem highlight_entry_not_written :
  let word_level_info := [WordTiming "Hello" 0 1; WordTiming "world" 1 2] in
  let line := Cue "Hello world" 0 2 in
  convert_to_line_level word_level_info = [line]
  /\ forallb (fun word_info =>
                in_window line word_info
                && matches_token (PyStr.strip (w_word word_info))
                                 (PyStr.split (c_text line)))
             word_level_info = true
  /\ ass_document (Some word_level_info) (Some [line]) = Raise format_code_error
  /\ (forall (w : world) (task_id : string) (st : state),
        create_ass_subtitles w task_id (Some word_level_info) (Some [line]) st
        = (Return None, st))
  /\ trace (process_videos (Worlds.speaking word_level_info) "t1"
              [JDict [("url", JStr "http://clips.example/a.mp4")]] None
              (initial_state ∅)).2
     = [EDownload (JStr "http://clips.example/a.mp4") "temp_files/video_part_0_t1.mp4"
          [("X-Experience-API-Version", JStr "1.0.3"); ("X-Video-Source", JStr "piapi");
           ("X-Video-Processing", JStr "automated")];
        EProbe "temp_files/video_part_0_t1.mp4";
        ERun (FfmpegJob [Video "temp_files/video_part_0_t1.mp4";
                         Audio "temp_files/video_part_0_t1.mp4"]
                        "temp_files/combined_t1.mp4"
                        [("vcodec", "libx264"); ("preset", "fast"); ("acodec", "aac")]);
        EProbe "temp_files/combined_t1.mp4";
        ERun (FfmpegJob [Audio "temp_files/combined_t1.mp4"] "temp_files/audio_t1.wav" []);
        ETranscribe "temp_files/audio_t1.wav";
        EExists "temp_files/audio_t1.wav";
        ERemove "temp_files/audio_t1.wav";
        ERun (copy_job "temp_files/combined_t1.mp4" (final_output_path "t1") true)].
Proof.
  split; [reflexivity |]. split; [reflexivity |]. split; [reflexivity |].
  split; [| reflexivity].
  intros w task_id st.
  now apply (create_ass_subtitles_raises w task_id _ _ format_code_error).
Qed.

(** ** Steps of the monad *)

Lemma after_after (st : state) (a b : list event) :
  after (after st a) b = after st (a ++ b).
Proof. unfold after. simpl. now rewrite app_assoc. Qed.


Lemma run_result (w : world) (job : ffmpeg_job) (st : state) :
  run w job st =
  (match ffmpeg_run w (trace st) job with
   | None => Return tt
   | Some e => Raise e
   end, after st [ERun job]).
Proof.
  unfold run, ask, check, mbind, M_bind, mret, M_ret, raise.
  now destruct (ffmpeg_run w (trace st) job).
Qed.

Lemma write_result (w : world) (path content : string) (st : state) :
  write w path content st =
  (match write_file w (trace st) path content with
   | None => Return tt
   | Some e => Raise e
   end, after st [EWrite path content]).
Proof.
  unfold write, ask, check, mbind, M_bind, mret, M_ret, raise.
  now destruct (write_file w (trace st) path content).
Qed.

Lemma create_simple_srt_result (w : world) (task_id : string) (lines : list cue)
    (st : state) :
  let srt_path := path_join TEMP_DIR ("simple_subtitles_" +:+ task_id +:+ ".srt") in
  create_simple_srt w task_id lines st =
  (match write_file w (trace st) srt_path (srt_document lines) with
   | None => Return (Some srt_path)
   | Some _ => Return None
   end, after st [EWrite srt_path (srt_document lines)]).
Proof.
  intros srt_path. unfold create_simple_srt, try_except, mbind, M_bind.
  rewrite write_result. fold srt_path.
  now destruct (write_file w (trace st) srt_path (srt_document lines)).
Qed.

Lemma bind_set_task {A} (key : string) (v : tval) (f : unit -> M A) (st : state) :
  (set_task key v ≫= f) st
  = f tt (State (trace st) (<[key := v]> (task st)) (progress st)).
Proof. reflexivity. Qed.

Lemma bind_set_progress {A} (p : Z) (f : unit -> M A) (st : state) :
  (set_progress p ≫= f) st
  = f tt (State (trace st) (<["progress" := TInt p]> (task st)) p).
Proof. reflexivity. Qed.

(** ** The fallback chain *)

(** What [create_fallback_video] does, case by case. *)
Lemma create_fallback_video_cases (w : world) (task_id video_path : string)
    (line_level_subtitles : option (list cue)) (has_audio : bool) (st : state) :
  let srt_path := path_join TEMP_DIR ("simple_subtitles_" +:+ task_id +:+ ".srt") in
  let doc := srt_document (some_list line_level_subtitles) in
  let out := fallback_output_path task_id in
  let finish (job : ffmpeg_job) (st1 : state) : outcome string * state :=
    (match ffmpeg_run w (trace st1) job with
     | None => Return out
     | Some e => Raise (critical e)
     end, after st1 [ERun job]) in
  create_fallback_video w task_id video_path line_level_subtitles has_audio st =
  if truthy_list line_level_subtitles then
    match write_file w (trace st) srt_path doc with
    | None => finish (srt_job video_path srt_path out has_audio) (after st [EWrite srt_path doc])
    | Some _ => finish (copy_job video_path out has_audio) (after st [EWrite srt_path doc])
    end
  else finish (copy_job video_path out has_audio) st.
Proof.
  intros srt_path doc out finish.
  unfold create_fallback_video, try_except, copy_video_without_subtitles.
  destruct (truthy_list line_level_subtitles).
  - unfold mbind at 1, M_bind at 1. unfold mbind at 1, M_bind at 1.
    rewrite create_simple_srt_result. fold srt_path doc.
    destruct (write_file w (trace st) srt_path doc); rewrite run_result; unfold finish;
      fold out; now destruct (ffmpeg_run _ _ _).
  - unfold mbind, M_bind. rewrite run_result. unfold finish. fold out.
    now destruct (ffmpeg_run _ _ _).
Qed.

(** C3, as amended.  In the fallback, a failing burn-in of the plain
    file ends the rendering at once with the critical error: no copy
    without subtitles is tried after it.  The copy without subtitles
    is what the fallback runs when the cues are absent or the plain
    file cannot be written, and its failure is the critical error as
    well. *)
Theorem fallback_burn_in_failure_is_fatal (w : world) (task_id video_path : string)
    (line_level_subtitles : option (list cue)) (has_audio : bool) (st : state)
    (e : exception) :
  let srt_path := path_join TEMP_DIR ("simple_subtitles_" +:+ task_id +:+ ".srt") in
  let doc := srt_document (some_list line_level_subtitles) in
  let out := fallback_output_path task_id in
  let burn := srt_job video_path srt_path out has_audio in
  let copy := copy_job video_path out has_audio in
  (truthy_list line_level_subtitles = true ->
   write_file w (trace st) srt_path doc = None ->
   ffmpeg_run w (trace st ++ [EWrite srt_path doc]) burn = Some e ->
   create_fallback_video w task_id video_path line_level_subtitles has_audio st
   = (Raise (critical e), after st [EWrite srt_path doc; ERun burn]))
  /\ (truthy_list line_level_subtitles = true ->
      write_file w (trace st) srt_path doc <> None ->
      create_fallback_video w task_id video_path line_level_subtitles has_audio st
      = (match ffmpeg_run w (trace st ++ [EWrite srt_path doc]) copy with
         | None => Return out
         | Some e' => Raise (critical e')
         end, after st [EWrite srt_path doc; ERun copy]))
  /\ (truthy_list line_level_subtitles = false ->
      create_fallback_video w task_id video_path line_level_subtitles has_audio st
      = (match ffmpeg_run w (trace st) copy with
         | None => Return out
         | Some e' => Raise (critical e')
         end, after st [ERun copy])).
Proof.
  intros srt_path doc out burn copy.
  pose proof (create_fallback_video_cases w task_id video_path line_level_subtitles
                has_audio st) as H.
  cbv zeta in H. fold srt_path doc out burn copy in H.
  repeat split.
  - intros Ht Hw Hr. rewrite H, Ht, Hw. cbn [trace after].
    now rewrite Hr, after_after.
  - intros Ht Hw. rewrite H, Ht.
    destruct (write_file w (trace st) srt_path doc); [| congruence].
    cbn [trace after]. now rewrite after_after.
  - intros Ht. now rewrite H, Ht.
Qed.

Lemma fallback_burn_in_failure_is_fatal_witness :
  create_fallback_video Worlds.engine_down "t1" "temp_files/combined_t1.mp4"
    (Some [Cue "hi" 0 1]) false (initial_state ∅)
  = (Raise (critical Worlds.engine_error),
     after (initial_state ∅)
       [EWrite "temp_files/simple_subtitles_t1.srt" (srt_document [Cue "hi" 0 1]);
        ERun (srt_job "temp_files/combined_t1.mp4" "temp_files/simple_subtitles_t1.srt"
                (fallback_output_path "t1") false)]).
Proof.
  apply (fallback_burn_in_failure_is_fatal Worlds.engine_down "t1"
           "temp_files/combined_t1.mp4" (Some [Cue "hi" 0 1]) false (initial_state ∅)
           Worlds.engine_error); reflexivity.
Defined.

(** C3, as stated, fails: with the cue [hi] and an engine that fails
    every run, the burn-in of the plain file fails and no run without
    subtitles follows. *)
Lemma fallback_burn_in_failure_no_copy :
  ~ (forall (w : world) (task_id video_path srt_path : string)
            (line_level_subtitles : option (list cue)) (has_audio : bool)
            (st : state) (h rest : list event) (e : exception),
       let burn := srt_job video_path srt_path (fallback_output_path task_id) has_audio in
       let tr := trace (create_fallback_video w task_id video_path
                          line_level_subtitles has_audio st).2 in
       tr = h ++ ERun burn :: rest ->
       ffmpeg_run w h burn = Some e ->
       exists job, ERun job ∈ tr /\ burns_subtitles job = false).
Proof.
  intros H.
  destruct (H Worlds.engine_down "t1" "temp_files/combined_t1.mp4"
              "temp_files/simple_subtitles_t1.srt" (Some [Cue "hi" 0 1]) false
              (initial_state ∅)
              [EWrite "temp_files/simple_subtitles_t1.srt" (srt_document [Cue "hi" 0 1])]
              [] Worlds.engine_error eq_refl eq_refl) as (job & Hin & Hb).
  vm_compute in Hin.
  apply elem_of_cons in Hin as [Hin | Hin]; [discriminate Hin |].
  apply elem_of_cons in Hin as [Hin | Hin]; [| inversion Hin].
  inversion Hin; subst job. discriminate Hb.
Qed.

(** ** The primary rendering *)

(** C2, as amended.  When the animated definition cannot be built (no
    file is produced), the renderer runs a copy of the video, and of
    the audio if present, without subtitles to the primary output, and
    returns that output when the run succeeds.  Only when this run
    fails does it go on: it raises when the error output of the engine
    cannot be decoded, and otherwise enters the fallback chain, whose
    first step, when there are cues, writes the plain time-stamped
    file made from the cues alone and, once written, burns it in with
    the simpler styling, towards the fallback output. *)
Theorem failed_definition_copies_without_subtitles (w : world)
    (task_id video_path : string) (word_level_info : option (list word_timing))
    (line_level_subtitles : option (list cue)) (has_audio : bool) (st st1 : state) :
  create_ass_subtitles w task_id word_level_info line_level_subtitles st
  = (Return None, st1) ->
  let render := create_scrolling_subtitles_video w task_id video_path word_level_info
                  line_level_subtitles has_audio st in
  let copy := copy_job video_path (final_output_path task_id) has_audio in
  let srt_path := path_join TEMP_DIR ("simple_subtitles_" +:+ task_id +:+ ".srt") in
  let doc := srt_document (some_list line_level_subtitles) in
  let burn := srt_job video_path srt_path (fallback_output_path task_id) has_audio in
  let st2 := after st1 [ERun copy] in
  match ffmpeg_run w (trace st1) copy with
  | None => render = (Return (final_output_path task_id), st2)
  | Some e =>
      match stderr_decode w (trace st2) e with
      | Some undecodable => render = (Raise undecodable, st2)
      | None =>
          render = create_fallback_video w task_id video_path line_level_subtitles
                     has_audio st2
          /\ (truthy_list line_level_subtitles = true ->
              write_file w (trace st2) srt_path doc = None ->
              render
              = (match ffmpeg_run w (trace st2 ++ [EWrite srt_path doc]) burn with
                 | None => Return (fallback_output_path task_id)
                 | Some e' => Raise (critical e')
                 end, after st2 [EWrite srt_path doc; ERun burn]))
      end
  end.
Proof.
  intros Hass render copy srt_path doc burn st2.
  assert (Hrender : render
                    = match ffmpeg_run w (trace st1) copy with
                      | None => (Return (final_output_path task_id), st2)
                      | Some e =>
                          match stderr_decode w (trace st2) e with
                          | Some undecodable => (Raise undecodable, st2)
                          | None =>
                              create_fallback_video w task_id video_path
                                line_level_subtitles has_audio st2
                          end
                      end).
  { unfold render, create_scrolling_subtitles_video, try_except.
    unfold mbind at 1, M_bind at 1. unfold mbind at 1, M_bind at 1.
    rewrite Hass. rewrite run_result. fold copy. fold st2.
    destruct (ffmpeg_run w (trace st1) copy) as [e |]; [| reflexivity].
    unfold mbind, M_bind, decode_stderr.
    now destruct (stderr_decode w (trace st2) e). }
  destruct (ffmpeg_run w (trace st1) copy) as [e |]; [| exact Hrender].
  destruct (stderr_decode w (trace st2) e) as [undecodable |]; [exact Hrender |].
  split; [exact Hrender |].
  intros Ht Hw. rewrite Hrender.
  pose proof (create_fallback_video_cases w task_id video_path line_level_subtitles
                has_audio st2) as H.
  cbv zeta in H. fold srt_path doc burn in H. rewrite Ht, Hw in H.
  rewrite H. cbn [trace after]. now rewrite after_after.
Qed.

Lemma failed_definition_copies_without_subtitles_witness :
  let copy := copy_job "temp_files/combined_t1.mp4" (final_output_path "t1") false in
  let srt_path := "temp_files/simple_subtitles_t1.srt" in
  let doc := srt_document [Cue "Hello world" 0 2] in
  let burn := srt_job "temp_files/combined_t1.mp4" srt_path (fallback_output_path "t1")
                false in
  create_scrolling_subtitles_video Worlds.primary_down "t1" "temp_files/combined_t1.mp4"
    (Some [WordTiming "Hello" 0 1; WordTiming "world" 1 2]) (Some [Cue "Hello world" 0 2])
    false (initial_state ∅)
  = (Return (fallback_output_path "t1"),
     after (initial_state ∅) [ERun copy; EWrite srt_path doc; ERun burn]).
Proof.
  exact (proj2 (failed_definition_copies_without_subtitles Worlds.primary_down "t1"
                  "temp_files/combined_t1.mp4"
                  (Some [WordTiming "Hello" 0 1; WordTiming "world" 1 2])
                  (Some [Cue "Hello world" 0 2]) false (initial_state ∅) (initial_state ∅)
                  eq_refl)
               eq_refl eq_refl).
Defined.

(** C2, as stated, fails: with the words [Hello] and [world] and their
    cue [Hello world] the animated definition is not built, there are
    cues, and yet the plain file is never written: the renderer
    returns a copy without subtitles. *)
Lemma failed_definition_skips_plain_file :
  ~ (forall (w : world) (task_id video_path : string)
            (word_level_info : option (list word_timing))
            (line_level_subtitles : option (list cue)) (has_audio : bool) (st : state),
       truthy_list line_level_subtitles = true ->
       (create_ass_subtitles w task_id word_level_info line_level_subtitles st).1
       = Return None ->
       exists content,
         EWrite (path_join TEMP_DIR ("simple_subtitles_" +:+ task_id +:+ ".srt")) content
         ∈ trace (create_scrolling_subtitles_video w task_id video_path word_level_info
                    line_level_subtitles has_audio st).2).
Proof.
  intros H.
  destruct (H (Worlds.calm []) "t1" "temp_files/combined_t1.mp4"
              (Some [WordTiming "Hello" 0 1; WordTiming "world" 1 2]) (Some [Cue "Hello world" 0 2]) false
              (initial_state ∅) eq_refl eq_refl) as (content & Hin).
  vm_compute in Hin.
  apply elem_of_cons in Hin as [Hin | Hin]; [discriminate Hin | inversion Hin].
Qed.

Example failed_definition_run :
  create_scrolling_subtitles_video (Worlds.calm []) "t1" "temp_files/combined_t1.mp4"
    (Some [WordTiming "Hello" 0 1; WordTiming "world" 1 2]) (Some [Cue "Hello world" 0 2]) true
    (initial_state ∅)
  = (Return "output_videos/final_scrolling_subtitles_t1.mp4",
     State [ERun (FfmpegJob [Video "temp_files/combined_t1.mp4";
                             Audio "temp_files/combined_t1.mp4"]
                            "output_videos/final_scrolling_subtitles_t1.mp4"
                            [("vcodec", "copy"); ("acodec", "copy")])]
           ∅ 0).
Proof. reflexivity. Qed.

(** ** Clip acquisition *)

Section NoClip.

Variable w : world.
Variable task_id : string.



End NoClip.

(** The run of Scenario C: one download attempt, then the error. *)
Example no_clip_run :
  let st' := (process_videos Worlds.offline "t1"
                [JDict [("url", JStr "http://clips.example/a.mp4")]; JStr "a sunny day"]
                None (initial_state ∅)).2 in
  trace st'
  = [EDownload (JStr "http://clips.example/a.mp4") "temp_files/video_part_0_t1.mp4"
       [("X-Experience-API-Version", JStr "1.0.3"); ("X-Video-Source", JStr "piapi");
        ("X-Video-Processing", JStr "automated")]]
  /\ task st' !! "error" = Some (TStr "Не удалось загрузить ни одного видео").
Proof. split; reflexivity. Qed.

(** ** What a computation adds to the trace *)

Section Extends.

Variable P : event -> Prop.













End Extends.

(** ** Rendering without audio *)

Section Silent.

Variable w : world.
Variable task_id : string.






End Silent.

(** ** The audio check *)


Lemma try_except_unit (m : M unit) (h : exception -> M unit) (st : state) :
  (forall e st1, (h e st1).1 = Return tt) ->
  (try_except m h st).1 = Return tt.
Proof.
  intros Hh. unfold try_except. destruct (m st) as [[[] | e] st1]; [reflexivity |].
  apply Hh.
Qed.

(** ** Plain strings as descriptors *)

Lemma full_text_parts_app (w : world) (l1 l2 : list json) :
  full_text_parts w (l1 ++ l2) = full_text_parts w l1 ++ full_text_parts w l2.
Proof. unfold full_text_parts. now rewrite map_app, concat_app. Qed.

(** C10.  A descriptor that is a plain string resolves to no address,
    so the acquisition loop passes over it without asking for a
    download and without adding a file; the text fallback takes the
    whole string as the clip's raw text and puts its sanitized form
    into the corpus (nothing when the string or its sanitized form is
    empty). *)
Theorem plain_string_descriptor (s : string) :
  extract_video_url (JStr s) = Return JNull
  /\ (forall (w : world) (task_id : string) (downloaded_files : list string)
             (i : nat) (st : state),
        download_one w task_id downloaded_files (i, JStr s) st
        = (Return downloaded_files, st))
  /\ (forall (w : world),
        current_raw_text w (JStr s) = JStr s
        /\ text_parts_of w (JStr s)
           = (if PyStr.truthy s && PyStr.truthy (clean_text_for_speech w (JStr s))
              then [clean_text_for_speech w (JStr s)] else [])
        /\ forall (before behind : list json),
             full_text_parts w (before ++ JStr s :: behind)
             = full_text_parts w before ++ text_parts_of w (JStr s)
               ++ full_text_parts w behind
             /\ extract_text_from_videos w (before ++ JStr s :: behind)
                = PyStr.join (String PyStr.nl (String PyStr.nl ""))
                    (full_text_parts w before ++ text_parts_of w (JStr s)
                     ++ full_text_parts w behind)).
Proof.
  split; [reflexivity |]. split; [reflexivity |].
  intros w. split; [reflexivity |]. split.
  - unfold text_parts_of. cbn [current_raw_text Py.truthy].
    now destruct (PyStr.truthy s).
  - intros before behind.
    assert (E : full_text_parts w (before ++ JStr s :: behind)
                = full_text_parts w before ++ text_parts_of w (JStr s)
                  ++ full_text_parts w behind).
    { change (JStr s :: behind) with ([JStr s] ++ behind).
      rewrite !full_text_parts_app.
      replace (full_text_parts w [JStr s]) with (text_parts_of w (JStr s));
        [reflexivity |].
      unfold full_text_parts. simpl. symmetry. apply app_nil_r. }
    split; [exact E |]. unfold extract_text_from_videos. now rewrite E.
Qed.

Example plain_string_corpus :
  extract_text_from_videos (Worlds.calm [])
    [JDict [("url", JStr "http://clips.example/a.mp4"); ("title", JStr "Harbour")];
     JStr "  a sunny day "]
  = "Harbour" +:+ String PyStr.nl (String PyStr.nl "") +:+ "a sunny day".
Proof. reflexivity. Qed.

(** * Further properties *)

(** ** The packer keeps every word, in order *)

Lemma lstrip_app_fixed (a y : string) :
  PyStr.lstrip a = a -> a <> "" -> PyStr.lstrip (a +:+ y) = a +:+ y.
Proof.
  destruct a as [|c a]; [congruence |]. intros H _.
  rewrite append_cons. simpl in *.
  destruct (PyStr.isspace c); [| reflexivity].
  pose proof (lstrip_length a) as Hl. rewrite H in Hl. simpl in Hl. lia.
Qed.

Lemma rstrip_app_fixed (y b : string) :
  PyStr.rstrip b = b -> b <> "" -> PyStr.rstrip (y +:+ b) = y +:+ b.
Proof.
  intros Hb Hne. induction y as [|c y IH]; [exact Hb |].
  rewrite append_cons. simpl. rewrite IH.
  destruct (y +:+ b) eqn:E; [| reflexivity].
  destruct y; [now rewrite append_nil in E | rewrite append_cons in E; discriminate E].
Qed.

Lemma token_trimmed (word_info : word_timing) :
  token word_info <> "" -> trimmed (token word_info).
Proof.
  intros Hne. unfold token in *. repeat split; [| | exact Hne].
  - unfold PyStr.strip. apply lstrip_fixed, rstrip_head, lstrip_head.
  - unfold PyStr.strip. apply rstrip_idem.
Qed.

Lemma strip_trimmed (s : string) : trimmed s -> PyStr.strip s = s.
Proof. intros (Hl & Hr & _). unfold PyStr.strip. now rewrite Hl, Hr. Qed.

Lemma app_not_empty (a b : string) : a <> "" -> a +:+ b <> "".
Proof. destruct a; [congruence | rewrite append_cons; discriminate]. Qed.

Lemma join_trimmed (l : list string) :
  Forall trimmed l -> l <> [] -> trimmed (PyStr.join " " l).
Proof.
  induction l as [|x l IH]; [congruence |]. intros Hall _.
  inversion Hall as [|? ? Hx Hl]; subst.
  destruct l as [|y l]; [exact Hx |].
  change (PyStr.join " " (x :: y :: l)) with (x +:+ " " +:+ PyStr.join " " (y :: l)).
  destruct Hx as (Hxl & Hxr & Hxn).
  destruct (IH Hl (ltac:(discriminate))) as (Hjl & Hjr & Hjn).
  repeat split.
  - now apply lstrip_app_fixed.
  - rewrite <- string_app_assoc. now apply rstrip_app_fixed.
  - now apply app_not_empty.
Qed.

Lemma join_snoc (l : list string) (t : string) :
  l <> [] -> PyStr.join " " (l ++ [t]) = PyStr.join " " l +:+ " " +:+ t.
Proof.
  induction l as [|x l IH]; [congruence |]. intros _.
  destruct l as [|y l]; [reflexivity |].
  change (PyStr.join " " ((x :: y :: l) ++ [t]))
    with (x +:+ " " +:+ PyStr.join " " ((y :: l) ++ [t])).
  rewrite IH by discriminate.
  change (PyStr.join " " (x :: y :: l)) with (x +:+ " " +:+ PyStr.join " " (y :: l)).
  now rewrite !string_app_assoc.
Qed.

Section PackerGroups.

Variable m : nat.

Lemma group_line_trimmed (g : list word_timing) :
  Forall (fun word_info => token word_info <> "") g -> g <> [] ->
  trimmed (PyStr.join " " (map token g)).
Proof.
  intros Hall Hne. apply join_trimmed.
  - apply Forall_fmap. eapply Forall_impl; [exact Hall |].
    intros x Hx. now apply token_trimmed.
  - now destruct g.
Qed.

Lemma flush_groups (seen : list word_timing) (gs : list (list word_timing))
    (g : list word_timing) (saved : list cue) (cur : string) (ls le : option Q) :
  Forall (fun word_info => token word_info <> "") seen ->
  seen = concat gs ++ g ->
  Forall2 cue_of_group gs saved ->
  group_line g cur ls le ->
  exists gs', seen = concat gs' /\ Forall2 cue_of_group gs' (flush (Packer saved cur ls le)).
Proof.
  intros Hall Hseen Hgs Hg. unfold flush. cbn [current_line line_level_subtitles].
  destruct Hg as [(-> & ->) | (first & final & Hh & Hl & -> & -> & ->)].
  - simpl. exists gs. now rewrite app_nil_r in Hseen.
  - assert (Hgne : g <> []) by (intros ->; discriminate Hh).
    assert (Hgall : Forall (fun word_info => token word_info <> "") g).
    { rewrite Hseen in Hall. now apply Forall_app in Hall as [_ ?]. }
    pose proof (group_line_trimmed g Hgall Hgne) as Htr.
    rewrite strip_app_space, (strip_trimmed _ Htr).
    destruct Htr as (_ & _ & Hne).
    destruct (PyStr.join " " (map token g)) eqn:E; [congruence |].
    cbn [PyStr.truthy String.eqb negb line_start line_end default].
    exists (gs ++ [g]). split.
    + rewrite concat_app. simpl. now rewrite app_nil_r.
    + apply Forall2_app; [exact Hgs |]. constructor; [| constructor].
      exists first, final. repeat split; try assumption. simpl. now rewrite E.
Qed.

Lemma packer_step_packing (seen : list word_timing) (p : packer)
    (word_info : word_timing) :
  Forall (fun word_info => token word_info <> "") seen ->
  token word_info <> "" ->
  packing seen p -> packing (seen ++ [word_info]) (packer_step m p word_info).
Proof.
  intros Hall Hne (gs & g & Hseen & Hgs & Hg & Hnone).
  unfold packer_step. fold (token word_info).
  destruct (String.length (current_line p +:+ token word_info) <=? m).
  - exists gs, (g ++ [word_info]). split; [now rewrite Hseen, app_assoc |].
    split; [exact Hgs |]. cbn [line_start line_end current_line].
    split; [| now destruct g].
    right.
    destruct Hg as [(-> & Hcur) | (first & final & Hh & Hl & Hcur & Hs & He)].
    + exists word_info, word_info. rewrite Hcur, (Hnone eq_refl). repeat split.
    + exists first, word_info. rewrite Hcur, Hs. repeat split.
      * destruct g; [discriminate Hh | exact Hh].
      * apply last_snoc.
      * rewrite map_app. cbn [map]. rewrite join_snoc.
        -- now rewrite !string_app_assoc.
        -- destruct g; [discriminate Hh | discriminate].
  - destruct (flush_groups seen gs g (line_level_subtitles p) (current_line p)
                match line_start p with
                | Some s => Some s
                | None => Some (w_start word_info)
                end (line_end p) Hall Hseen Hgs) as (gs' & Hseen' & Hgs').
    { destruct Hg as [(-> & Hcur) | (first & final & Hh & Hl & Hcur & Hs & He)].
      - now left.
      - right. exists first, final. now rewrite Hs. }
    exists gs', [word_info]. split; [now rewrite Hseen' |].
    split; [exact Hgs' |]. cbn [line_start line_end current_line].
    split; [| discriminate].
    right. exists word_info, word_info. repeat split.
Qed.

Lemma packer_fold_packing (ws seen : list word_timing) (p : packer) :
  Forall (fun word_info => token word_info <> "") (seen ++ ws) ->
  packing seen p -> packing (seen ++ ws) (fold_left (packer_step m) ws p).
Proof.
  revert seen p. induction ws as [|wi ws IH]; intros seen p Hall Hp; simpl.
  - now rewrite app_nil_r.
  - replace (seen ++ wi :: ws) with ((seen ++ [wi]) ++ ws) in * by now rewrite <- app_assoc.
    apply IH; [exact Hall |].
    apply Forall_app in Hall as [Hall _]. apply Forall_app in Hall as [Hseen Hwi].
    apply packer_step_packing; [exact Hseen | now inversion Hwi | exact Hp].
Qed.

End PackerGroups.

(** X1. When no word is blank, the packer cuts the word sequence into
    consecutive groups, one per cue and in order: the cue's text is its
    words joined by single spaces, it starts when its first word starts
    and ends when its last word ends.  No word is lost or repeated. *)
Theorem convert_to_line_level_groups (word_level_info : list word_timing) :
  Forall (fun word_info => PyStr.strip (w_word word_info) <> "") word_level_info ->
  exists groups,
    concat groups = word_level_info
    /\ Forall2
         (fun g c =>
            exists first final,
              head g = Some first /\ last g = Some final
              /\ c_text c = PyStr.join " " (map (fun w => PyStr.strip (w_word w)) g)
              /\ c_start c = w_start first /\ c_end c = w_end final)
         groups (convert_to_line_level word_level_info).
Proof.
  intros Hall.
  assert (H0 : packing [] packer_init).
  { exists [], []. repeat split; [constructor | now left]. }
  pose proof (packer_fold_packing 47 word_level_info [] packer_init Hall H0)
    as (gs & g & Hseen & Hgs & Hg & _).
  destruct (flush_groups _ gs g _ _ _ _ Hall Hseen Hgs Hg) as (gs' & Hseen' & Hgs').
  exists gs'. split; [now symmetry |].
  unfold convert_to_line_level, convert_to_line_level_with.
  destruct (fold_left (packer_step 47) word_level_info packer_init). exact Hgs'.
Qed.

Lemma convert_to_line_level_groups_witness :
  exists groups,
    concat groups = [WordTiming " Hello" 0 1; WordTiming "world" 1 2]
    /\ Forall2
         (fun g c =>
            exists first final,
              head g = Some first /\ last g = Some final
              /\ c_text c = PyStr.join " " (map (fun w => PyStr.strip (w_word w)) g)
              /\ c_start c = w_start first /\ c_end c = w_end final)
         groups (convert_to_line_level [WordTiming " Hello" 0 1; WordTiming "world" 1 2]).
Proof.
  apply (convert_to_line_level_groups [WordTiming " Hello" 0 1; WordTiming "world" 1 2]).
  repeat constructor; discriminate.
Defined.

(** ** The texts of the packer's cues *)

Lemma flush_texts (p : packer) :
  Forall (fun c => trimmed (c_text c)) (line_level_subtitles p) ->
  Forall (fun c => trimmed (c_text c)) (flush p).
Proof.
  intros H. unfold flush.
  destruct (PyStr.truthy (PyStr.strip (current_line p))) eqn:E; [| exact H].
  apply Forall_app. split; [exact H |]. constructor; [| constructor]. simpl.
  unfold PyStr.strip in *. repeat split.
  - apply lstrip_fixed, rstrip_head, lstrip_head.
  - apply rstrip_idem.
  - intros E0. rewrite E0 in E. discriminate E.
Qed.

Lemma packer_fold_texts (m : nat) (ws : list word_timing) (p : packer) :
  Forall (fun c => trimmed (c_text c)) (line_level_subtitles p) ->
  Forall (fun c => trimmed (c_text c))
         (line_level_subtitles (fold_left (packer_step m) ws p)).
Proof.
  revert p. induction ws as [|wi ws IH]; intros p Hp; [exact Hp |].
  apply IH. unfold packer_step.
  destruct (String.length (current_line p +:+ PyStr.strip (w_word wi)) <=? m);
    [exact Hp |].
  cbn [line_level_subtitles]. now apply flush_texts.
Qed.

Lemma packer_fold_blank (m : nat) (ws : list word_timing) (p : packer) :
  Forall (fun word_info => PyStr.strip (w_word word_info) = "") ws ->
  line_level_subtitles p = [] -> PyStr.strip (current_line p) = "" ->
  flush (fold_left (packer_step m) ws p) = [].
Proof.
  revert p. induction ws as [|wi ws IH]; intros p Hall Hl Hc.
  - simpl. unfold flush. now rewrite Hc, Hl.
  - inversion Hall as [|? ? Hwi Hws]; subst. apply IH; [exact Hws | |];
      unfold packer_step; rewrite Hwi;
      destruct (String.length (current_line p +:+ "") <=? m);
      cbn [line_level_subtitles current_line].
    + exact Hl.
    + unfold flush. cbn [current_line line_level_subtitles]. now rewrite Hc.
    + change ("" +:+ " ") with " ". now rewrite strip_app_space.
    + reflexivity.
Qed.

(** X2. Whatever the words, no cue of the packer has an empty text or
    a text that starts or ends with a blank; and words that are all
    blank give no cue at all. *)
Theorem convert_to_line_level_texts (word_level_info : list word_timing) :
  (forall c : cue,
     c ∈ convert_to_line_level word_level_info ->
     c_text c <> "" /\ PyStr.strip (c_text c) = c_text c)
  /\ (Forall (fun word_info => PyStr.strip (w_word word_info) = "") word_level_info ->
      convert_to_line_level word_level_info = []).
Proof.
  split.
  - intros c Hc.
    assert (H : Forall (fun c => trimmed (c_text c))
                       (convert_to_line_level word_level_info)).
    { apply flush_texts, packer_fold_texts. constructor. }
    rewrite Forall_forall in H. specialize (H c Hc).
    split; [apply H | now apply strip_trimmed].
  - intros Hall. now apply packer_fold_blank.
Qed.

Lemma convert_to_line_level_texts_witness :
  ("Hello world" <> "" /\ PyStr.strip "Hello world" = "Hello world")
  /\ convert_to_line_level [WordTiming "  " 0 1; WordTiming "" 1 2] = [].
Proof.
  split.
  - apply (proj1 (convert_to_line_level_texts
                    [WordTiming " Hello" 0 1; WordTiming "world" 1 2])
                 (Cue "Hello world" 0 2)).
    vm_compute. constructor.
  - apply (proj2 (convert_to_line_level_texts [WordTiming "  " 0 1; WordTiming "" 1 2])).
    repeat constructor.
Defined.

(** ** The text fallback keeps every word *)

Lemma blank_free_app (a b : string) :
  blank_free (a +:+ b) = blank_free a && blank_free b.
Proof.
  induction a as [|c a IH]; [reflexivity |].
  rewrite append_cons. simpl. rewrite IH. now rewrite andb_assoc.
Qed.

Lemma append_empty_r (a : string) : a +:+ "" = a.
Proof. induction a as [|c a IH]; [reflexivity | rewrite append_cons; now rewrite IH]. Qed.

Lemma split_go_word (cur w rest : string) :
  blank_free w = true ->
  PyStr.split_go cur (w +:+ rest) = PyStr.split_go (cur +:+ w) rest.
Proof.
  revert cur. induction w as [|c w IH]; intros cur Hw.
  - now rewrite append_nil, append_empty_r.
  - simpl in Hw. apply andb_true_iff in Hw as [Hc Hw].
    rewrite append_cons. simpl. apply negb_true_iff in Hc. rewrite Hc.
    rewrite IH by exact Hw. f_equal.
    rewrite string_app_assoc. now rewrite append_cons, append_nil.
Qed.

Lemma split_go_plain (cur s : string) :
  blank_free cur = true -> Forall plain_word (PyStr.split_go cur s).
Proof.
  revert cur. induction s as [|c s IH]; intros cur Hcur; simpl.
  - destruct cur; simpl; constructor; [| constructor]. split; [discriminate | exact Hcur].
  - destruct (PyStr.isspace c) eqn:Ec.
    + destruct cur; simpl; [now apply IH |].
      constructor; [split; [discriminate | exact Hcur] | now apply IH].
    + apply IH. rewrite blank_free_app, Hcur. simpl. now rewrite Ec.
Qed.

Lemma split_join (l : list string) :
  Forall plain_word l -> PyStr.split (PyStr.join " " l) = l.
Proof.
  unfold PyStr.split. induction l as [|x l IH]; [reflexivity |].
  intros Hall. inversion Hall as [|? ? [Hne Hx] Hl]; subst.
  destruct l as [|y l].
  - simpl PyStr.join.
    replace (PyStr.split_go "" x) with (PyStr.split_go "" (x +:+ ""))
      by now rewrite append_empty_r.
    rewrite split_go_word by exact Hx.
    rewrite append_nil. destruct x; [congruence | reflexivity].
  - change (PyStr.join " " (x :: y :: l)) with (x +:+ " " +:+ PyStr.join " " (y :: l)).
    rewrite split_go_word by exact Hx. rewrite append_nil.
    change (" " +:+ ?z) with (String " " z). simpl.
    destruct x; [congruence |]. simpl. f_equal. now apply IH.
Qed.

Lemma groups_go_concat {A} (fuel n : nat) (l : list A) :
  0 < n -> length l <= fuel ->
  concat (groups_go fuel n l) = l
  /\ Forall (fun g => 1 <= length g <= n) (groups_go fuel n l).
Proof.
  intros Hn. revert l. induction fuel as [|fuel IH]; intros l Hl.
  - destruct l; [split; [reflexivity | constructor] | simpl in Hl; lia].
  - destruct l as [|x l]; [split; [reflexivity | constructor] |].
    change (groups_go (S fuel) n (x :: l))
      with (take n (x :: l) :: groups_go fuel n (drop n (x :: l))).
    destruct (IH (drop n (x :: l))) as [Hc Hf].
    { rewrite length_drop. simpl in *. lia. }
    split.
    + simpl concat. rewrite Hc. apply take_drop.
    + constructor; [| exact Hf]. rewrite length_take. simpl length. lia.
Qed.

Lemma generate_subtitles_from_text_texts (text : string) :
  map c_text (generate_subtitles_from_text text)
  = map (PyStr.join " ") (groups_of 6 (PyStr.split text)).
Proof.
  apply list_eq. intros i. rewrite !list_lookup_fmap.
  rewrite generate_subtitles_from_text_lookup.
  now destruct (groups_of 6 (PyStr.split text) !! i).
Qed.

(** X4. The text fallback loses no word: the texts of its cues, split
    again and put end to end, are the words of the corpus in order.
    Every cue holds between one and six words, there are as many cues
    as groups of six (the last one may be shorter), each cue ends
    when the next one starts, and a corpus without any word gives no
    cue. *)
Theorem generate_subtitles_from_text_keeps_words (text : string) :
  let cues := generate_subtitles_from_text text in
  concat (map (fun c => PyStr.split (c_text c)) cues) = PyStr.split text
  /\ Forall (fun c => 1 <= length (PyStr.split (c_text c)) <= 6) cues
  /\ length cues = (length (PyStr.split text) + 5) / 6
  /\ (forall i c d, cues !! i = Some c -> cues !! (S i) = Some d -> c_end c = c_start d)
  /\ (PyStr.split text = [] -> cues = []).
Proof.
  intros cues.
  pose proof (generate_subtitles_from_text_texts text) as Htexts. fold cues in Htexts.
  destruct (groups_go_concat (length (PyStr.split text)) 6 (PyStr.split text))
    as [Hc Hf]; [lia | lia |]. fold (groups_of 6 (PyStr.split text)) in Hc, Hf.
  assert (Hplain : Forall (Forall plain_word) (groups_of 6 (PyStr.split text))).
  { apply Forall_forall. intros g Hg. apply Forall_forall. intros x Hx.
    pose proof (split_go_plain "" text eq_refl) as Hall.
    rewrite Forall_forall in Hall. apply Hall.
    fold (PyStr.split text). rewrite <- Hc. apply list_elem_of_In, in_concat.
    exists g. split; now apply list_elem_of_In. }
  assert (Hsplit : map (fun c => PyStr.split (c_text c)) cues
                   = groups_of 6 (PyStr.split text)).
  { change (fun c => PyStr.split (c_text c)) with (PyStr.split ∘ c_text).
    rewrite (list_fmap_compose c_text PyStr.split cues : map _ _ = map _ (map _ _)).
    rewrite Htexts, <- list_fmap_compose.
    rewrite <- (list_fmap_id (groups_of 6 (PyStr.split text))) at 2.
    apply Forall_fmap_ext. eapply Forall_impl; [exact Hplain |].
    intros g Hg. now apply split_join. }
  split; [| split; [| split; [| split]]].
  - rewrite <- Hc. f_equal. exact Hsplit.
  - apply Forall_fmap with (f := fun c => PyStr.split (c_text c))
                           (P := fun g => 1 <= length g <= 6).
    exact (eq_ind_r (Forall _) Hf Hsplit).
  - transitivity (length (groups_of 6 (PyStr.split text))).
    + rewrite <- (length_fmap (fun c => PyStr.split (c_text c)) cues).
      f_equal. exact Hsplit.
    + unfold groups_of. rewrite groups_go_lookup by lia.
      now rewrite length_fmap, length_seq.
  - intros i c d Hi Hsi. unfold cues in Hi, Hsi.
    rewrite generate_subtitles_from_text_lookup in Hi, Hsi.
    destruct (groups_of 6 (PyStr.split text) !! i); [| discriminate Hi].
    destruct (groups_of 6 (PyStr.split text) !! S i); [| discriminate Hsi].
    injection Hi as <-. injection Hsi as <-. simpl. f_equal. lia.
  - intros E. unfold cues, generate_subtitles_from_text. now rewrite E.
Qed.

Lemma generate_subtitles_from_text_keeps_words_witness :
  c_end (Cue "a b c d e f" 0 3) = c_start (Cue "g" 3 6)
  /\ generate_subtitles_from_text "  " = [].
Proof.
  split.
  - apply (proj1 (proj2 (proj2 (proj2
             (generate_subtitles_from_text_keeps_words "a b c d e f g")))) 0
             (Cue "a b c d e f" 0 3) (Cue "g" 3 6)); reflexivity.
  - apply (proj2 (proj2 (proj2 (proj2
             (generate_subtitles_from_text_keeps_words "  "))))).
    reflexivity.
Defined.

(** ** The times of a subtitle definition *)

Section AssTime.

Local Open Scope Q_scope.

(** X3. For a float [t] with [0 <= t < 2^53], [seconds_to_ass_time]
    prints [H:MM:SS.cc] with minutes and seconds below 60 and
    hundredths below 100.  The time that the text spells is less than
    a hundredth of a second below [t]: hundredths are cut, not
    rounded; it is at most [2^-53] above [t], which happens when the
    product by 100 rounds up to a whole number. *)
Theorem seconds_to_ass_time_round_trip (t : Q) :
  Float64.is_float t -> 0 <= t -> t < 9007199254740992 ->
  exists h m s cs,
    read_ass_time (seconds_to_ass_time t) = Some (h, m, s, cs)
    /\ (0 <= h)%Z /\ (0 <= m < 60)%Z /\ (0 <= s < 60)%Z /\ (0 <= cs < 100)%Z
    /\ - (1 # 9007199254740992)
       <= t - (inject_Z (h * 3600 + m * 60 + s) + inject_Z cs / 100)
    /\ t - (inject_Z (h * 3600 + m * 60 + s) + inject_Z cs / 100) < 1 # 100.
Proof.
  intros Hf Ht Hb.
  destruct (is_float_round t Hf) as [Ex Hfx].
  set (x := Float64.round t) in *.
  assert (Hx : 0 <= x) by (now rewrite Ex).
  assert (Hb53 : x < 2 ^ 53).
  { rewrite Ex. change (2 ^ 53) with 9007199254740992. exact Hb. }
  destruct (float_clock x Hx Hb53) as (Hh & Hm & Hs & Hsum).
  destruct (float_fraction_scaled x 100 7 Hfx Hx) as (Hcs & Klo & Khi);
    [reflexivity | discriminate | lia |].
  change (2 ^ (7 - 54)) with (1 # 140737488355328) in Klo.
  change (inject_Z 100) with 100 in Hcs, Klo, Khi.
  change (seconds_to_ass_time t)
    with (PyNum.format_d 1 (PyNum.int (Float64.floordiv x 3600)) +:+ ":"
          +:+ PyNum.format_d 2 (PyNum.int (Float64.floordiv (Float64.mod_ x 3600) 60))
          +:+ ":" +:+ PyNum.format_d 2 (PyNum.int (Float64.mod_ x 60)) +:+ "."
          +:+ PyNum.format_d 2 (PyNum.int (Float64.mul (Float64.mod_ x 1) 100)))%string.
  set (h := PyNum.int (Float64.floordiv x 3600)) in *.
  set (m := PyNum.int (Float64.floordiv (Float64.mod_ x 3600) 60)) in *.
  set (s := PyNum.int (Float64.mod_ x 60)) in *.
  set (cs := PyNum.int (Float64.mul (Float64.mod_ x 1) 100)) in *.
  exists h, m, s, cs.
  split.
  - unfold read_ass_time. rewrite !append_one.
    rewrite !split_once_digits by (reflexivity || (apply format_d_digits_only; lia)).
    rewrite !read_digits_format_d by lia. reflexivity.
  - do 4 (split; [assumption |]).
    rewrite Hsum. unfold Qdiv. change (/ 100) with (1 # 100).
    pose proof (Qfloor_le x) as Flo.
    clearbody cs x. split; lra.
Qed.

End AssTime.

Lemma seconds_to_ass_time_round_trip_witness :
  exists h m s cs,
    read_ass_time (seconds_to_ass_time (5224175567749775 # 9007199254740992))
    = Some (h, m, s, cs)
    /\ (0 <= h)%Z /\ (0 <= m < 60)%Z /\ (0 <= s < 60)%Z /\ (0 <= cs < 100)%Z
    /\ (- (1 # 9007199254740992)
        <= (5224175567749775 # 9007199254740992)
           - (inject_Z (h * 3600 + m * 60 + s) + inject_Z cs / 100))%Q
    /\ ((5224175567749775 # 9007199254740992)
        - (inject_Z (h * 3600 + m * 60 + s) + inject_Z cs / 100) < 1 # 100)%Q.
Proof.
  apply (seconds_to_ass_time_round_trip (5224175567749775 # 9007199254740992)).
  - exists 5224175567749775%Z, (-53)%Z. repeat split; vm_compute; congruence.
  - vm_compute. congruence.
  - vm_compute. reflexivity.
Defined.

(** The floats nearest to 0.58, 0.03 and 3723.57: the first prints a
    hundredth less than its decimal name, the second prints [.03],
    which is above the float. *)
Example seconds_to_ass_time_samples :
  seconds_to_ass_time (5224175567749775 # 9007199254740992) = "0:00:00.57"
  /\ seconds_to_ass_time (1080863910568919 # 36028797018963968) = "0:00:00.03"
  /\ ((1080863910568919 # 36028797018963968) < 3 # 100)%Q
  /\ seconds_to_ass_time (8188217023675761 # 2199023255552) = "1:02:03.57".
Proof. repeat split; vm_compute; reflexivity. Qed.

(** ** Rules of the program logic *)

Section Logic.

Variable R : state -> state -> Prop.
Hypothesis R_refl : forall st, R st st.
Hypothesis R_trans : forall a b c, R a b -> R b c -> R a c.

Lemma post_ret {A} (Q : A -> Prop) (E : exception -> Prop) (a : A) :
  Q a -> has_post R Q E (mret a : M A).
Proof. intros H st. split; [apply R_refl | exact H]. Qed.

Lemma post_raise {A} (Q : A -> Prop) (E : exception -> Prop) (e : exception) :
  E e -> has_post R Q E (raise e : M A).
Proof. intros H st. split; [apply R_refl | exact H]. Qed.

Lemma post_lift {A} (Q : A -> Prop) (E : exception -> Prop) (o : outcome A) :
  match o with Return a => Q a | Raise e => E e end -> has_post R Q E (lift o).
Proof. intros H st. split; [apply R_refl | exact H]. Qed.

Lemma post_ask {A} (Q : A -> Prop) (E : exception -> Prop) (ev : event)
    (answer : list event -> A) :
  (forall st, R st (after st [ev])) -> (forall h, Q (answer h)) ->
  has_post R Q E (ask ev answer).
Proof. intros HR HQ st. split; [apply HR | apply HQ]. Qed.

Lemma post_bind {A B} (Q : A -> Prop) (Q' : B -> Prop) (E : exception -> Prop)
    (m : M A) (f : A -> M B) :
  has_post R Q E m -> (forall a, Q a -> has_post R Q' E (f a)) ->
  has_post R Q' E (m ≫= f).
Proof.
  intros Hm Hf st. unfold mbind, M_bind.
  destruct (Hm st) as [HR Hres]. destruct (m st) as [[a | e] st1]; simpl in *.
  - destruct (Hf a Hres st1) as [HR' Hres']. split; [| exact Hres'].
    eapply R_trans; [exact HR | exact HR'].
  - split; assumption.
Qed.

Lemma post_try {A} (Q : A -> Prop) (E E' : exception -> Prop)
    (m : M A) (h : exception -> M A) :
  has_post R Q E m -> (forall e, E e -> has_post R Q E' (h e)) ->
  has_post R Q E' (try_except m h).
Proof.
  intros Hm Hh st. unfold try_except.
  destruct (Hm st) as [HR Hres]. destruct (m st) as [[a | e] st1]; simpl in *.
  - split; assumption.
  - destruct (Hh e Hres st1) as [HR' Hres']. split; [| exact Hres'].
    eapply R_trans; [exact HR | exact HR'].
Qed.

Lemma post_weaken {A} (Q Q' : A -> Prop) (E E' : exception -> Prop) (m : M A) :
  has_post R Q E m -> (forall a, Q a -> Q' a) -> (forall e, E e -> E' e) ->
  has_post R Q' E' m.
Proof.
  intros Hm HQ HE st. destruct (Hm st) as [HR Hres]. split; [exact HR |].
  destruct (m st).1; [now apply HQ | now apply HE].
Qed.

Lemma post_check (E : exception -> Prop) (r : option exception) :
  (forall e, r = Some e -> E e) -> has_post R (fun _ : unit => True) E (check r).
Proof.
  intros H. destruct r as [e |]; [apply post_raise; now apply H | now apply post_ret].
Qed.

Lemma post_for_fold {A S} (I : S -> Prop) (E : exception -> Prop)
    (l : list A) (body : S -> A -> M S) (s : S) :
  (forall s x, x ∈ l -> I s -> has_post R I E (body s x)) -> I s ->
  has_post R I E (for_fold l body s).
Proof.
  revert s. induction l as [|x l IH]; intros s Hbody Hs.
  - now apply post_ret.
  - cbn [for_fold]. eapply post_bind.
    + apply Hbody; [now left | exact Hs].
    + intros s' Hs'. apply IH; [| exact Hs'].
      intros s0 y Hy. apply Hbody. now right.
Qed.

End Logic.

Lemma touches_refl (P : event -> Prop) (st : state) : touches P st st.
Proof.
  repeat split. exists []. split; [symmetry; apply app_nil_r | constructor].
Qed.

Lemma touches_trans (P : event -> Prop) (a b c : state) :
  touches P a b -> touches P b c -> touches P a c.
Proof.
  intros (Ht & Hp & n1 & E1 & F1) (Ht' & Hp' & n2 & E2 & F2).
  split; [congruence |]. split; [congruence |].
  exists (n1 ++ n2). split; [now rewrite E2, E1, app_assoc | now apply Forall_app].
Qed.

Lemma touches_after (P : event -> Prop) (ev : event) (st : state) :
  P ev -> touches P st (after st [ev]).
Proof. intros H. repeat split. exists [ev]. split; [reflexivity | now constructor]. Qed.

Lemma touches_impl (P P' : event -> Prop) (a b : state) :
  (forall ev, P ev -> P' ev) -> touches P a b -> touches P' a b.
Proof.
  intros H (Ht & Hp & n & E & F). repeat split; try assumption.
  exists n. split; [exact E |]. eapply Forall_impl; [exact F | exact H].
Qed.

(** ** What each stage asks of the outside *)

Section Stages.

Variable w : world.
Variable task_id : string.

Lemma task_file_temp (stem ext : string) :
  task_file task_id (path_join TEMP_DIR (stem +:+ task_id +:+ ext)).
Proof. exists stem, ext. now left. Qed.

Lemma task_file_output (stem ext : string) :
  task_file task_id (path_join OUTPUT_DIR (stem +:+ task_id +:+ ext)).
Proof. exists stem, ext. now right. Qed.

Lemma task_file_part (i : nat) :
  task_file task_id
    (path_join TEMP_DIR ("video_part_" +:+ PyNum.str_nat i +:+ "_" +:+ task_id +:+ ".mp4")).
Proof.
  exists ("video_part_" +:+ PyNum.str_nat i +:+ "_"), ".mp4". left.
  now rewrite !string_app_assoc.
Qed.

Lemma task_file_final : task_file task_id (final_output_path task_id).
Proof. apply task_file_output. Qed.

Lemma task_file_fallback : task_file task_id (fallback_output_path task_id).
Proof. apply task_file_output. Qed.

Lemma task_file_combined : task_file task_id (combined_path task_id).
Proof. apply task_file_temp. Qed.

Lemma tidy_copy_job (video_path output_path : string) (has_audio : bool) :
  task_file task_id video_path -> task_file task_id output_path ->
  tidy task_id (ERun (copy_job video_path output_path has_audio)).
Proof.
  intros Hv Ho. split; [split; [exact Ho |] | right].
  - destruct has_audio; repeat constructor; assumption.
  - destruct has_audio; split; reflexivity.
Qed.

Lemma tidy_ass_job (video_path ass_path output_path : string) (has_audio : bool) :
  task_file task_id video_path -> task_file task_id ass_path ->
  task_file task_id output_path ->
  tidy task_id (ERun (ass_job video_path ass_path output_path has_audio)).
Proof.
  intros Hv Ha Ho. split; [split; [exact Ho |] | right].
  - destruct has_audio; repeat constructor; assumption.
  - destruct has_audio; split; reflexivity.
Qed.

Lemma tidy_srt_job (video_path srt_path output_path : string) (has_audio : bool) :
  task_file task_id video_path -> task_file task_id srt_path ->
  task_file task_id output_path ->
  tidy task_id (ERun (srt_job video_path srt_path output_path has_audio)).
Proof.
  intros Hv Ha Ho. split; [split; [exact Ho |] | right].
  - destruct has_audio; repeat constructor; assumption.
  - destruct has_audio; split; reflexivity.
Qed.

Section Rules.

Variable P : event -> Prop.

Lemma post_asked {A} (E : exception -> Prop) (ev : event) (answer : list event -> A) :
  P ev -> has_post (touches P) (fun _ : A => True) E (ask ev answer).
Proof.
  intros H. apply post_ask; [intros st; now apply touches_after | trivial].
Qed.

Lemma post_run (job : ffmpeg_job) :
  P (ERun job) ->
  has_post (touches P) (fun _ : unit => True) (fun _ => True) (run w job).
Proof.
  intros H. apply (post_bind _ (touches_trans P) (fun _ => True)).
  - now apply post_asked.
  - intros r _. apply post_check; [apply touches_refl | trivial].
Qed.

Lemma post_write (path content : string) :
  P (EWrite path content) ->
  has_post (touches P) (fun _ : unit => True) (fun _ => True) (write w path content).
Proof.
  intros H. apply (post_bind _ (touches_trans P) (fun _ => True)).
  - now apply post_asked.
  - intros r _. apply post_check; [apply touches_refl | trivial].
Qed.

Lemma bindP {A B} (Q : A -> Prop) (Q' : B -> Prop) (E : exception -> Prop)
    (m : M A) (f : A -> M B) :
  has_post (touches P) Q E m -> (forall a, Q a -> has_post (touches P) Q' E (f a)) ->
  has_post (touches P) Q' E (m ≫= f).
Proof. apply post_bind, touches_trans. Qed.

Lemma tryP {A} (Q : A -> Prop) (E E' : exception -> Prop)
    (m : M A) (h : exception -> M A) :
  has_post (touches P) Q E m -> (forall e, E e -> has_post (touches P) Q E' (h e)) ->
  has_post (touches P) Q E' (try_except m h).
Proof. apply post_try, touches_trans. Qed.

Lemma retP {A} (Q : A -> Prop) (E : exception -> Prop) (a : A) :
  Q a -> has_post (touches P) Q E (mret a : M A).
Proof. apply post_ret, touches_refl. Qed.

Lemma raiseP {A} (Q : A -> Prop) (E : exception -> Prop) (e : exception) :
  E e -> has_post (touches P) Q E (raise e : M A).
Proof. apply post_raise, touches_refl. Qed.

Lemma liftP {A} (Q : A -> Prop) (E : exception -> Prop) (o : outcome A) :
  match o with Return a => Q a | Raise e => E e end ->
  has_post (touches P) Q E (lift o).
Proof. apply post_lift, touches_refl. Qed.

Lemma post_decode (e : exception) :
  has_post (touches P) (fun _ : unit => True) (render_error w) (decode_stderr w e).
Proof.
  intros st. split; [apply touches_refl |]. unfold decode_stderr. cbn [fst].
  destruct (stderr_decode w (trace st) e) as [undecodable |] eqn:E; [| exact I].
  right. now exists (trace st), e.
Qed.

(** A [try] whose handler returns [a] whatever was raised. *)
Lemma guardedP {A} (Q : A -> Prop) (m : M A) (a : A) :
  has_post (touches P) Q (fun _ => True) m -> Q a ->
  has_post (touches P) Q (fun _ => False) (try_except m (fun _ => mret a)).
Proof.
  intros Hm Ha. eapply tryP; [exact Hm |]. intros e _. now apply retP.
Qed.

End Rules.

Abbreviation R := (touches (tidy task_id)).

Lemma tidy_file_event (ev : event) :
  in_task_files task_id ev ->
  match ev with ERun _ => False | _ => True end ->
  tidy task_id ev.
Proof. intros H Hk. split; [exact H |]. now destruct ev. Qed.

Lemma check_audio_exists_post (video_path : string) :
  task_file task_id video_path ->
  has_post R (fun _ => True) (fun _ => False) (check_audio_exists w video_path).
Proof.
  intros Hp. apply guardedP; [| trivial].
  apply (bindP _ (fun _ => True)).
  - apply post_asked. now apply tidy_file_event.
  - intros probe _. apply (bindP _ (fun _ => True)).
    + apply liftP. now destruct probe.
    + intros streams _. apply liftP. now destruct (any_audio streams).
Qed.

Lemma extract_word_timestamps_post (video_path : string) :
  task_file task_id video_path ->
  has_post R (fun _ => True) (fun _ => False) (extract_word_timestamps w task_id video_path).
Proof.
  intros Hp. apply guardedP; [| trivial].
  destruct (negb (whisper_available w)); [now apply retP |].
  apply (bindP _ (fun _ => True)).
  - apply post_run. split; [split; [apply task_file_temp | now repeat constructor] |].
    left. now eexists.
  - intros _ _. apply (bindP _ (fun _ => True)).
    + apply post_asked. apply tidy_file_event; [apply task_file_temp | exact I].
    + intros words _. apply (bindP _ (fun _ => True)).
      * apply liftP. now destruct words.
      * intros ws _. apply (bindP _ (fun _ => True)).
        -- apply post_asked. apply tidy_file_event; [apply task_file_temp | exact I].
        -- intros there _. apply (bindP _ (fun _ => True)); [| intros; now apply retP].
           destruct there; [| now apply retP].
           apply (bindP _ (fun _ => True)).
           ++ apply post_asked. apply tidy_file_event; [apply task_file_temp | exact I].
           ++ intros r _. apply post_check; [apply touches_refl | trivial].
Qed.


Lemma save_subtitles_from_webhook_post (content : string) :
  has_post R (maybe_task_file task_id) (fun _ => False)
           (save_subtitles_from_webhook w task_id content).
Proof.
  apply guardedP; [| exact I].
  apply (bindP _ (fun _ => True)).
  - apply post_write. apply tidy_file_event; [apply task_file_temp | exact I].
  - intros _ _. apply retP. apply task_file_temp.
Qed.

Lemma parse_srt_to_line_level_post (srt_path : option string) :
  maybe_task_file task_id srt_path ->
  has_post R (fun _ => True) (fun _ => False) (parse_srt_to_line_level w srt_path).
Proof.
  intros Hp. apply guardedP; [| trivial].
  apply (bindP _ (fun _ => True)).
  - apply post_asked. apply tidy_file_event; [| exact I]. now destruct srt_path.
  - intros subs _. apply (bindP _ (fun _ => True)); [| intros; now apply retP].
    apply liftP. now destruct subs.
Qed.

Lemma create_ass_subtitles_post (word_level_info : option (list word_timing))
    (line_level_subtitles : option (list cue)) :
  has_post R (maybe_task_file task_id) (fun _ => False)
           (create_ass_subtitles w task_id word_level_info line_level_subtitles).
Proof.
  apply guardedP; [| exact I].
  apply (bindP _ (fun _ => True)).
  - apply liftP. now destruct (ass_document _ _).
  - intros doc _. apply (bindP _ (fun _ => True)).
    + apply post_write. apply tidy_file_event; [apply task_file_temp | exact I].
    + intros _ _. apply retP. apply task_file_temp.
Qed.

Lemma create_simple_srt_post (lines : list cue) :
  has_post R (maybe_task_file task_id) (fun _ => False)
           (create_simple_srt w task_id lines).
Proof.
  apply guardedP; [| exact I].
  apply (bindP _ (fun _ => True)).
  - apply post_write. apply tidy_file_event; [apply task_file_temp | exact I].
  - intros _ _. apply retP. apply task_file_temp.
Qed.

Lemma create_fallback_video_post (video_path : string)
    (line_level_subtitles : option (list cue)) (has_audio : bool) :
  task_file task_id video_path ->
  has_post R (fun r => r = fallback_output_path task_id) is_critical
           (create_fallback_video w task_id video_path line_level_subtitles has_audio).
Proof.
  intros Hp. eapply tryP; [| intros e _; apply raiseP; now exists e].
  apply (bindP _ (fun _ => True)); [| intros; now apply retP].
  destruct (truthy_list line_level_subtitles).
  - apply (bindP _ (maybe_task_file task_id)).
    + eapply post_weaken; [apply create_simple_srt_post | trivial | intros e []].
    + intros [srt_path |] Hs; apply post_run.
      * apply tidy_srt_job; [exact Hp | exact Hs | apply task_file_fallback].
      * apply tidy_copy_job; [exact Hp | apply task_file_fallback].
  - apply post_run. apply tidy_copy_job; [exact Hp | apply task_file_fallback].
Qed.

Lemma create_scrolling_subtitles_video_post (video_path : string)
    (word_level_info : option (list word_timing))
    (line_level_subtitles : option (list cue)) (has_audio : bool) :
  task_file task_id video_path ->
  has_post R (fun r => r = final_output_path task_id \/ r = fallback_output_path task_id)
           (render_error w)
           (create_scrolling_subtitles_video w task_id video_path word_level_info
              line_level_subtitles has_audio).
Proof.
  intros Hp. eapply tryP.
  - apply (bindP _ (maybe_task_file task_id)).
    + eapply post_weaken; [apply create_ass_subtitles_post | trivial | intros e []].
    + intros ass_path Ha.
      apply (bindP _ (fun _ => True)); [| intros; apply retP; now left].
      destruct ass_path as [ass_path |].
      * apply (bindP _ (fun _ => True)).
        -- apply post_asked. now apply tidy_file_event.
        -- intros [] _; apply post_run.
           ++ apply tidy_ass_job; [exact Hp | exact Ha | apply task_file_final].
           ++ apply tidy_copy_job; [exact Hp | apply task_file_final].
      * apply post_run. apply tidy_copy_job; [exact Hp | apply task_file_final].
  - intros e _. apply (bindP _ (fun _ => True)).
    + apply post_decode.
    + intros [] _.
      eapply post_weaken; [now apply create_fallback_video_post | | intros e' He'; now left].
      intros r ->. now right.
Qed.

Lemma speech_tier_post (combined_video_path : string) (has_audio : bool) :
  task_file task_id combined_video_path ->
  has_post R (fun _ => True) (fun _ => False)
           (speech_tier w task_id combined_video_path has_audio).
Proof.
  intros Hp. unfold speech_tier.
  destruct (has_audio && whisper_available w); [| now apply retP].
  apply (bindP _ (fun _ => True)); [now apply extract_word_timestamps_post |].
  intros wli _. destruct (truthy_list wli); now apply retP.
Qed.

Lemma script_tier_post (subtitles_content : option string)
    (word_level_info : option (list word_timing))
    (line_level_subtitles : option (list cue)) :
  has_post R (fun _ => True) (fun _ => False)
           (script_tier w task_id subtitles_content word_level_info line_level_subtitles).
Proof.
  unfold script_tier. destruct subtitles_content as [content |]; [| now apply retP].
  destruct (negb (truthy_list word_level_info) && PyStr.truthy content);
    [| now apply retP].
  apply (bindP _ (maybe_task_file task_id)); [apply save_subtitles_from_webhook_post |].
  intros srt_path Hs. now apply parse_srt_to_line_level_post.
Qed.

Lemma download_one_post (P : event -> Prop) (downloaded_files : list string)
    (i : nat) (video_info : json) :
  (forall url path headers, task_file task_id path -> P (EDownload url path headers)) ->
  Forall (task_file task_id) downloaded_files ->
  has_post (touches P)
    (fun files => Forall (task_file task_id) files
                  /\ exists url, extract_video_url video_info = Return url)
    (fun e => extract_video_url video_info = Raise e)
    (download_one w task_id downloaded_files (i, video_info)).
Proof.
  intros HP Hfiles. unfold download_one.
  destruct (extract_video_url video_info) as [url | e] eqn:Eurl.
  - apply (bindP _ (fun u => u = url)); [now apply liftP |].
    intros u ->. destruct (negb (Py.truthy url)).
    + apply retP. split; [exact Hfiles | now exists url].
    + apply (bindP _ (fun _ => True)).
      * apply post_asked. apply HP, task_file_part.
      * intros [] _; apply retP; (split; [| now exists url]); [| exact Hfiles].
        apply Forall_app. split; [exact Hfiles |].
        constructor; [apply task_file_part | constructor].
  - apply (bindP _ (fun _ => False)); [now apply liftP | intros ? []].
Qed.

Lemma download_loop_post (P : event -> Prop) (l : list json) :
  (forall url path headers, task_file task_id path -> P (EDownload url path headers)) ->
  forall (k : nat) (downloaded_files : list string),
  Forall (task_file task_id) downloaded_files ->
  has_post (touches P)
    (fun files => Forall (task_file task_id) files
                  /\ Forall (fun v => exists url, extract_video_url v = Return url) l)
    (fun e => exists v, v ∈ l /\ extract_video_url v = Raise e)
    (for_fold (zip (seq k (length l)) l) (download_one w task_id) downloaded_files).
Proof.
  intros HP. induction l as [|v l IH]; intros k files Hfiles.
  - apply retP. split; [exact Hfiles | constructor].
  - cbn [length seq zip zip_with for_fold].
    apply (bindP _ (fun files' => Forall (task_file task_id) files'
                                  /\ exists url, extract_video_url v = Return url)).
    + eapply post_weaken; [now apply download_one_post | trivial |].
      intros e He. exists v. split; [now left | exact He].
    + intros files' [Hfiles' Hv].
      eapply post_weaken; [apply (IH (S k) files' Hfiles') | |].
      * intros fs [Hfs Hl]. split; [exact Hfs | now constructor].
      * intros e (v' & Hv' & He). exists v'. split; [now right | exact He].
Qed.

Lemma combine_downloaded_videos_post (video_files : list string) :
  Forall (task_file task_id) video_files ->
  has_post R (fun o => o = None \/ o = Some (combined_path task_id)) (fun _ => True)
           (combine_downloaded_videos w task_id video_files).
Proof.
  intros Hfiles. unfold combine_downloaded_videos.
  destruct video_files as [|f1 [|f2 rest]].
  - apply retP. now left.
  - inversion Hfiles as [|? ? Hf1 _]; subst.
    apply (bindP _ (fun _ => True)).
    + eapply post_weaken; [now apply check_audio_exists_post | trivial | intros e []].
    + intros has_audio _.
      apply (bindP _ (fun _ => True)); [| intros; apply retP; now right].
      apply post_run. split; [split; [apply task_file_combined |] | right].
      * destruct has_audio; repeat constructor; assumption.
      * destruct has_audio; split; reflexivity.
  - apply (bindP _ (fun vars => Forall (task_file task_id) (inputs vars))).
    + apply post_for_fold; [apply touches_refl | apply touches_trans | | constructor].
      intros vars f Hf Hvars.
      assert (Hfile : task_file task_id f).
      { rewrite Forall_forall in Hfiles. now apply Hfiles. }
      apply (bindP _ (fun _ => True)).
      * apply post_asked. now apply tidy_file_event.
      * intros [] _; [| now apply retP].
        apply (bindP _ (fun _ => True)).
        -- destruct (any_input_has_audio vars); [now apply retP |].
           eapply post_weaken;
             [now apply check_audio_exists_post | trivial | intros e []].
        -- intros audio _. apply retP. cbn [inputs].
           apply Forall_app. split; [exact Hvars | now repeat constructor].
    + intros vars Hvars. destruct (inputs vars) as [|i0 others] eqn:Ei.
      * apply retP. now left.
      * apply (bindP _ (fun _ => True)); [| intros; apply retP; now right].
        apply post_run. split; [split; [apply task_file_combined |] | right].
        -- cbn [streams map stream_paths concat]. now rewrite app_nil_r.
        -- destruct (any_input_has_audio vars); split; reflexivity.
Qed.

Lemma download_and_combine_videos_post (video_data : list json) :
  has_post R (fun o => o = None \/ o = Some (combined_path task_id)) (fun _ => True)
           (download_and_combine_videos w task_id video_data).
Proof.
  unfold download_and_combine_videos, enumerate.
  apply (bindP _ (Forall (task_file task_id))).
  - eapply post_weaken;
      [apply (download_loop_post (tidy task_id)) | intros a [Ha _]; exact Ha | trivial].
    + intros url path headers Hp. now apply tidy_file_event.
    + constructor.
  - intros files Hfiles. destruct files as [|f fs]; [now apply raiseP |].
    now apply combine_downloaded_videos_post.
Qed.

End Stages.

(** ** Triples *)

Lemma triple_ret {A} (Pre : state -> Prop) (EPost : exception -> state -> Prop) (a : A) :
  triple Pre (mret a : M A) (fun _ st => Pre st) EPost.
Proof. intros st H. exact H. Qed.

Lemma triple_bind {A B} (Pre : state -> Prop) (Mid : A -> state -> Prop)
    (Post : B -> state -> Prop) (EPost : exception -> state -> Prop)
    (m : M A) (f : A -> M B) :
  triple Pre m Mid EPost -> (forall a, triple (Mid a) (f a) Post EPost) ->
  triple Pre (m ≫= f) Post EPost.
Proof.
  intros Hm Hf st HPre. unfold mbind, M_bind. specialize (Hm st HPre).
  destruct (m st) as [[a | e] st1]; [now apply Hf | exact Hm].
Qed.

Lemma triple_try {A} (Pre : state -> Prop) (Post : A -> state -> Prop)
    (EPost EPost' : exception -> state -> Prop) (m : M A) (h : exception -> M A) :
  triple Pre m Post EPost -> (forall e, triple (EPost e) (h e) Post EPost') ->
  triple Pre (try_except m h) Post EPost'.
Proof.
  intros Hm Hh st HPre. unfold try_except. specialize (Hm st HPre).
  destruct (m st) as [[a | e] st1]; [exact Hm | now apply Hh].
Qed.

Lemma triple_conseq {A} (Pre Pre' : state -> Prop) (Post Post' : A -> state -> Prop)
    (EPost EPost' : exception -> state -> Prop) (m : M A) :
  triple Pre m Post EPost ->
  (forall st, Pre' st -> Pre st) ->
  (forall a st, Post a st -> Post' a st) ->
  (forall e st, EPost e st -> EPost' e st) ->
  triple Pre' m Post' EPost'.
Proof.
  intros Hm HP HQ HE st HPre. specialize (Hm st (HP st HPre)).
  destruct (m st) as [[a | e] st1]; [now apply HQ | now apply HE].
Qed.

Lemma triple_set_task (t : gmap string tval) (p : Z) (key : string) (v : tval)
    (EPost : exception -> state -> Prop) :
  triple (at_checkpoint t p) (set_task key v)
         (fun _ => at_checkpoint (<[key := v]> t) p) EPost.
Proof. intros st [<- <-]. now split. Qed.

Lemma triple_set_progress (t : gmap string tval) (p q : Z)
    (EPost : exception -> state -> Prop) :
  triple (at_checkpoint t p) (set_progress q)
         (fun _ => at_checkpoint (<["progress" := TInt q]> t) q) EPost.
Proof. intros st [<- <-]. now split. Qed.

(** A stage that leaves the registry alone keeps the checkpoint. *)
Lemma triple_of_post {A} (P : event -> Prop) (Q : A -> Prop) (E : exception -> Prop)
    (t : gmap string tval) (p : Z) (m : M A) :
  has_post (touches P) Q E m ->
  triple (at_checkpoint t p) m
         (fun a st => at_checkpoint t p st /\ Q a)
         (fun e st => at_checkpoint t p st /\ E e).
Proof.
  intros Hm st [Ht Hp]. destruct (Hm st) as [(Ht' & Hp' & _) Hres].
  destruct (m st) as [[a | e] st1]; simpl in *; (split; [split; congruence | exact Hres]).
Qed.

(** ** The end of a task *)

Lemma output_paths_truthy (task_id : string) :
  PyStr.truthy (final_output_path task_id) = true
  /\ PyStr.truthy (fallback_output_path task_id) = true.
Proof. split; reflexivity. Qed.

Lemma process_videos_triple (w : world) (task_id : string) (video_data : list json)
    (subtitles_content : option string) (t0 : gmap string tval) (p0 : Z) :
  triple (at_checkpoint t0 p0)
         (process_videos w task_id video_data subtitles_content)
         (fun _ st => terminal task_id st /\ same_elsewhere t0 (task st))
         (fun _ _ => False).
Proof.
  set (T2 := <["progress" := TInt 0]> (<["status" := TStr "processing"]> t0)).
  set (T4 := <["progress" := TInt 70]> (<["progress" := TInt 20]> T2)).
  set (Final := fun (_ : unit) (st : state) =>
                  terminal task_id st /\ same_elsewhere t0 (task st)).
  set (Failed := fun (_ : exception) (st : state) =>
                   at_checkpoint T2 0 st \/ at_checkpoint T4 70 st).
  assert (Herr : forall msg st,
            at_checkpoint T2 0 st \/ at_checkpoint T4 70 st ->
            Final tt (State (trace st)
                            (<["error" := TStr msg]> (<["status" := TStr "error"]> (task st)))
                            (progress st))).
  { intros msg st [[-> ->] | [-> ->]]; (split; [right | intros key ? ? ? ?]);
      cbn [task progress]; unfold T4, T2.
    - split; [by simplify_map_eq |]. split; [eexists; by simplify_map_eq |].
      left. split; [by simplify_map_eq | reflexivity].
    - by simplify_map_eq.
    - split; [by simplify_map_eq |]. split; [eexists; by simplify_map_eq |].
      right. split; [by simplify_map_eq | reflexivity].
    - by simplify_map_eq. }
  unfold process_videos. apply (triple_try _ _ Failed).
  2:{ intros e st Hst. unfold Failed in Hst. rewrite bind_set_task.
      unfold set_task. cbn [trace task progress].
      exact (Herr (exc_str e) st Hst). }
  eapply triple_bind; [apply triple_set_task |]. intros [].
  eapply triple_bind; [apply triple_set_progress |]. intros []. fold T2.
  eapply triple_bind.
  { eapply triple_conseq;
      [apply (triple_of_post (tidy task_id)), (download_and_combine_videos_post w task_id video_data)
      | intros st H; exact H | intros a st H; exact H | intros e st [H _]; left; exact H]. }
  intros [combined_video_path |].
  2:{ intros st [Hst _]. rewrite bind_set_task. unfold set_task. cbn [trace task progress].
      apply (Herr _ st). now left. }
  eapply triple_conseq with
    (Pre := fun st => at_checkpoint T2 0 st /\ combined_video_path = combined_path task_id);
    [| intros st [H [E | E]]; [discriminate E | injection E as ->; now split]
     | intros a st H; exact H | intros e st H; exact H].
  intros st [Hst ->]. revert st Hst.
  change (triple (at_checkpoint T2 0)
            (_ ← set_progress 20;
             has_audio ← check_audio_exists w (combined_path task_id);
             '(word_level_info, line_level_subtitles) ←
               speech_tier w task_id (combined_path task_id) has_audio;
             line_level_subtitles ←
               script_tier w task_id subtitles_content word_level_info line_level_subtitles;
             let line_level_subtitles := text_tier w video_data line_level_subtitles in
             _ ← set_progress 70;
             final_video_path ← create_scrolling_subtitles_video w task_id
                                  (combined_path task_id) word_level_info
                                  line_level_subtitles has_audio;
             if negb (PyStr.truthy final_video_path) then
               _ ← set_task "status" (TStr "error");
               set_task "error" (TStr "Failed to create final video with scrolling subtitles.")
             else
               _ ← set_progress 100;
               _ ← set_task "status" (TStr "completed");
               set_task "output_file" (TStr final_video_path))
            Final Failed).
  eapply triple_bind; [apply triple_set_progress |]. intros [].
  eapply triple_bind.
  { eapply triple_conseq;
      [apply (triple_of_post (tidy task_id)), (check_audio_exists_post w task_id), task_file_combined
      | intros st H; exact H | intros a st [H _]; exact H | intros e st [_ []]]. }
  intros has_audio.
  eapply triple_bind.
  { eapply triple_conseq;
      [apply (triple_of_post (tidy task_id)), (speech_tier_post w task_id), task_file_combined
      | intros st H; exact H | intros a st [H _]; exact H | intros e st [_ []]]. }
  intros [word_level_info line_level_subtitles].
  eapply triple_bind.
  { eapply triple_conseq;
      [apply (triple_of_post (tidy task_id)), (script_tier_post w task_id)
      | intros st H; exact H | intros a st [H _]; exact H | intros e st [_ []]]. }
  intros line_level_subtitles'. cbv zeta.
  eapply triple_bind; [apply triple_set_progress |]. intros []. fold T4.
  eapply triple_bind.
  { eapply triple_conseq;
      [apply (triple_of_post (tidy task_id)),
         (create_scrolling_subtitles_video_post w task_id), task_file_combined
      | intros st H; exact H | intros a st H; exact H | intros e st [H _]; right; exact H]. }
  intros final_video_path st [[Ht Hp] Hpath].
  assert (Htruthy : PyStr.truthy final_video_path = true).
  { destruct Hpath as [-> | ->]; apply output_paths_truthy. }
  rewrite Htruthy. cbn [negb].
  rewrite bind_set_progress, bind_set_task. unfold set_task. cbn [trace task progress].
  rewrite Ht. unfold Final. split; [left | intros key ? ? ? ?]; cbn [task progress];
    unfold T4, T2.
  - split; [by simplify_map_eq |]. split; [by simplify_map_eq |].
    split; [reflexivity |].
    destruct Hpath as [-> | ->]; [left | right]; by simplify_map_eq.
  - by simplify_map_eq.
Qed.

(** X9. Whatever the outside answers, [process_videos] returns without
    raising and leaves the task ended: completed, with progress 100 and
    one of the two output files recorded, or in error, with a message
    and the progress of the last checkpoint, which is 0 (acquisition
    and assembly) or 70 (rendering), never 20.  The other fields of the
    task's entry are left as they were. *)
Theorem process_videos_terminal (w : world) (task_id : string) (video_data : list json)
    (subtitles_content : option string) (st : state) :
  exists st',
    process_videos w task_id video_data subtitles_content st = (Return tt, st')
    /\ terminal task_id st'
    /\ same_elsewhere (task st) (task st').
Proof.
  pose proof (process_videos_triple w task_id video_data subtitles_content
                (task st) (progress st) st (conj eq_refl eq_refl)) as H.
  destruct (process_videos w task_id video_data subtitles_content st) as [[[] | e] st'];
    [| destruct H].
  exists st'. split; [reflexivity | exact H].
Qed.

(** ** Descriptors that raise *)

Lemma fallthrough_returns (d : list (string * json)) (output : json) (b : bool) :
  Py.contains "works" output = Return b ->
  exists r,
    (has_works ← Py.contains "works" output;
     found ← (if has_works : bool
              then catch (extract_from_works output) (fun _ => Return None)
              else Return None);
     match found with
     | Some url => Return url
     | None => Return (first_mp4_value d)
     end) = Return r.
Proof.
  intros ->. destruct b; cbn.
  - destruct (extract_from_works output) as [[url |] | e]; cbn; now eexists.
  - now eexists.
Qed.

Ltac raising Hiff :=
  split;
  [ apply Hiff; cbn [unsearchable];
    split; [intros _; first [reflexivity | assumption] | intros _; now eexists]
  | let e := fresh "e" in let He := fresh "He" in
    intros e He; injection He as <-; reflexivity ].

Ltac returning Hiff :=
  split;
  [ apply Hiff; cbn [unsearchable];
    split; [ let e := fresh "e" in let He := fresh "He" in
             intros [e He]; discriminate He
           | let H := fresh "H" in intros H; congruence ]
  | let e := fresh "e" in let He := fresh "He" in
    intros e He; discriminate He ].

(** X5. [extract_video_url] raises exactly on a dictionary without the
    key [url] whose [output] is a value that is no container, a string
    that mentions [url] or a list with the element [url]; what it
    raises is a [TypeError].  Every other descriptor, and every error
    inside the [works] structure, gives a value. *)
Theorem extract_video_url_raises (video_info : json) :
  ((exists e, extract_video_url video_info = Raise e)
   <-> exists d output,
         video_info = JDict d /\ Py.assoc "url" d = None
         /\ Py.assoc "output" d = Some output /\ unsearchable output = true)
  /\ forall e, extract_video_url video_info = Raise e -> exc_class e = "TypeError".
Proof.
  destruct video_info as [| b | z | q | s | l | d];
    try (split; [split; [intros [e He]; discriminate He
                        | intros (d & o & Hd & _); discriminate Hd]
                | intros e He; discriminate He]).
  unfold extract_video_url.
  destruct (Py.assoc "url" d) as [url |] eqn:Eurl.
  { split; [split; [intros [e He]; discriminate He
                   | intros (d' & o & Hd & Hu & _); injection Hd as <-; congruence]
           | intros e He; discriminate He]. }
  destruct (Py.assoc "output" d) as [output |] eqn:Eout.
  2:{ split; [split; [intros [e He]; discriminate He
                     | intros (d' & o & Hd & _ & Ho & _); injection Hd as <-; congruence]
             | intros e He; discriminate He]. }
  assert (Hiff : forall P : Prop,
            (P <-> unsearchable output = true) ->
            (P <-> exists d' output', JDict d = JDict d' /\ Py.assoc "url" d' = None
                     /\ Py.assoc "output" d' = Some output'
                     /\ unsearchable output' = true)).
  { intros P HP. rewrite HP. split.
    - intros H. now exists d, output.
    - intros (d' & o & Hd & _ & Ho & H). injection Hd as <-. congruence. }
  destruct output as [| b | z | q | s | l | d'].
  1-4: raising Hiff.
  - (* a string *)
    cbn [Py.contains mbind outcome_bind unsearchable].
    destruct (PyStr.contains "url" s) eqn:Es.
    + raising Hiff.
    + destruct (fallthrough_returns d (JStr s) _ eq_refl) as [r Hr].
      cbn [Py.contains mbind outcome_bind] in Hr. rewrite Hr.
      returning Hiff.
  - (* a list *)
    cbn [Py.contains mbind outcome_bind unsearchable].
    destruct (existsb (Py.is_str "url") l) eqn:El.
    + raising Hiff.
    + destruct (fallthrough_returns d (JList l) _ eq_refl) as [r Hr].
      cbn [Py.contains mbind outcome_bind] in Hr. rewrite Hr.
      returning Hiff.
  - (* a dictionary *)
    cbn [Py.contains mbind outcome_bind unsearchable].
    destruct (Py.assoc "url" d') as [u |] eqn:Eu.
    + rewrite bool_decide_eq_true_2 by eauto.
      cbn [Py.getitem]. rewrite Eu.
      returning Hiff.
    + rewrite bool_decide_eq_false_2 by (intros [x Hx]; discriminate Hx).
      destruct (fallthrough_returns d (JDict d') _ eq_refl) as [r Hr].
      cbn [Py.contains mbind outcome_bind] in Hr. rewrite Hr.
      returning Hiff.
Qed.

(** X6. One descriptor on which [extract_video_url] raises ends the
    whole task, whatever the other clips are and whatever was fetched
    before it: [process_videos] stops in the acquisition, with status
    [error], the text of a descriptor's exception as the message and
    progress 0, and nothing but downloads has been asked of the
    outside. *)
Theorem malformed_descriptor_aborts (w : world) (task_id : string)
    (video_data : list json) (subtitles_content : option string) (st : state)
    (v : json) (e0 : exception) :
  v ∈ video_data -> extract_video_url v = Raise e0 ->
  exists e new,
    (exists v', v' ∈ video_data /\ extract_video_url v' = Raise e)
    /\ process_videos w task_id video_data subtitles_content st
       = (Return tt,
          State (trace st ++ new)
                (<["error" := TStr (exc_str e)]>
                 (<["status" := TStr "error"]>
                  (<["progress" := TInt 0]>
                   (<["status" := TStr "processing"]> (task st)))))
                0%Z)
    /\ Forall is_download new.
Proof.
  intros Hv He0.
  set (st2 := State (trace st)
                    (<["progress" := TInt 0]>
                     (<["status" := TStr "processing"]> (task st))) 0%Z).
  destruct (download_loop_post w task_id is_download video_data
              (fun _ _ _ _ => I) 0 [] (List.Forall_nil _) st2) as [Htouch Hres].
  destruct (for_fold (zip (seq 0 (length video_data)) video_data)
              (download_one w task_id) [] st2) as [[files | e] st3] eqn:Eloop;
    cbn [fst snd] in Htouch, Hres.
  - destruct Hres as [_ Hall]. rewrite Forall_forall in Hall.
    destruct (Hall v Hv) as [url Hurl]. congruence.
  - destruct Htouch as (Ht & Hp & new & Etr & Hnew).
    exists e, new. split; [exact Hres |]. split; [| exact Hnew].
    unfold process_videos, try_except.
    rewrite bind_set_task, bind_set_progress. cbn [trace task progress]. fold st2.
    unfold download_and_combine_videos, enumerate.
    unfold mbind at 1, M_bind at 1. unfold mbind at 1, M_bind at 1.
    rewrite Eloop. rewrite bind_set_task. unfold set_task.
    destruct st3 as [tr3 t3 p3]. cbn [trace task progress] in *. now subst.
Qed.

Lemma malformed_descriptor_aborts_witness :
  exists e new,
    (exists v', v' ∈ [JDict [("url", JStr "http://host/a.mp4")]; JDict [("output", JNull)]]
                /\ extract_video_url v' = Raise e)
    /\ process_videos (Worlds.calm []) "t1" [JDict [("url", JStr "http://host/a.mp4")]; JDict [("output", JNull)]] None
         (initial_state ∅)
       = (Return tt,
          State (trace (initial_state ∅)
                 ++ new)
                (<["error" := TStr (exc_str e)]>
                 (<["status" := TStr "error"]>
                  (<["progress" := TInt 0]>
                   (<["status" := TStr "processing"]>
                     (task (initial_state ∅))))))
                0%Z)
    /\ Forall is_download new.
Proof.
  apply (malformed_descriptor_aborts (Worlds.calm []) "t1"
           [JDict [("url", JStr "http://host/a.mp4")]; JDict [("output", JNull)]] None _
           (JDict [("output", JNull)])
           (Raised "TypeError" "argument of type 'NoneType' is not iterable")).
  - right. left.
  - reflexivity.
Defined.

(** ** What a task asks of the outside *)

Lemma logs_refl (P : event -> Prop) (st : state) : logs P st st.
Proof. exists []. split; [symmetry; apply app_nil_r | constructor]. Qed.

Lemma logs_trans (P : event -> Prop) (a b c : state) :
  logs P a b -> logs P b c -> logs P a c.
Proof.
  intros (n1 & E1 & F1) (n2 & E2 & F2).
  exists (n1 ++ n2). split; [now rewrite E2, E1, app_assoc | now apply Forall_app].
Qed.

Lemma touches_logs (P : event -> Prop) (a b : state) : touches P a b -> logs P a b.
Proof. intros (_ & _ & H). exact H. Qed.

Lemma post_relax {A} (R R' : state -> state -> Prop) (Q : A -> Prop)
    (E : exception -> Prop) (m : M A) :
  (forall a b, R a b -> R' a b) -> has_post R Q E m -> has_post R' Q E m.
Proof.
  intros HR Hm st. destruct (Hm st) as [H Hres]. split; [now apply HR | exact Hres].
Qed.

Lemma logs_set_task (P : event -> Prop) (E : exception -> Prop) (key : string) (v : tval) :
  has_post (logs P) (fun _ => True) E (set_task key v).
Proof.
  intros st. split; [| exact I].
  exists []. split; [symmetry; apply app_nil_r | constructor].
Qed.

Lemma logs_set_progress (P : event -> Prop) (E : exception -> Prop) (p : Z) :
  has_post (logs P) (fun _ => True) E (set_progress p).
Proof.
  intros st. split; [| exact I].
  exists []. split; [symmetry; apply app_nil_r | constructor].
Qed.

Lemma process_videos_logs (w : world) (task_id : string) (video_data : list json)
    (subtitles_content : option string) :
  has_post (logs (tidy task_id)) (fun _ => True) (fun _ => False)
           (process_videos w task_id video_data subtitles_content).
Proof.
  set (P := tidy task_id).
  assert (Hbind : forall A B (Q : A -> Prop) (Q' : B -> Prop) (E : exception -> Prop)
                         (m : M A) (f : A -> M B),
             has_post (logs P) Q E m -> (forall a, Q a -> has_post (logs P) Q' E (f a)) ->
             has_post (logs P) Q' E (m ≫= f)).
  { intros A B. apply post_bind, logs_trans. }
  assert (Hstage : forall A (Q : A -> Prop) (E : exception -> Prop) (m : M A),
             has_post (touches P) Q E m ->
             has_post (logs P) (fun _ => True) (fun _ => True) m).
  { intros A Q E m Hm. eapply post_relax; [apply touches_logs |].
    eapply post_weaken; [exact Hm | trivial | trivial]. }
  unfold process_videos.
  apply (post_try (logs P) (logs_trans P) _ (fun _ => True)).
  2:{ intros e _. apply (Hbind _ _ (fun _ => True)); [apply logs_set_task |].
      intros [] _. apply logs_set_task. }
  apply (Hbind _ _ (fun _ => True)); [apply logs_set_task |]. intros [] _.
  apply (Hbind _ _ (fun _ => True)); [apply logs_set_progress |]. intros [] _.
  apply (Hbind _ _ (fun o => o = None \/ o = Some (combined_path task_id))).
  { eapply post_relax; [apply touches_logs |].
    eapply post_weaken; [apply download_and_combine_videos_post | trivial | trivial]. }
  intros [p |] Hp.
  2:{ apply (Hbind _ _ (fun _ => True)); [apply logs_set_task |].
      intros [] _. apply logs_set_task. }
  destruct Hp as [Hp | Hp]; [discriminate Hp | injection Hp as ->].
  apply (Hbind _ _ (fun _ => True)); [apply logs_set_progress |]. intros [] _.
  apply (Hbind _ _ (fun _ => True)).
  { eapply Hstage, check_audio_exists_post, task_file_combined. }
  intros has_audio _.
  apply (Hbind _ _ (fun _ => True)).
  { eapply Hstage, speech_tier_post, task_file_combined. }
  intros [word_level_info line_level_subtitles] _.
  apply (Hbind _ _ (fun _ => True)).
  { eapply Hstage, script_tier_post. }
  intros line_level_subtitles' _. cbv zeta.
  apply (Hbind _ _ (fun _ => True)); [apply logs_set_progress |]. intros [] _.
  apply (Hbind _ _ (fun _ => True)).
  { eapply Hstage, create_scrolling_subtitles_video_post, task_file_combined. }
  intros final_video_path _.
  destruct (negb (PyStr.truthy final_video_path)).
  - apply (Hbind _ _ (fun _ => True)); [apply logs_set_task |].
    intros [] _. apply logs_set_task.
  - apply (Hbind _ _ (fun _ => True)); [apply logs_set_progress |]. intros [] _.
    apply (Hbind _ _ (fun _ => True)); [apply logs_set_task |].
    intros [] _. apply logs_set_task.
Qed.

(** X7. A task keeps to its own files.  Every file that
    [process_videos] downloads to, probes, writes, reads, checks,
    removes, transcribes or hands to the transcoding engine as an input
    or as the output lies in [temp_files] or in [output_videos] and
    carries the task identifier in its name. *)
Theorem process_videos_task_files (w : world) (task_id : string)
    (video_data : list json) (subtitles_content : option string) (st : state) :
  exists new,
    trace (process_videos w task_id video_data subtitles_content st).2 = trace st ++ new
    /\ Forall (in_task_files task_id) new.
Proof.
  destruct (process_videos_logs w task_id video_data subtitles_content st)
    as [(new & Etr & Hnew) _].
  exists new. split; [exact Etr |].
  eapply Forall_impl; [exact Hnew | intros ev [H _]; exact H].
Qed.

(** X8. Every job that [process_videos] gives to the transcoding engine
    either is the extraction of the sound track, one audio stream with
    no option, or sets a video codec and sets an audio codec exactly
    when one of its streams carries sound: no job encodes sound it was
    not given, and none drops the codec of sound it was given. *)
Theorem process_videos_jobs_coherent (w : world) (task_id : string)
    (video_data : list json) (subtitles_content : option string) (st : state) :
  exists new,
    trace (process_videos w task_id video_data subtitles_content st).2 = trace st ++ new
    /\ Forall coherent new.
Proof.
  destruct (process_videos_logs w task_id video_data subtitles_content st)
    as [(new & Etr & Hnew) _].
  exists new. split; [exact Etr |].
  eapply Forall_impl; [exact Hnew | intros ev [_ H]; exact H].
Qed.

(** ** The routes *)

Lemma py_len_measurable (d : list (string * json)) :
  srt_measurable d = true <->
  exists n, match Py.assoc "srt" d with
            | Some srt => if Py.truthy srt then py_len srt else Return 0
            | None => Return 0
            end = Return n.
Proof.
  unfold srt_measurable. destruct (Py.assoc "srt" d) as [srt |]; [| split; eauto].
  destruct srt as [| [] | z | q | s | l | d']; cbn;
    repeat match goal with
           | |- context [if ?c then _ else _] => destruct c
           end; cbn;
    (split; [intros H; try discriminate H; eauto
            | intros [n H]; try discriminate H; reflexivity]).
Qed.

(** What the intake does with a request, case by case. *)
Lemma handle_webhook_cases (TASKS : registry) (data : outcome json) (uuid4 now : string) :
  (exists d l,
      data = Return (JDict d) /\ video_list_of d = Some l /\ l <> []
      /\ srt_measurable d = true
      /\ exists body,
           handle_webhook TASKS data uuid4 now
           = Intake (Json body 200)
               (<[uuid4 := initial_task l (Py.truthy (default JNull (Py.assoc "srt" d))) now]>
                  TASKS)
               (Some (Processor uuid4 l (default JNull (Py.assoc "srt" d))))
           /\ body !! "task_id" = Some (TStr uuid4)
           /\ body !! "status" = Some (TStr "processing")
           /\ body !! "video_count" = Some (TInt (Z.of_nat (length l))))
  \/ ((forall d l, data = Return (JDict d) -> video_list_of d = Some l ->
                   l = [] \/ srt_measurable d = false)
      /\ exists msg code,
           handle_webhook TASKS data uuid4 now = Intake (rejection msg code) TASKS None
           /\ (code = 500%Z
               <-> (exists e, data = Raise e)
                   \/ exists d l, data = Return (JDict d) /\ video_list_of d = Some l
                                  /\ srt_measurable d = false)
           /\ (code = 400%Z \/ code = 500%Z)).
Proof.
  unfold handle_webhook.
  destruct data as [data | e].
  2:{ right. split; [intros d l H; discriminate H |].
      eexists _, _. split; [reflexivity |]. split; [| now right].
      split; [intros _; left; now exists e | reflexivity]. }
  assert (Hflat : forall msg,
            (forall d, data <> JDict d) ->
            (forall d l, Return data = Return (JDict d) -> video_list_of d = Some l ->
                         l = [] \/ srt_measurable d = false)
            /\ exists msg' code,
                 Intake (rejection msg 400) TASKS None = Intake (rejection msg' code) TASKS None
                 /\ (code = 500%Z
                     <-> (exists e, Return data = Raise e)
                         \/ exists d l, Return data = Return (JDict d)
                                        /\ video_list_of d = Some l
                                        /\ srt_measurable d = false)
                 /\ (code = 400%Z \/ code = 500%Z)).
  { intros msg Hd. split.
    - intros d l H. injection H as ->. now destruct (Hd d).
    - exists msg, 400%Z. split; [reflexivity |]. split; [| now left].
      split; [discriminate |].
      intros [[e He] | (d & l & H & _)]; [discriminate He |].
      injection H as ->. now destruct (Hd d). }
  destruct data as [| b | z | q | s | l0 | d]; cbn [mbind outcome_bind];
    try (right; apply Hflat; intros d' H; discriminate H).
  clear Hflat.
  destruct (video_list_of d) as [l |] eqn:El.
  2:{ right. split; [intros d' l' H; injection H as <-; congruence |].
      eexists _, _. split; [reflexivity |]. split; [| now left].
      split; [discriminate |].
      intros [[e He] | (d' & l' & H & Hl & _)]; [discriminate He |].
      injection H as <-. congruence. }
  destruct (srt_measurable d) eqn:Em.
  - pose proof (proj1 (py_len_measurable d) Em) as [n Hn]. rewrite Hn. cbn.
    destruct l as [| v l].
    + right. split; [intros d' l' H Hl'; injection H as <-; left; congruence |].
      eexists _, _. split; [reflexivity |]. split; [| now left].
      split; [discriminate |].
      intros [[e He] | (d' & l' & H & _ & Hm)]; [discriminate He |].
      injection H as <-. congruence.
    + left. exists d, (v :: l). split; [reflexivity |]. split; [exact El |].
      split; [discriminate |]. split; [exact Em |].
      eexists. split; [reflexivity |]. repeat split; by simplify_map_eq.
  - right. split; [intros d' l' H _; injection H as <-; now right |].
    destruct (match Py.assoc "srt" d with
              | Some srt => if Py.truthy srt then py_len srt else Return 0
              | None => Return 0
              end) as [n | e] eqn:En.
    + assert (srt_measurable d = true) by (apply py_len_measurable; eauto). congruence.
    + cbn. eexists _, _. split; [reflexivity |]. split; [| now right].
      split; [| reflexivity]. intros _. right. now exists d, l.
Qed.

(** X10. The intake is all or nothing.  Either it starts a processor: on
    a list of clips that is not empty, under the fresh identifier, with
    the answer 200 naming that identifier, and [TASKS] gets exactly one
    new entry, the initial one of this list.  Or it starts none: the
    answer is a rejection with code 400 or 500, and [TASKS] is as it
    was. *)
Theorem handle_webhook_all_or_nothing (TASKS : registry) (data : outcome json)
    (uuid4 now : string) :
  let r := handle_webhook TASKS data uuid4 now in
  match thread r with
  | Some p =>
      p_task_id p = uuid4 /\ p_video_data p <> []
      /\ tasks r = <[uuid4 := initial_task (p_video_data p)
                                (Py.truthy (p_subtitles_content p)) now]> TASKS
      /\ exists body, answer r = Json body 200
                      /\ body !! "task_id" = Some (TStr uuid4)
                      /\ body !! "video_count"
                         = Some (TInt (Z.of_nat (length (p_video_data p))))
  | None =>
      tasks r = TASKS
      /\ exists msg code, answer r = rejection msg code /\ (code = 400%Z \/ code = 500%Z)
  end.
Proof.
  cbv zeta.
  destruct (handle_webhook_cases TASKS data uuid4 now)
    as [(d & l & _ & _ & Hl & _ & body & -> & Hid & _ & Hcount)
       | (_ & msg & code & -> & _ & Hcode)]; cbn [thread tasks answer].
  - cbn [p_task_id p_video_data p_subtitles_content].
    split; [reflexivity |]. split; [exact Hl |]. split; [reflexivity |].
    exists body. now split.
  - split; [reflexivity |]. now exists msg, code.
Qed.

(** X11. The intake accepts a request, with the answer 200, exactly
    when the body is an object with a list under [videos], or else
    under [data], that is not empty, and whose [srt] is absent, falsy or
    a value with a length. *)
Theorem handle_webhook_accepts (TASKS : registry) (data : outcome json)
    (uuid4 now : string) :
  (exists body, answer (handle_webhook TASKS data uuid4 now) = Json body 200)
  <-> exists d l, data = Return (JDict d) /\ video_list_of d = Some l /\ l <> []
                  /\ srt_measurable d = true.
Proof.
  destruct (handle_webhook_cases TASKS data uuid4 now)
    as [(d & l & Hd & Hv & Hl & Hm & body & -> & _)
       | (Hno & msg & code & -> & _ & Hcode)]; cbn [answer].
  - split; [intros _; now exists d, l | intros _; now exists body].
  - split.
    + intros [body H]. unfold rejection in H. injection H as _ H.
      destruct Hcode as [H' | H']; congruence.
    + intros (d & l & Hd & Hv & Hl & Hm).
      destruct (Hno d l Hd Hv) as [H | H]; congruence.
Qed.

(** X12. The intake answers 500 exactly when the body could not be read
    as JSON, or when it holds a list of clips and an [srt] that is
    truthy and has no length, a number other than zero or [true]: the
    list is then not looked at, and an empty one is not reported as
    such. *)
Theorem handle_webhook_fails (TASKS : registry) (data : outcome json)
    (uuid4 now : string) :
  (exists body, answer (handle_webhook TASKS data uuid4 now) = Json body 500)
  <-> (exists e, data = Raise e)
      \/ exists d l, data = Return (JDict d) /\ video_list_of d = Some l
                     /\ srt_measurable d = false.
Proof.
  destruct (handle_webhook_cases TASKS data uuid4 now)
    as [(d & l & Hd & Hv & Hl & Hm & body & -> & _)
       | (Hno & msg & code & -> & Hcode & _)]; cbn [answer].
  - split.
    + intros [body' H]. injection H as _ H. discriminate H.
    + intros [[e He] | (d' & l' & Hd' & Hv' & Hm')]; [congruence |].
      rewrite Hd in Hd'. injection Hd' as <-. congruence.
  - rewrite <- Hcode. split.
    + intros [body H]. unfold rejection in H. now injection H as _ H.
    + intros ->. now eexists.
Qed.

Lemma initial_task_lookups (video_list : list json) (has : bool) (now : string) :
  let t := initial_task video_list has now in
  t !! "status" = Some (TStr "initiated")
  /\ t !! "progress" = Some (TInt 0)
  /\ t !! "created_at" = Some (TStr now)
  /\ t !! "video_count" = Some (TInt (Z.of_nat (length video_list)))
  /\ t !! "has_custom_subtitles" = Some (TBool has)
  /\ t !! "warnings" = None.
Proof. unfold initial_task. repeat split; by simplify_map_eq. Qed.

(** X13. Once the intake has accepted a request, the status route
    answers for the task whatever the processor has written so far:
    on the entry as the intake wrote it, and on every entry that
    differs from it at most under the keys that the processor assigns
    ([status], [progress], [error], [output_file]) and still holds a
    status and a progress, it answers 200 with the identifier, the
    creation time, the number of clips and the subtitles flag of the
    request: four fields that the processor never assigns. *)
Theorem status_after_intake (TASKS others : registry) (data : outcome json)
    (uuid4 now : string) (p : processor) (entry : gmap string tval) :
  thread (handle_webhook TASKS data uuid4 now) = Some p ->
  same_elsewhere
    (initial_task (p_video_data p) (Py.truthy (p_subtitles_content p)) now) entry ->
  is_Some (entry !! "status") -> is_Some (entry !! "progress") ->
  tasks (handle_webhook TASKS data uuid4 now) !! uuid4
  = Some (initial_task (p_video_data p) (Py.truthy (p_subtitles_content p)) now)
  /\ exists body,
       get_task_status (<[uuid4 := entry]> others) uuid4 = Return (Json body 200)
       /\ body !! "task_id" = Some (TStr uuid4)
       /\ body !! "created_at" = Some (TStr now)
       /\ body !! "video_count" = Some (TInt (Z.of_nat (length (p_video_data p))))
       /\ body !! "has_custom_subtitles"
          = Some (TBool (Py.truthy (p_subtitles_content p))).
Proof.
  intros Hthread Hsame [status Hs] [progress Hp]. split.
  { destruct (handle_webhook_cases TASKS data uuid4 now)
      as [(d & l & _ & _ & _ & _ & body & E & _) | (_ & msg & code & E & _)];
      rewrite E in Hthread |- *; cbn [thread tasks] in *; [| discriminate Hthread].
    injection Hthread as <-. cbn [p_video_data p_subtitles_content].
    apply lookup_insert_eq. }
  destruct (initial_task_lookups (p_video_data p)
              (Py.truthy (p_subtitles_content p)) now)
    as (_ & _ & Hc & Hn & Hh & _).
  rewrite <- Hsame in Hc, Hn, Hh by discriminate.
  unfold get_task_status, entry_item. rewrite lookup_insert_eq.
  rewrite Hs, Hp, Hc, Hn, Hh. cbn.
  destruct (is_text "completed" status), (is_text "error" status),
    (entry !! "warnings");
    eexists; (split; [reflexivity |]); repeat split; by simplify_map_eq.
Qed.

Lemma status_after_intake_witness :
  let data := Return (JDict [("videos", JList [JStr "http://host/a.mp4"])]) in
  let entry := <["status" := TStr "processing"]>
                 (initial_task [JStr "http://host/a.mp4"] false "2024-01-01T00:00:00") in
  tasks (handle_webhook ∅ data "id-1" "2024-01-01T00:00:00") !! "id-1"
  = Some (initial_task [JStr "http://host/a.mp4"] false "2024-01-01T00:00:00")
  /\ exists body,
       get_task_status (<["id-1" := entry]> ∅) "id-1" = Return (Json body 200)
       /\ body !! "task_id" = Some (TStr "id-1")
       /\ body !! "created_at" = Some (TStr "2024-01-01T00:00:00")
       /\ body !! "video_count" = Some (TInt 1)
       /\ body !! "has_custom_subtitles" = Some (TBool false).
Proof.
  apply (status_after_intake ∅ ∅
           (Return (JDict [("videos", JList [JStr "http://host/a.mp4"])]))
           "id-1" "2024-01-01T00:00:00"
           (Processor "id-1" [JStr "http://host/a.mp4"] JNull)).
  - reflexivity.
  - intros key H1 H2 H3 H4. by simplify_map_eq.
  - eexists. by simplify_map_eq.
  - eexists. unfold initial_task. by simplify_map_eq.
Defined.

(** Where [process_videos] leaves the entry of a task. *)
Lemma process_videos_end (w : world) (task_id : string) (video_data : list json)
    (subtitles_content : option string) (st : state) :
  let st' := (process_videos w task_id video_data subtitles_content st).2 in
  terminal task_id st' /\ same_elsewhere (task st) (task st').
Proof.
  cbv zeta.
  pose proof (process_videos_triple w task_id video_data subtitles_content
                (task st) (progress st) st (conj eq_refl eq_refl)) as H.
  destruct (process_videos w task_id video_data subtitles_content st) as [[[] | e] st'];
    [exact H | destruct H].
Qed.

(** X14. Once [process_videos] has returned, the status route answers
    200 for the task and tells how it ended: completed, at progress
    100, with the download address of the task and one of the two
    output files, and no error; or failed, with a message, at progress
    0 or 70, and no download address.  The creation time is the one of
    the entry. *)
Theorem status_after_processing (w : world) (task_id : string) (video_data : list json)
    (subtitles_content : option string) (st : state) (TASKS : registry)
    (created_at : tval) :
  task st !! "created_at" = Some created_at ->
  let st' := (process_videos w task_id video_data subtitles_content st).2 in
  exists body,
    get_task_status (<[task_id := task st']> TASKS) task_id = Return (Json body 200)
    /\ reports_end task_id body
    /\ body !! "task_id" = Some (TStr task_id)
    /\ body !! "created_at" = Some created_at.
Proof.
  intros Hc. cbv zeta.
  destruct (process_videos_end w task_id video_data subtitles_content st) as [Hend Hsame].
  set (st' := (process_videos w task_id video_data subtitles_content st).2) in *.
  assert (Hc' : task st' !! "created_at" = Some created_at).
  { rewrite Hsame; [exact Hc | discriminate ..]. }
  unfold get_task_status, entry_item. rewrite lookup_insert_eq.
  destruct Hend as [(Hs & Hp & _ & Ho) | (Hs & [msg Hm] & Hp)].
  - rewrite Hs, Hp, Hc'. cbn.
    assert (Hout : exists path,
               task st' !! "output_file" = Some (TStr path)
               /\ (path = final_output_path task_id
                   \/ path = fallback_output_path task_id)).
    { destruct Ho as [Ho | Ho]; eexists; (split; [exact Ho |]); [now left | now right]. }
    destruct Hout as (path & Ho' & Hpath). rewrite Ho'. cbn.
    destruct (task st' !! "warnings") as [warnings |];
      eexists; (split; [reflexivity |]);
      (split; [left | split; by simplify_map_eq]);
      (split; [by simplify_map_eq |]); (split; [by simplify_map_eq |]);
      (split; [by simplify_map_eq |]); (split; [| by simplify_map_eq]);
      (destruct Hpath as [-> | ->]; [left | right]; by simplify_map_eq).
  - rewrite Hs, Hc'.
    assert (Hp' : exists p, task st' !! "progress" = Some (TInt p) /\ (p = 0 \/ p = 70)%Z).
    { destruct Hp as [[Hp _] | [Hp _]]; eexists; (split; [exact Hp |]); [now left | now right]. }
    destruct Hp' as (p & Hp' & Hpv). rewrite Hp', Hm. cbn.
    destruct (task st' !! "warnings") as [warnings |];
      eexists; (split; [reflexivity |]);
      (split; [right | split; by simplify_map_eq]);
      (split; [by simplify_map_eq |]);
      (split; [destruct Hpv as [-> | ->]; [left | right]; by simplify_map_eq |]);
      (split; [exists msg; by simplify_map_eq |]); split; by simplify_map_eq.
Qed.

Lemma status_after_processing_witness :
  exists body,
    get_task_status
      (<["id-1" := task (process_videos (Worlds.calm []) "id-1"
                           [JDict [("url", JStr "http://host/a.mp4")]] None
                           (initial_state
                              (initial_task [JDict [("url", JStr "http://host/a.mp4")]]
                                            false "2024-01-01T00:00:00"))).2]> ∅)
      "id-1"
    = Return (Json body 200)
    /\ reports_end "id-1" body
    /\ body !! "task_id" = Some (TStr "id-1")
    /\ body !! "created_at" = Some (TStr "2024-01-01T00:00:00").
Proof.
  apply (status_after_processing (Worlds.calm []) "id-1"
           [JDict [("url", JStr "http://host/a.mp4")]] None
           (initial_state (initial_task [JDict [("url", JStr "http://host/a.mp4")]]
                                        false "2024-01-01T00:00:00"))
           ∅ (TStr "2024-01-01T00:00:00")).
  apply initial_task_lookups.
Defined.

(** X15. Once [process_videos] has returned, the download route sends a
    file only for a completed task whose recorded output exists: the
    file sent is the one recorded, the primary or the fallback output,
    and in both cases it is offered under the name of the primary one.
    A completed task whose file is gone is answered 404, a failed one
    400. *)
Theorem download_after_processing (w : world) (task_id : string) (video_data : list json)
    (subtitles_content : option string) (st : state) (TASKS : registry)
    (os_path_exists : tval -> bool) :
  let st' := (process_videos w task_id video_data subtitles_content st).2 in
  exists r,
    download_video_route os_path_exists (<[task_id := task st']> TASKS) task_id = Return r
    /\ match r with
       | SendFile path name =>
           task st' !! "status" = Some (TStr "completed")
           /\ task st' !! "output_file" = Some path
           /\ (path = TStr (final_output_path task_id)
               \/ path = TStr (fallback_output_path task_id))
           /\ os_path_exists path = true
           /\ name = "final_scrolling_subtitles_" +:+ task_id +:+ ".mp4"
       | Json body code =>
           (code = 404%Z /\ task st' !! "status" = Some (TStr "completed")
            /\ exists path, task st' !! "output_file" = Some path
                            /\ os_path_exists path = false)
           \/ (code = 400%Z /\ task st' !! "status" = Some (TStr "error"))
       end.
Proof.
  cbv zeta.
  destruct (process_videos_end w task_id video_data subtitles_content st) as [Hend _].
  set (st' := (process_videos w task_id video_data subtitles_content st).2) in *.
  unfold download_video_route, entry_item. rewrite lookup_insert_eq.
  destruct Hend as [(Hs & _ & _ & Ho) | (Hs & _ & _)]; rewrite Hs; cbn.
  - assert (Hp : exists path, task st' !! "output_file" = Some path
                              /\ (path = TStr (final_output_path task_id)
                                  \/ path = TStr (fallback_output_path task_id))).
    { destruct Ho as [Ho | Ho]; eexists; (split; [exact Ho |]); [now left | now right]. }
    destruct Hp as (path & Hp & Hpath). rewrite Hp. cbn.
    destruct (os_path_exists path) eqn:Hex; cbn; eexists; (split; [reflexivity |]).
    + now repeat split.
    + left. split; [reflexivity |]. split; [reflexivity |]. now exists path.
  - eexists. split; [reflexivity |]. right. now split.
Qed.

(** ** The renderer *)

(** X16. The renderer gives a file or one of two errors, nothing
    else: [create_scrolling_subtitles_video] returns the primary output
    path, or the fallback one, both of them non-empty, or raises the
    critical error of the fallback, or raises the error of decoding
    the output of a failed primary run, in which case the fallback is
    not tried.  So the branch of [process_videos] for an empty result
    is never taken. *)
Theorem create_scrolling_subtitles_video_result (w : world) (task_id video_path : string)
    (word_level_info : option (list word_timing))
    (line_level_subtitles : option (list cue)) (has_audio : bool) (st : state) :
  match create_scrolling_subtitles_video w task_id video_path word_level_info
          line_level_subtitles has_audio st with
  | (Return path, _) =>
      (path = final_output_path task_id \/ path = fallback_output_path task_id)
      /\ PyStr.truthy path = true
  | (Raise e, st') =>
      is_critical e
      \/ (exists h cause, stderr_decode w h cause = Some e)
         /\ forall job, ERun job ∈ trace st' ->
                        ERun job ∈ trace st \/ out_path job = final_output_path task_id
  end.
Proof.
  unfold create_scrolling_subtitles_video, try_except.
  set (body := create_ass_subtitles w task_id word_level_info line_level_subtitles ≫= _).
  assert (Hbody : match body st with
                  | (Return path, _) => path = final_output_path task_id
                  | (Raise _, st1) =>
                      forall job, ERun job ∈ trace st1 ->
                                  ERun job ∈ trace st
                                  \/ out_path job = final_output_path task_id
                  end).
  { unfold body, mbind, M_bind.
    assert (Hass : forall job,
              ERun job ∈ trace (create_ass_subtitles w task_id word_level_info
                                  line_level_subtitles st).2 -> ERun job ∈ trace st).
    { intros job. unfold create_ass_subtitles, try_except, mbind, M_bind, lift.
      destruct (ass_document word_level_info line_level_subtitles) as [doc | e];
        [| trivial].
      rewrite write_result.
      destruct (write_file w (trace st) _ doc); cbn [snd trace after mret M_ret];
        intros H; apply elem_of_app in H as [H | H]; try exact H;
        apply list_elem_of_singleton in H; discriminate H. }
    destruct (create_ass_subtitles w task_id word_level_info line_level_subtitles st)
      as [[ass_path | e] st1]; cbn [snd] in Hass.
    2:{ intros job Hjob. left. now apply Hass. }
    assert (Hrun : forall job0 st2,
              out_path job0 = final_output_path task_id ->
              (forall job, ERun job ∈ trace st2 ->
                           ERun job ∈ trace st
                           \/ out_path job = final_output_path task_id) ->
              match (let (o, st3) := run w job0 st2 in
                     match o with
                     | Return a => (mret (final_output_path task_id) : M string) st3
                     | Raise e => (Raise e, st3)
                     end) with
              | (Return path, _) => path = final_output_path task_id
              | (Raise _, st3) =>
                  forall job, ERun job ∈ trace st3 ->
                              ERun job ∈ trace st
                              \/ out_path job = final_output_path task_id
              end).
    { intros job0 st2 Hout Hst2. rewrite run_result.
      destruct (ffmpeg_run w (trace st2) job0); [| reflexivity].
      intros job Hjob. cbn [trace after] in Hjob.
      apply elem_of_app in Hjob as [Hjob | Hjob]; [now apply Hst2 |].
      apply list_elem_of_singleton in Hjob. injection Hjob as ->. now right. }
    destruct ass_path as [ass_path |].
    - unfold ask. cbv beta iota.
      destruct (path_exists w (trace st1) ass_path).
      + apply Hrun; [reflexivity |].
        intros job Hjob. cbn [trace after] in Hjob.
        apply elem_of_app in Hjob as [Hjob | Hjob]; [left; now apply Hass |].
        apply list_elem_of_singleton in Hjob. discriminate Hjob.
      + apply Hrun; [now destruct has_audio |].
        intros job Hjob. cbn [trace after] in Hjob.
        apply elem_of_app in Hjob as [Hjob | Hjob]; [left; now apply Hass |].
        apply list_elem_of_singleton in Hjob. discriminate Hjob.
    - apply Hrun; [now destruct has_audio |].
      intros job Hjob. left. now apply Hass. }
  destruct (body st) as [[path | e] st1].
  - subst path. split; [now left | apply output_paths_truthy].
  - unfold mbind, M_bind, decode_stderr.
    destruct (stderr_decode w (trace st1) e) as [undecodable |] eqn:Ed.
    + right. split; [now exists (trace st1), e | exact Hbody].
    + pose proof (create_fallback_video_cases w task_id video_path line_level_subtitles
                    has_audio st1) as H.
      cbv zeta in H. rewrite H. clear H.
      destruct (truthy_list line_level_subtitles);
        [destruct (write_file w (trace st1) _ _) |];
        destruct (ffmpeg_run w _ _) as [e' |];
        first [ left; now exists e'
              | split; [now right | apply output_paths_truthy] ].
Qed.

(** ** The probe *)

(** X17. [check_audio_exists] asks one probe and answers [True] exactly
    when the probe succeeds and lists an audio stream before any stream
    that lacks a codec type; in every other case, a failed probe or such
    a stream ahead of the audio, it answers [False].  It never
    raises. *)
Theorem check_audio_exists_answer (w : world) (video_path : string) (st : state) :
  exists has_audio,
    check_audio_exists w video_path st = (Return has_audio, after st [EProbe video_path])
    /\ (has_audio = true
        <-> exists before rest,
              ffmpeg_probe w (trace st) video_path
              = Return (map Some before ++ Some "audio" :: rest)).
Proof.
  assert (Hany : forall streams,
            any_audio streams = Return true
            <-> exists before rest, streams = map Some before ++ Some "audio" :: rest).
  { intros streams. induction streams as [| [codec_type |] streams IH]; cbn [any_audio].
    - split; [discriminate | intros ([| ? ?] & rest & H); discriminate H].
    - destruct (String.eqb codec_type "audio") eqn:Ec.
      + apply String.eqb_eq in Ec as ->.
        split; [intros _; now exists [], streams | reflexivity].
      + rewrite IH. split.
        * intros (before & rest & ->). now exists (codec_type :: before), rest.
        * intros ([| c before] & rest & H); cbn in H; injection H as -> ->.
          -- rewrite String.eqb_refl in Ec. discriminate Ec.
          -- now exists before, rest.
    - split; [discriminate | intros ([| ? ?] & rest & H); discriminate H]. }
  unfold check_audio_exists, try_except, ask, mbind, M_bind, lift.
  destruct (ffmpeg_probe w (trace st) video_path) as [streams | e] eqn:Ep; cbn.
  - destruct (any_audio streams) as [[] | e] eqn:Ea; cbn;
      eexists; (split; [reflexivity |]).
    + split; [intros _ | reflexivity].
      destruct (proj1 (Hany streams) Ea) as (before & rest & ->). now exists before, rest.
    + split; [discriminate |]. intros (before & rest & H). injection H as H.
      assert (any_audio streams = Return true) by (apply Hany; eauto). congruence.
    + split; [discriminate |]. intros (before & rest & H). injection H as H.
      assert (any_audio streams = Return true) by (apply Hany; eauto). congruence.
  - eexists. split; [reflexivity |].
    split; [discriminate | intros (? & ? & H); discriminate H].
Qed.

(** ** The scan for an address *)

(** X18. For a descriptor with neither [url] nor [output],
    [extract_video_url] gives the first value, in the order of the
    keys, that is a string starting with [http] and mentioning [.mp4],
    wherever in the string and under whatever key; without such a value
    it gives [None]. *)
Theorem extract_video_url_scan (d : list (string * json)) :
  Py.assoc "url" d = None -> Py.assoc "output" d = None ->
  (extract_video_url (JDict d) = Return JNull
   /\ Forall (fun item => mp4_link item.2 = false) d)
  \/ exists before key value rest,
       d = before ++ (key, value) :: rest
       /\ Forall (fun item => mp4_link item.2 = false) before
       /\ mp4_link value = true
       /\ extract_video_url (JDict d) = Return value.
Proof.
  intros Hu Ho. unfold extract_video_url. rewrite Hu, Ho. clear Hu Ho.
  induction d as [| [key value] d IH].
  - left. split; [reflexivity | constructor].
  - destruct (mp4_link value) eqn:Ev.
    + right. exists [], key, value, d.
      split; [reflexivity |]. split; [constructor |]. split; [exact Ev |].
      destruct value; try discriminate Ev. cbn [first_mp4_value]. cbn [mp4_link] in Ev.
      now rewrite Ev.
    + assert (Hstep : first_mp4_value ((key, value) :: d) = first_mp4_value d).
      { destruct value; try reflexivity. cbn [first_mp4_value]. cbn [mp4_link] in Ev.
        now rewrite Ev. }
      rewrite Hstep.
      destruct IH as [[Hr Hall] | (before & k & v & rest & -> & Hb & Hv & Hr)].
      * left. split; [exact Hr | now constructor].
      * right. exists ((key, value) :: before), k, v, rest.
        split; [reflexivity |]. split; [now constructor |]. now split.
Qed.

Lemma extract_video_url_scan_witness :
  (extract_video_url (JDict [("id", JInt 7); ("link", JStr "http://host/a.mp4?x=1")])
   = Return JNull
   /\ Forall (fun item => mp4_link item.2 = false)
             [("id", JInt 7); ("link", JStr "http://host/a.mp4?x=1")])
  \/ exists before key value rest,
       [("id", JInt 7); ("link", JStr "http://host/a.mp4?x=1")]
       = before ++ (key, value) :: rest
       /\ Forall (fun item => mp4_link item.2 = false) before
       /\ mp4_link value = true
       /\ extract_video_url (JDict [("id", JInt 7); ("link", JStr "http://host/a.mp4?x=1")])
          = Return value.
Proof.
  apply (extract_video_url_scan [("id", JInt 7); ("link", JStr "http://host/a.mp4?x=1")]);
    reflexivity.
Defined.

(** ** The corpus of the text fallback *)

Lemma take_length (n : nat) (s : string) : String.length (PyStr.take n s) <= n.
Proof.
  unfold PyStr.take. revert s. induction n as [| n IH]; intros [| c s]; cbn; try lia.
  specialize (IH s). lia.
Qed.

Lemma clean_text_for_speech_length (w : world) (text_input : json) :
  String.length (clean_text_for_speech w text_input) <= 500.
Proof.
  unfold clean_text_for_speech. destruct (negb (Py.truthy text_input)); cbn zeta.
  - cbn. lia.
  - apply take_length.
Qed.

Lemma join_length_bound (sep : string) (bound : nat) (l : list string) :
  Forall (fun part => String.length part <= bound) l ->
  String.length (PyStr.join sep l) <= (bound + String.length sep) * length l.
Proof.
  induction 1 as [| x l Hx Hl IH]; [cbn; lia |].
  destruct l as [| y l].
  - cbn. lia.
  - change (PyStr.join sep (x :: y :: l)) with (x +:+ sep +:+ PyStr.join sep (y :: l)).
    rewrite !string_app_length. cbn [length] in *. lia.
Qed.

(** X19. Whatever the regular expression engine answers, a descriptor
    gives the corpus of the text fallback at most one part, never an
    empty one and never more than 500 characters; a descriptor that is
    neither an object nor a string gives none.  So the corpus of [n]
    descriptors is at most [502 * n] characters long. *)
Theorem extract_text_from_videos_bounded (w : world) (video_data : list json) :
  Forall (fun part => part <> "" /\ String.length part <= 500)
         (full_text_parts w video_data)
  /\ length (full_text_parts w video_data) <= length video_data
  /\ String.length (extract_text_from_videos w video_data) <= 502 * length video_data
  /\ (Forall (fun v => match v with JDict _ | JStr _ => False | _ => True end) video_data ->
      extract_text_from_videos w video_data = "").
Proof.
  assert (Hone : forall v,
            Forall (fun part => part <> "" /\ String.length part <= 500)
                   (text_parts_of w v)
            /\ length (text_parts_of w v) <= 1).
  { intros v. unfold text_parts_of.
    destruct (Py.truthy (current_raw_text w v)); [| split; [constructor | cbn; lia]].
    destruct (PyStr.truthy (clean_text_for_speech w (current_raw_text w v))) eqn:Et;
      [| split; [constructor | cbn; lia]].
    split; [| cbn; lia]. constructor; [| constructor].
    split; [| apply clean_text_for_speech_length].
    intros E. rewrite E in Et. discriminate Et. }
  assert (Hparts : Forall (fun part => part <> "" /\ String.length part <= 500)
                          (full_text_parts w video_data)
                   /\ length (full_text_parts w video_data) <= length video_data).
  { unfold full_text_parts. induction video_data as [| v l [IH1 IH2]].
    - split; [constructor | cbn; lia].
    - cbn [map concat]. destruct (Hone v) as [H1 H2]. split.
      + apply Forall_app. now split.
      + rewrite length_app. cbn [length]. lia. }
  destruct Hparts as [Hall Hlen]. split; [exact Hall |]. split; [exact Hlen |]. split.
  - unfold extract_text_from_videos.
    etransitivity.
    + apply (join_length_bound _ 500).
      eapply Forall_impl; [exact Hall | intros part [_ H]; exact H].
    + cbn [String.length]. nia.
  - intros Hnone. unfold extract_text_from_videos.
    replace (full_text_parts w video_data) with (@nil string); [reflexivity |].
    clear Hall Hlen. unfold full_text_parts.
    induction Hnone as [| v l Hv _ IH]; [reflexivity |].
    cbn [map concat]. rewrite <- IH.
    destruct v; try contradiction; reflexivity.
Qed.

(** ** A probe that fails *)



(** ** No clip *)




(** The run on that descriptor. *)
Example no_clip_type_error_run :
  let st' := (process_videos (Worlds.calm []) "t1" [JDict [("output", JNull)]] None
                (initial_state ∅)).2 in
  trace st' = []
  /\ task st' !! "status" = Some (TStr "error")
  /\ task st' !! "progress" = Some (TInt 0)
  /\ task st' !! "error" = Some (TStr "argument of type 'NoneType' is not iterable").
Proof. repeat split; reflexivity. Qed.
